(** * Weighted routing and capacity scaling for a pool of SageMaker endpoints

    A shallow embedding of the three Lambda functions of the repository:
    - [Router]        : [router-lambda.py], the weighted selector and its
                        request counter;
    - [RouterApi]     : [router-lambda.py], the configuration update and
                        the handler;
    - [AsgActivity]   : [asg-activity-lambda.py], the capacity-declare and
                        reconciliation handler with the redistribution
                        algorithm;
    - [AsgDimension]  : [asg-activity-lambda.py], the dimension of a
                        request;
    - [EndpointState] : [endpoint-state-lambda.py], the status-event handler
                        with the weight rebalancer.

    Python [int] and DynamoDB numbers are [Z]; Python lists are [list] with
    stdpp's lookup; Python dicts with string keys are [gmap string _].
    Exceptions are values of a sum type; the external collaborators
    (DynamoDB, the SageMaker control plane, the clock, [uuid4]) enter the
    functions as explicit arguments. *)

From Stdlib Require Import Ascii.
From stdpp Require Import gmap strings list fin_maps pretty numbers.

Local Open Scope Z_scope.

(** ** Effects: a writer over an error monad

    [Eff W E A] is a computation that emits a list of [W] (log lines, or
    control-plane requests) and either raises an [E] or returns an [A].
    What was emitted before an exception stays emitted. *)

Definition Eff (W E A : Type) : Type := (list W * (E + A))%type.

Global Instance eff_ret {W E} : MRet (Eff W E) := λ A a, ([], inr a).

Global Instance eff_bind {W E} : MBind (Eff W E) := λ A B f m,
  match m with
  | (w, inl e) => (w, inl e)
  | (w, inr a) => let '(w', r) := f a in (w ++ w', r)
  end.

Definition raise {W E A} (e : E) : Eff W E A := ([], inl e).

Definition tell {W E} (w : W) : Eff W E unit := ([w], inr tt).

(** [try: m except h]: the handler runs on the exception, after what [m]
    already emitted. *)
Definition try_except {W E A} (m : Eff W E A) (h : E → Eff W E A) : Eff W E A :=
  match m with
  | (w, inl e) => let '(w', r) := h e in (w ++ w', r)
  | (w, inr a) => (w, inr a)
  end.

Definition emitted {W E A} (m : Eff W E A) : list W := m.1.
Definition outcome {W E A} (m : Eff W E A) : E + A := m.2.

(** [sum(l)] on a list of integers. *)
Definition sum (l : list Z) : Z := foldr Z.add 0 l.

(** [enumerate(l)] started at index [i]. *)
Fixpoint enumerate_from {A} (i : nat) (l : list A) : list (nat * A) :=
  match l with
  | [] => []
  | x :: l' => (i, x) :: enumerate_from (S i) l'
  end.

Definition enumerate {A} (l : list A) : list (nat * A) := enumerate_from 0 l.

(** What a call to an external service does: it returns, or raises botocore's
    [ClientError] (with the error code and message of its response and its
    text), or raises something else (with its text). *)
Inductive Called (A : Type) :=
  | Returned (a : A)
  | RaisedClientError (error_code error_message text : string)
  | RaisedOther (text : string).
Arguments Returned {A} a.
Arguments RaisedClientError {A} error_code error_message text.
Arguments RaisedOther {A} text.

(** ** router-lambda.py *)

Module Router.

(** The values the [details] dict of a [LoadBalancerError] holds. *)
Inductive Detail :=
  | DStr (s : string)
  | DInt (n : Z)
  | DInts (l : list Z)
  | DStrs (l : list string).

Record LoadBalancerError := mkLoadBalancerError {
  message : string;
  status_code : Z;
  details : gmap string Detail
}.

Inductive LogLine :=
  | LogError (text : string)
  | LogWarning (text : string)
  | LogInfo (text : string).

Abbreviation LB := (Eff LogLine LoadBalancerError).

(** The configuration item of the table, as [get_item] returns it:
    [config.get('servers', [])] and [config.get('weights', [])] read keys
    that may be absent. The weights are stored as integral numbers. *)
Record ConfigItem := {
  cfg_servers : option (list string);
  cfg_weights : option (list Z)
}.

(** The routing decision [get_next_server] returns; the key [warning] is
    only present on the trailing path. *)
Record Selection := {
  server : string;
  request_id : string;
  request_count : Z;
  warning : option string
}.

(** The answers of the collaborators during one invocation: the [get_item]
    of the configuration ([None]: no ['Item'] in the response), the
    [put_item] of the default configuration, the [update_item] of the
    counter (the [request_count] of the old attributes, [None] when the
    counter did not exist), [int(time.time() * 1000)] and [str(uuid.uuid4())]. *)
Record Env := {
  get_item : Called (option ConfigItem);
  put_item : Called unit;
  update_item : Called (option Z);
  time_ms : Z;
  uuid4 : string
}.

Definition default_servers : list string := ["server1"; "server2"; "server3"]%string.
Definition default_weights : list Z := [5; 3; 2].

(** [get_server_config]. The [LoadBalancerError] its [try] raises for an
    invalid configuration, or for a default configuration that could not be
    stored, is caught by its own [except Exception] and raised again as
    "Failed to retrieve server configuration", like any exception that is not
    a [ClientError] of [get_item]. *)
Definition get_server_config (env : Env) : LB (list string * list Z) :=
  let wrap (text : string) : LB (list string * list Z) :=
    (* except Exception as e *)
    _ ← tell (LogError ("Unexpected error retrieving server config: " +:+ text));
    raise (mkLoadBalancerError "Failed to retrieve server configuration" 500
             {[ "error"%string := DStr text ]}) in
  match get_item env with
  | Returned (Some config) =>
      let servers := default [] (cfg_servers config) in
      let weights := default [] (cfg_weights config) in
      if bool_decide (servers = []) || bool_decide (weights = [])
         || negb (bool_decide (length servers = length weights))
      then wrap "Invalid server configuration in database"
      else mret (servers, weights)
  | Returned None =>
      match put_item env with
      | Returned _ => mret (default_servers, default_weights)
      | RaisedClientError _ _ text =>
          _ ← tell (LogError ("Failed to store default configuration: " +:+ text));
          wrap "Failed to initialize server configuration"
      | RaisedOther text => wrap text
      end
  | RaisedClientError error_code error_message text =>
      _ ← tell (LogError ("DynamoDB error retrieving server config: " +:+ text));
      raise (mkLoadBalancerError ("DynamoDB error: " +:+ error_code) 500
               {[ "error_code"%string := DStr error_code;
                  "error_message"%string := DStr error_message ]})
  | RaisedOther text => wrap text
  end.

Definition get_and_increment_counter (env : Env) : LB Z :=
  match update_item env with
  | Returned (Some previous) => mret previous
  | Returned None => mret 0
  | RaisedClientError error_code error_message text =>
      _ ← tell (LogError ("DynamoDB error updating counter: " +:+ text));
      let fallback_count := time_ms env `mod` 1000 in
      _ ← tell (LogInfo ("Using fallback counter value: " +:+ pretty fallback_count));
      raise (mkLoadBalancerError ("Counter update failed: " +:+ error_code) 500
               {[ "error_code"%string := DStr error_code;
                  "error_message"%string := DStr error_message;
                  "fallback_count"%string := DInt fallback_count ]})
  | RaisedOther text =>
      _ ← tell (LogError ("Unexpected error updating counter: " +:+ text));
      let fallback_count := time_ms env `mod` 1000 in
      _ ← tell (LogInfo ("Using fallback counter value: " +:+ pretty fallback_count));
      raise (mkLoadBalancerError "Failed to update request counter" 500
               {[ "error"%string := DStr text;
                  "fallback_count"%string := DInt fallback_count ]})
  end.

(** The loop [for i, weight in enumerate(weights)] of [get_next_server]:
    the index at which it returns, [None] when it runs to its end. *)
Fixpoint walk (position cumulative : Z) (l : list (nat * Z)) : option nat :=
  match l with
  | [] => None
  | (i, weight) :: l' =>
      let cumulative := cumulative + weight in
      if bool_decide (position ≤ cumulative) then Some i
      else walk position cumulative l'
  end.

(** [except Exception as e] of [get_next_server]. *)
Definition failed_to_determine {A} (text : string) : LB A :=
  _ ← tell (LogError ("Unexpected error in get_next_server: " +:+ text));
  raise (mkLoadBalancerError "Failed to determine next server" 500
           {[ "error"%string := DStr text ]}).

(** [servers[i]]. *)
Definition subscript (servers : list string) (i : nat) : LB string :=
  match servers !! i with
  | Some s => mret s
  | None => failed_to_determine "list index out of range"
  end.

(** [get_next_server] from "Calculate total weight" on. *)
Definition select_server (servers : list string) (weights : list Z)
    (request_count : Z) (uuid : string) : LB Selection :=
  let total_weight := sum weights in
  if bool_decide (total_weight ≤ 0) then
    raise (mkLoadBalancerError "Invalid server weights configuration" 500
             {[ "weights"%string := DInts weights;
                "total_weight"%string := DInt total_weight ]})
  else
    let position := request_count `mod` total_weight + 1 in
    match walk position 0 (enumerate weights) with
    | Some i =>
        s ← subscript servers i;
        mret {| server := s; request_id := uuid;
                request_count := request_count + 1; warning := None |}
    | None =>
        _ ← tell (LogWarning "Server selection algorithm reached unexpected fallback path");
        s ← subscript servers 0;
        mret {| server := s; request_id := uuid;
                request_count := request_count + 1;
                warning := Some "Used fallback server selection"%string |}
    end.

Definition get_next_server (env : Env) : LB Selection :=
  '(servers, weights) ← get_server_config env;
  request_count ←
    try_except (get_and_increment_counter env) (λ e,
      match details e !! "fallback_count"%string with
      | Some (DInt n) =>
          _ ← tell (LogInfo ("Using fallback counter: " +:+ pretty n));
          mret n
      | Some _ => failed_to_determine "unsupported operand type(s) for %"
      | None => raise e
      end);
  select_server servers weights request_count (uuid4 env).

End Router.

(** ** What the two scaling Lambdas share *)

Module Scaling.

(** A value of a DynamoDB item or of a JSON body: a number (boto3 hands it
    over as [Decimal]; the capacities and counts are integral) or text. *)
Inductive Value :=
  | VNum (n : Z)
  | VStr (s : string).

Global Instance Value_eq_dec : EqDecision Value.
Proof. solve_decision. Defined.

(** The scaling state is a Python dict, read from and written to the table
    as it is. *)
Abbreviation Item := (gmap string Value).

(** The item [server_config] of the table. *)
Record ConfigItem := {
  servers : option (list string);
  weights : option (list Z);
  current_instance_count : option (list Z)
}.

Inductive Exn :=
  | KeyError (key : string)
  | IndexError
  | ValueError
  | TypeError
  | ZeroDivisionError
  | OverflowError
  | ConfigurationError (message : string) (status_code : Z) (details : list (string * string))
  | OtherError (text : string).

(** The calls that change something outside the Lambda, in the order they
    are made. *)
Inductive Call :=
  | UpdateEndpoint (EndpointName VariantName : string) (DesiredInstanceCount : Z)
  | PutState (item : Item)
  | PutConfig (config : ConfigItem).

Abbreviation M := (Eff Call Exn).

(** [d[key]] *)
Definition getitem (d : Item) (key : string) : M Value :=
  match d !! key with
  | Some v => mret v
  | None => raise (KeyError key)
  end.

(** A stored value used as a number ([Decimal(v)], [float(v)], [v >= 0],
    [v < n]). Numbers kept as text are outside the model: the use raises. *)
Definition number (v : Value) : M Z :=
  match v with
  | VNum n => mret n
  | VStr _ => raise TypeError
  end.

(** A stored value used as text ([v + '-' + server], a [VariantName]). *)
Definition text (v : Value) : M string :=
  match v with
  | VStr s => mret s
  | VNum _ => raise TypeError
  end.

(** [l[i]] *)
Definition subscript {A} (l : list A) (i : nat) : M A :=
  match l !! i with
  | Some x => mret x
  | None => raise IndexError
  end.

(** [l.index(x)]: the first position of [x], [ValueError] without one. *)
Fixpoint index_from {A} `{EqDecision A} (i : nat) (l : list A) (x : A) : option nat :=
  match l with
  | [] => None
  | y :: l' => if bool_decide (y = x) then Some i else index_from (S i) l' x
  end.

Definition index {A} `{EqDecision A} (l : list A) (x : A) : M nat :=
  match index_from 0 l x with
  | Some i => mret i
  | None => raise ValueError
  end.

(** The three lists of the configuration item, with the defaults of
    [config.get]. *)
Definition config_lists (config : ConfigItem) : list string * list Z * list Z :=
  let servers := default [] (servers config) in
  let weights := default (replicate (length servers) 0) (weights config) in
  let currentInstanceCount :=
    default (replicate (length servers) 0) (current_instance_count config) in
  (servers, currentInstanceCount, weights).

Definition Pending : Value := VStr "Pending".
Definition InProgress : Value := VStr "InProgress".
Definition Successful : Value := VStr "Successful".
Definition Failed : Value := VStr "Failed".

End Scaling.

(** ** asg-activity-lambda.py *)

Module AsgActivity.
Import Scaling.

(** The answers of the collaborators during one invocation: the [get_item]
    of the state and of the configuration, the [put_item] of the state, the
    control plane's answer to each request and
    [int(Decimal(time.time()) * 1000)]. *)
Record Env := {
  get_state : Called (option Item);
  get_config : Called (option ConfigItem);
  put_state : Called unit;
  sagemaker : string → string → Z → Called unit;
  time_ms : Z
}.

(** The body of the request: absent or empty, not JSON, or a JSON object. *)
Inductive Body :=
  | NoBody
  | InvalidJSON
  | JSONBody (bodyData : Item).

Record Event := {
  httpMethod : option string;
  body : Body
}.

Record ReturningJson := {
  actualCapacity : Z;
  desiredCapacity : Z;
  dimensionName : Value;
  resourceName : Value;
  scalableTargetDimensionId : Value;
  scalingStatus : Value;
  version : Value
}.

Inductive Response :=
  | Response200 (returningJson : ReturningJson)
  | Response400
  | Response405
  | Response500 (e : Exn).

Definition read_state (env : Env) : Item :=
  match get_state env with
  | Returned (Some item) => item
  | _ => ∅
  end.

(** [write_state]: a failure of [put_item] is logged and swallowed, so the
    call never raises; whether the item reached the table is [put_state env]
    (see [written]). *)
Definition write_state (env : Env) (dimensionId : Value) (currentState : Item) : M unit :=
  let currentState := <["id" := dimensionId]> currentState in
  let currentState := <["lastModified" := VNum (time_ms env)]> currentState in
  tell (PutState currentState).

Definition get_server_config (env : Env) : M (list string * list Z * list Z) :=
  match get_config env with
  | Returned (Some config) => mret (config_lists config)
  | Returned None =>
      raise (ConfigurationError "Server configuration not found in database" 500 [])
  | RaisedClientError error_code error_message _ =>
      raise (ConfigurationError
               ("Error retrieving server configuration: " +:+ error_message) 500
               [("error_code", error_code)]%string)
  | RaisedOther text => raise (OtherError text)
  end.

Definition update_endpoint (env : Env) (endpoint_name variant_name : string)
    (desired_instance_count : Z) : M unit :=
  _ ← tell (UpdateEndpoint endpoint_name variant_name desired_instance_count);
  match sagemaker env endpoint_name variant_name desired_instance_count with
  | Returned _ => mret tt
  | RaisedClientError error_code error_message _ =>
      raise (ConfigurationError ("Error updating endpoint: " +:+ error_message) 500
               [("error_code", error_code)]%string)
  | RaisedOther text => raise (OtherError text)
  end.

(** The arguments [currentState["resourceName"] + '-' + server] and
    [currentState["variantName"]] of a call of [update_endpoint]. *)
Definition endpoint_of (currentState : Item) (server : string) : M (string * string) :=
  resourceName ← getitem currentState "resourceName" ≫= text;
  variantName ← getitem currentState "variantName" ≫= text;
  mret (resourceName +:+ "-" +:+ server, variantName).

(** The loop of the [else] of [delta > 0]. *)
Fixpoint scale_up (env : Env) (currentState : Item) (currentInstanceCount : list Z)
    (delta : Z) (l : list (nat * string)) : M unit :=
  match l with
  | [] => mret tt
  | (i, server) :: l' =>
      '(endpoint_name, variant_name) ← endpoint_of currentState server;
      count ← subscript currentInstanceCount i;
      _ ← update_endpoint env endpoint_name variant_name (count + delta);
      scale_up env currentState currentInstanceCount delta l'
  end.

(** The loop of [delta < 0]. *)
Fixpoint scale_down (env : Env) (currentState : Item) (currentInstanceCount : list Z)
    (delta : Z) (l : list (nat * string)) : M unit :=
  match l with
  | [] => mret tt
  | (i, server) :: l' =>
      count ← subscript currentInstanceCount i;
      if bool_decide (- delta < count) then
        '(endpoint_name, variant_name) ← endpoint_of currentState server;
        update_endpoint env endpoint_name variant_name (count + delta)
        (* break *)
      else if bool_decide (0 < count) then
        '(endpoint_name, variant_name) ← endpoint_of currentState server;
        _ ← update_endpoint env endpoint_name variant_name 0;
        scale_down env currentState currentInstanceCount (delta + count) l'
      else
        scale_down env currentState currentInstanceCount delta l'
  end.

Definition update_scaling (env : Env) (currentState : Item) : M unit :=
  '(servers, currentInstanceCount, weights) ← get_server_config env;
  desired ← getitem currentState "desiredCapacity" ≫= number;
  actual ← getitem currentState "actualCapacity" ≫= number;
  let delta := desired - actual in
  if bool_decide (0 < delta) then
    if bool_decide (sum currentInstanceCount = 0) then
      resourceName ← getitem currentState "resourceName" ≫= text;
      i ← index weights 1;
      server ← subscript servers i;
      variantName ← getitem currentState "variantName" ≫= text;
      update_endpoint env (resourceName +:+ "-" +:+ server) variantName delta
    else
      scale_up env currentState currentInstanceCount delta (enumerate servers)
  else if bool_decide (delta < 0) then
    scale_down env currentState currentInstanceCount delta (enumerate servers)
  else mret tt.

Definition patch_state (env : Env) (bodyData currentState : Item) : M Item :=
  currentState ←
    match bodyData !! "actualCapacity" with
    | Some v => n ← number v; mret (<["actualCapacity" := VNum n]> currentState)
    | None => mret currentState
    end;
  currentState ←
    match bodyData !! "desiredCapacity" with
    | Some v =>
        status ← getitem currentState "scalingStatus";
        if bool_decide (status ∉ [InProgress; Pending]) then
          n ← number v;
          let currentState := <["desiredCapacity" := VNum n]> currentState in
          if bool_decide (0 < n) then
            let currentState := <["scalingStatus" := Pending]> currentState in
            _ ← update_scaling env currentState;
            mret currentState
          else mret currentState
        else mret currentState
    | None => mret currentState
    end;
  match bodyData !! "scalingStatus" with
  | Some v => mret (<["scalingStatus" := v]> currentState)
  | None => mret currentState
  end.

(** The branch of [lambda_handler] for a [GET]. *)
Definition reconcile (env : Env) (currentState : Item) : M Item :=
  desired ← getitem currentState "desiredCapacity";
  d ← number desired;
  if bool_decide (0 ≤ d) then
    status ← getitem currentState "scalingStatus";
    currentState ←
      (if bool_decide (status = Successful ∨ status = Failed) then
         actual ← getitem currentState "actualCapacity";
         if bool_decide (desired ≠ actual) then
           let currentState := <["scalingStatus" := Pending]> currentState in
           _ ← update_scaling env currentState;
           mret currentState
         else mret currentState
       else mret currentState);
    lastModified ← getitem currentState "lastModified" ≫= number;
    status ← getitem currentState "scalingStatus";
    if bool_decide (lastModified < time_ms env - 25 * 60 * 1000)
       && bool_decide (status = Pending ∨ status = InProgress) then
      actual ← getitem currentState "actualCapacity";
      if bool_decide (desired ≠ actual) then
        let currentState := <["scalingStatus" := Failed]> currentState in
        mret (<["failureResaon" :=
                 VStr "Scaling activity stayed in Pending or InProgress for more than 25 minutes"]>
                currentState)
      else mret (<["scalingStatus" := Successful]> currentState)
    else mret currentState
  else mret currentState.

(** [log_state_changes] reads the three keys of both states; what it logs is
    left out. *)
Definition log_state_changes (previousState currentState : Item) : M unit :=
  _ ← getitem previousState "desiredCapacity";
  _ ← getitem currentState "desiredCapacity";
  _ ← getitem previousState "actualCapacity";
  _ ← getitem currentState "actualCapacity";
  _ ← getitem previousState "scalingStatus";
  _ ← getitem currentState "scalingStatus";
  mret tt.

(** [json.dumps] of a value: a [Decimal] is not serializable. *)
Definition json_dumps (v : Value) : M unit :=
  match v with
  | VStr _ => mret tt
  | VNum _ => raise TypeError
  end.

(** [lambda_handler] after the branch on the method: the failure reason is
    cleared, the changes are logged, the answer is put together, the state is
    written and the answer serialized. *)
Definition finish (env : Env) (previousState : Item) (dimensionId : Value)
    (currentState : Item) : M Response :=
  status ← getitem currentState "scalingStatus";
  let currentState :=
    if bool_decide (status ≠ Failed)
    then <["failureResaon" := VStr ""]> currentState else currentState in
  _ ← log_state_changes previousState currentState;
  actualCapacity ← getitem currentState "actualCapacity" ≫= number;
  desiredCapacity ← getitem currentState "desiredCapacity" ≫= number;
  dimensionName ← getitem currentState "dimensionName";
  resourceName ← getitem currentState "resourceName";
  scalableTargetDimensionId ← getitem currentState "scalableTargetDimensionId";
  scalingStatus ← getitem currentState "scalingStatus";
  version ← getitem currentState "version";
  _ ← write_state env dimensionId currentState;
  _ ← json_dumps dimensionName;
  _ ← json_dumps resourceName;
  _ ← json_dumps scalableTargetDimensionId;
  _ ← json_dumps scalingStatus;
  _ ← json_dumps version;
  mret (Response200 {|
    actualCapacity := actualCapacity; desiredCapacity := desiredCapacity;
    dimensionName := dimensionName; resourceName := resourceName;
    scalableTargetDimensionId := scalableTargetDimensionId;
    scalingStatus := scalingStatus; version := version |}).

(** [lambda_handler] from "Read current state" on, inside its [try]; the
    body has been parsed ([None]: there was none). *)
Definition handle (env : Env) (http_method : string) (bodyData : option Item)
    : M Response :=
  let currentState := read_state env in
  let previousState := currentState in
  dimensionId ← getitem currentState "scalableTargetDimensionId";
  if bool_decide (is_Some bodyData ∧ bodyData ≠ Some ∅)
     && bool_decide (http_method = "PATCH"%string) then
    patch_state env (default ∅ bodyData) currentState
      ≫= finish env previousState dimensionId
  else if bool_decide (http_method ≠ "GET"%string) then mret Response405
  else reconcile env currentState ≫= finish env previousState dimensionId.

Definition lambda_handler (env : Env) (event : Event) : list Call * Response :=
  let http_method := default "GET"%string (httpMethod event) in
  match body event with
  | InvalidJSON => ([], Response400)
  | NoBody =>
      match handle env http_method None with
      | (calls, inr response) => (calls, response)
      | (calls, inl e) => (calls, Response500 e)
      end
  | JSONBody bodyData =>
      match handle env http_method (Some bodyData) with
      | (calls, inr response) => (calls, response)
      | (calls, inl e) => (calls, Response500 e)
      end
  end.

(** The state item an invocation leaves in the table: the one [write_state]
    put, when [put_item] went through; [None] when nothing was written. *)
Fixpoint put_of (calls : list Call) : option Item :=
  match calls with
  | [] => None
  | PutState item :: _ => Some item
  | _ :: calls' => put_of calls'
  end.

Definition written (env : Env) (calls : list Call) : option Item :=
  match put_state env with
  | Returned _ => put_of calls
  | _ => None
  end.

End AsgActivity.

(** ** endpoint-state-lambda.py *)

Module EndpointState.
Import Scaling.

(** The [detail] of the EventBridge event, as far as the handler reads it;
    [ProductionVariants] lists the [DesiredInstanceCount] of each variant
    ([None] where a variant has none). *)
Record Detail := {
  EndpointName : option string;
  EndpointStatus : option string;
  ProductionVariants : option (list (option Z))
}.

(** The answers of the collaborators during one invocation, and the
    environment variable [DIMENSION_ID]. *)
Record Env := {
  get_config : Called (option ConfigItem);
  get_state : Called (option Item);
  put_config : Called unit;
  put_state : Called unit;
  sagemaker : string → string → Z → Called unit;
  time_ms : Z;
  dimensionId : string
}.

Inductive Response :=
  | Response200
  | Response500 (e : Exn).

(** [needle in haystack] on strings. *)
Fixpoint contains (haystack needle : string) : bool :=
  String.prefix needle haystack ||
  match haystack with
  | EmptyString => false
  | String _ rest => contains rest needle
  end.

(** [s.split(sep)] for a separator of one character. *)
Fixpoint split (sep : ascii) (s : string) : list string :=
  match s with
  | EmptyString => [EmptyString]
  | String c rest =>
      if bool_decide (c = sep) then EmptyString :: split sep rest
      else match split sep rest with
           | piece :: pieces => String c piece :: pieces
           | [] => [String c EmptyString]
           end
  end.

(** [math.gcd] of the elements of [l]; of no element it is [0]. *)
Definition gcd (l : list Z) : Z := foldr Z.gcd 0 l.

(** The integer nearest to [n / d], the even one of two that are equally
    near; [0 ≤ n] and [0 < d]. *)
Definition round_half_even (n d : Z) : Z :=
  let q := n `div` d in
  let r := n `mod` d in
  if bool_decide (2 * r < d) then q
  else if bool_decide (d < 2 * r) then q + 1
  else if Z.even q then q else q + 1.

(** [int(a / b)] for integers [0 ≤ a] and [0 < b]. The true division of two
    integers is the double nearest to the quotient: a significand of 53
    bits, rounded half to even, times a power of two, and [OverflowError]
    when that is [2^1024] or more; [int] then drops the fraction. Below 1
    the double is 1 from [1 - 2^-54] on and less than 1 otherwise. From 1
    on, with [2^(e+52) ≤ a / b < 2^(e+53)], the double is the quotient
    [a / (b * 2^e)], rounded to an integer, times [2^e]. *)
Definition int_truediv_nonneg (a b : Z) : M Z :=
  if bool_decide (a < b) then
    mret (if bool_decide ((2 ^ 54 - 1) * b ≤ 2 ^ 54 * a) then 1 else 0)
  else
    let e := Z.log2 (a `div` b) - 52 in
    if bool_decide (e ≤ 0) then
      mret (round_half_even (a * 2 ^ (- e)) b `div` 2 ^ (- e))
    else
      let value := round_half_even a (b * 2 ^ e) * 2 ^ e in
      if bool_decide (2 ^ 1024 ≤ value) then raise OverflowError else mret value.

(** [int(a / b)] for integers [a] and [b]: the sign is that of the
    quotient and [int] truncates towards 0. *)
Definition int_truediv (a b : Z) : M Z :=
  if bool_decide (b = 0) then raise ZeroDivisionError
  else
    n ← int_truediv_nonneg (Z.abs a) (Z.abs b);
    mret (Z.sgn a * Z.sgn b * n).

Definition get_server_config (env : Env) : M (list string * list Z * list Z) :=
  match get_config env with
  | Returned (Some config) => mret (config_lists config)
  | Returned None =>
      raise (ConfigurationError "Server configuration not found in database" 500 [])
  | RaisedClientError error_code error_message _ =>
      raise (ConfigurationError
               ("Error retrieving server configuration: " +:+ error_message) 500
               [("error_code", error_code)]%string)
  | RaisedOther text => raise (OtherError text)
  end.

Definition update_server_config (env : Env) (servers : list string)
    (weights currentInstanceCount : list Z) : M unit :=
  _ ← tell (PutConfig {| servers := Some servers; weights := Some weights;
                         current_instance_count := Some currentInstanceCount |});
  match put_config env with
  | Returned _ => mret tt
  | RaisedClientError error_code error_message _ =>
      raise (ConfigurationError ("Failed to update configuration: " +:+ error_code) 500
               [("error_code", error_code); ("error_message", error_message)]%string)
  | RaisedOther text =>
      raise (ConfigurationError "Failed to update server configuration" 500
               [("error", text)]%string)
  end.

Definition read_state (env : Env) : Item :=
  match get_state env with
  | Returned (Some item) => item
  | _ => ∅
  end.

(** [write_state]: a failure of [put_item] is logged and swallowed, so the
    call never raises; whether the item reached the table is [put_state env]. *)
Definition write_state (env : Env) (currentState : Item) : M unit :=
  let currentState := <["id" := VStr (dimensionId env)]> currentState in
  let currentState := <["lastModified" := VNum (time_ms env)]> currentState in
  tell (PutState currentState).

(** The loop [for i in range(len(asg.weights))] of the rebalancer. *)
Fixpoint rebalance_loop (gcd_value : Z) (currentInstanceCount weights : list Z)
    (range : list nat) : M (list Z) :=
  match range with
  | [] => mret weights
  | i :: range' =>
      count ← subscript currentInstanceCount i;
      weight ← int_truediv count gcd_value;
      rebalance_loop gcd_value currentInstanceCount (<[i := weight]> weights) range'
  end.

(** The weight rebalancer: the body of
    [elif desiredCapacity == actualCapacity] up to the new weights. *)
Definition rebalance (currentInstanceCount weights : list Z) : M (list Z) :=
  let gcd_value := gcd currentInstanceCount in
  weights ←
    (if bool_decide (gcd_value ≠ 0)
     then rebalance_loop gcd_value currentInstanceCount weights (seq 0 (length weights))
     else mret weights);
  if bool_decide (sum weights = 0) then
    match weights with
    | [] => raise IndexError
    | _ :: _ => mret (<[0%nat := 1]> weights)
    end
  else mret weights.

(** The direct call of [update_endpoint_weights_and_capacities]: whatever it
    raises goes to the handler's [except Exception]. *)
Definition update_endpoint_weights_and_capacities (env : Env)
    (endpoint_name variant_name : string) (desired_instance_count : Z) : M unit :=
  _ ← tell (UpdateEndpoint endpoint_name variant_name desired_instance_count);
  match sagemaker env endpoint_name variant_name desired_instance_count with
  | Returned _ => mret tt
  | RaisedClientError _ _ text => raise (OtherError text)
  | RaisedOther text => raise (OtherError text)
  end.

(** The branch [endpoint_status == 'IN_SERVICE']. *)
Definition in_service (env : Env) (detail : Detail) (endpoint_name : string)
    (servers : list string) (weights currentInstanceCount : list Z)
    (currentState : Item) : M unit :=
  server ← subscript (split "-"%char endpoint_name) 1;
  index ← index servers server;
  variants ← match ProductionVariants detail with
             | Some variants => mret variants
             | None => raise TypeError
             end;
  reported ← subscript variants 0;
  _ ← subscript currentInstanceCount index;
  count ← match reported with
          | Some count => mret count
          | None => raise TypeError
          end;
  let currentInstanceCount := <[index := count]> currentInstanceCount in
  let actual := sum currentInstanceCount in
  let currentState := <["actualCapacity" := VNum actual]> currentState in
  desired ← getitem currentState "desiredCapacity" ≫= number;
  '(weights, currentState) ←
    (if bool_decide (desired < actual) && bool_decide (0 < count) then
       variantName ← getitem currentState "variantName" ≫= text;
       _ ← update_endpoint_weights_and_capacities env endpoint_name variantName (count - 1);
       mret (weights, <["scalingStatus" := InProgress]> currentState)
     else if bool_decide (desired = actual) then
       weights ← rebalance currentInstanceCount weights;
       mret (weights, <["scalingStatus" := Successful]> currentState)
     else
       mret (weights, <["scalingStatus" := InProgress]> currentState));
  _ ← update_server_config env servers weights currentInstanceCount;
  write_state env currentState.

(** The body of the [try] of [handle_endpoint_status_change]. *)
Definition handle (env : Env) (detail : Detail) : M unit :=
  '(servers, currentInstanceCount, weights) ← get_server_config env;
  let currentState := read_state env in
  endpoint_name ← match EndpointName detail with
                  | Some endpoint_name => mret endpoint_name
                  | None => raise TypeError
                  end;
  resourceName ← match currentState !! "resourceName" with
                 | Some (VStr resourceName) => mret resourceName
                 | _ => raise TypeError
                 end;
  if contains endpoint_name resourceName then
    let set_status (status : Value) : M unit :=
      write_state env (<["scalingStatus" := status]> currentState) in
    let endpoint_status := EndpointStatus detail in
    if bool_decide (endpoint_status = Some "IN_SERVICE"%string) then
      in_service env detail endpoint_name servers weights currentInstanceCount currentState
    else if bool_decide (endpoint_status = Some "FAILED"%string) then set_status Failed
    else if bool_decide (endpoint_status = Some "CREATING"%string) then set_status Pending
    else if bool_decide (endpoint_status = Some "UPDATING"%string) then set_status InProgress
    else if bool_decide (endpoint_status = Some "SYSTEM_UPDATING"%string) then set_status Pending
    else if bool_decide (endpoint_status = Some "ROLLING_BACK"%string) then set_status Pending
    else if bool_decide (endpoint_status = Some "OUT_OF_SERVICE"%string) then set_status Failed
    else mret tt
  else mret tt.

Definition handle_endpoint_status_change (env : Env) (detail : Detail)
    : list Call * Response :=
  match handle env detail with
  | (calls, inr _) => (calls, Response200)
  | (calls, inl e) => (calls, Response500 e)
  end.

(** What an invocation leaves in the table: the configuration and the state
    it put, when the [put_item] went through. *)
Fixpoint config_put_of (calls : list Call) : option ConfigItem :=
  match calls with
  | [] => None
  | PutConfig config :: _ => Some config
  | _ :: calls' => config_put_of calls'
  end.

Fixpoint state_put_of (calls : list Call) : option Item :=
  match calls with
  | [] => None
  | PutState item :: _ => Some item
  | _ :: calls' => state_put_of calls'
  end.

End EndpointState.

(** ** router-lambda.py: the configuration update and the handler *)

Module RouterApi.
Import Router.

(** What leaves the Lambda, in order: a log line, the [put_item] of a
    configuration, the call of [invoke_endpoint_async] with its keyword
    arguments. *)
Inductive Effect :=
  | Logged (line : LogLine)
  | PutItem (servers : list string) (weights : list Z) (updated_at : string)
  | InvokeEndpointAsync (headers : gmap string string).

(** What a function of the module raises: a [LoadBalancerError], or any
    other exception, with its text. *)
Inductive Raised :=
  | Balancer (e : LoadBalancerError)
  | Unhandled (text : string).

Abbreviation API := (Eff Effect Raised).

Definition allowed_headers : list string :=
  ["Accept"; "ContentType"; "CustomAttributes"; "InferenceId"; "InputLocation";
   "InvocationTimeoutSeconds"; "RequestTTLSeconds"]%string.

Definition required_headers : list string := ["InputLocation"]%string.

(** A computation of the load balancer inside the handler: its log lines
    and its error are those of the handler. *)
Definition lift {A} (m : LB A) : API A :=
  (Logged <$> m.1, match m.2 with inl e => inl (Balancer e) | inr a => inr a end).

(** What [update_server_config] returns. *)
Record Updated := {
  upd_servers : list string;
  upd_weights : list Z;
  updated_at : string
}.

(** The loop of [update_server_config] that checks the weights, given as
    integers; [servers[i]] is read when a weight is negative. *)
Fixpoint check_weights (servers : list string) (l : list (nat * Z)) : API unit :=
  match l with
  | [] => mret tt
  | (i, weight) :: l' =>
      if bool_decide (weight < 0) then
        match servers !! i with
        | Some s =>
            raise (Balancer (mkLoadBalancerError
                     ("Weight for server " +:+ s +:+ " must be non-negative") 400
                     {[ "server"%string := DStr s; "weight"%string := DInt weight ]}))
        | None => raise (Unhandled "list index out of range")
        end
      else check_weights servers l'
  end.

(** [update_server_config(servers, weights)]; [put] is the answer of
    [put_item] and [timestamp] is [str(time.time())]. *)
Definition update_server_config (put : Called unit) (timestamp : string)
    (servers : list string) (weights : list Z) : API Updated :=
  if bool_decide (servers = []) || bool_decide (weights = []) then
    raise (Balancer (mkLoadBalancerError "Missing servers or weights" 400
             {[ "servers"%string := DStrs servers; "weights"%string := DInts weights ]}))
  else if negb (bool_decide (length servers = length weights)) then
    raise (Balancer (mkLoadBalancerError
             "Number of servers must match number of weights" 400
             {[ "servers_count"%string := DInt (Z.of_nat (length servers));
                "weights_count"%string := DInt (Z.of_nat (length weights)) ]}))
  else
    _ ← check_weights servers (enumerate weights);
    _ ← tell (PutItem servers weights timestamp);
    match put with
    | Returned _ =>
        mret {| upd_servers := servers; upd_weights := weights; updated_at := timestamp |}
    | RaisedClientError error_code error_message text =>
        _ ← tell (Logged (LogError ("DynamoDB error updating server config: " +:+ text)));
        raise (Balancer (mkLoadBalancerError
                 ("Failed to update configuration: " +:+ error_code) 500
                 {[ "error_code"%string := DStr error_code;
                    "error_message"%string := DStr error_message ]}))
    | RaisedOther text =>
        _ ← tell (Logged (LogError ("Unexpected error updating server config: " +:+ text)));
        raise (Balancer (mkLoadBalancerError "Failed to update server configuration" 500
                 {[ "error"%string := DStr text ]}))
    end.

(** The configuration item [update_server_config] has put, as a later
    [get_item] returns it. *)
Definition item_of (servers : list string) (weights : list Z) : ConfigItem :=
  {| cfg_servers := Some servers; cfg_weights := Some weights |}.

(** The event of the API: its method, its path parameters and headers
    ([None]: the key is missing or null) and its JSON text. *)
Record Event := {
  httpMethod : option string;
  pathParameters : option (gmap string string);
  headers : option (gmap string string);
  json : string
}.

Inductive Body :=
  | Invoked (response : string) (input_headers : gmap string string)
  | Failure (error : string) (details : gmap string Detail)
  | InternalServerError (message : string)
  | Echo.

Record Response := {
  statusCode : Z;
  body : Body
}.

(** The loop over [required_headers]. *)
Fixpoint check_required (event : Event) (request_headers : gmap string string)
    (required : list string) : API unit :=
  match required with
  | [] => mret tt
  | required_header :: required' =>
      if bool_decide (request_headers !! required_header = None) then
        raise (Balancer (mkLoadBalancerError
                 ("Missing required header: " +:+ required_header) 400
                 {[ "event"%string := DStr (json event) ]}))
      else check_required event request_headers required'
  end.

(** The loop over [allowed_headers]. *)
Fixpoint copy_allowed (request_headers headers : gmap string string)
    (allowed : list string) : gmap string string :=
  match allowed with
  | [] => headers
  | allowed_header :: allowed' =>
      match request_headers !! allowed_header with
      | Some v => copy_allowed request_headers (<[allowed_header := v]> headers) allowed'
      | None => copy_allowed request_headers headers allowed'
      end
  end.

(** The body of the [try] of [handler]; [invoke] is the answer of
    [invoke_endpoint_async] to its keyword arguments. *)
Definition route (env : Env) (invoke : gmap string string → Called string)
    (event : Event) : API (string * gmap string string) :=
  parameters ← match pathParameters event with
               | Some parameters => mret parameters
               | None => raise (Unhandled "'pathParameters'")
               end;
  EndpointName ← match parameters !! "EndpointName" with
                 | Some EndpointName => mret EndpointName
                 | None => raise (Unhandled "'EndpointName'")
                 end;
  request_headers ← match headers event with
                    | Some request_headers => mret request_headers
                    | None => raise (Unhandled "'headers'")
                    end;
  _ ← check_required event request_headers required_headers;
  let headers := copy_allowed request_headers ∅ allowed_headers in
  _ ← tell (Logged (LogInfo ("Received event: " +:+ json event)));
  result ← lift (get_next_server env);
  let headers := <["EndpointName" := EndpointName +:+ "-" +:+ server result]> headers in
  _ ← tell (InvokeEndpointAsync headers);
  match invoke headers with
  | Returned response => mret (response, headers)
  | RaisedClientError _ _ text => raise (Unhandled text)
  | RaisedOther text => raise (Unhandled text)
  end.

Definition handler (env : Env) (invoke : gmap string string → Called string)
    (event : Event) : list Effect * Response :=
  if bool_decide (httpMethod event = Some "POST"%string) then
    match route env invoke event with
    | (effects, inr (response, headers)) =>
        (effects, {| statusCode := 200; body := Invoked response headers |})
    | (effects, inl (Balancer e)) =>
        (effects ++ [Logged (LogError ("LoadBalancerError: " +:+ message e))],
         {| statusCode := status_code e; body := Failure (message e) (details e) |})
    | (effects, inl (Unhandled text)) =>
        (effects ++ [Logged (LogError ("Unhandled exception: " +:+ text))],
         {| statusCode := 500; body := InternalServerError text |})
    end
  else ([], {| statusCode := 200; body := Echo |}).

End RouterApi.

(** ** asg-activity-lambda.py: the dimension of a request *)

Module AsgDimension.
Import Scaling.

(** The event of the API, as far as [get_dimensionId] reads it:
    [event.get('path', '')] and the path parameters ([None]: the key is
    missing, null or an empty dict). *)
Record Event := {
  path : option string;
  pathParameters : option (gmap string string)
}.

(** The loop of [get_dimensionId] over the parts of the path. *)
Fixpoint after_keyword (parts : list string) (l : list (nat * string)) : option string :=
  match l with
  | [] => None
  | (i, part) :: l' =>
      if bool_decide (part = "scalableTargetDimensions"%string)
         && bool_decide (i + 1 < length parts)%nat
      then parts !! (i + 1)%nat
      else after_keyword parts l'
  end.

Definition get_dimensionId (event : Event) : string :=
  let path := default ""%string (path event) in
  match pathParameters event ≫= (λ parameters, parameters !! "dimensionId"%string) with
  | Some dimensionId => dimensionId
  | None =>
      let parts := EndpointState.split "/" path in
      default "default-dimension-id"%string (after_keyword parts (enumerate parts))
  end.

End AsgDimension.

(** ** Vocabulary of the statements and sample inputs *)

Module RouterSamples.
Import Router.

(** The cumulative weight of the first [n] backends. *)
Definition cumulative (weights : list Z) (n : nat) : Z := sum (take n weights).

(** The counter collaborator failed during the invocation. *)
Definition counter_failed (env : Env) : Prop :=
  match update_item env with
  | Returned _ => False
  | _ => True
  end.

(** The same invocation with a counter that answers [previous]. *)
Definition with_counter (env : Env) (previous : Z) : Env :=
  {| get_item := get_item env; put_item := put_item env;
     update_item := Returned (Some previous);
     time_ms := time_ms env; uuid4 := uuid4 env |}.

(** A table without configuration and a counter at 7. *)
Definition env_exact : Env :=
  {| get_item := Returned None; put_item := Returned tt;
     update_item := Returned (Some 7);
     time_ms := 1700000000000; uuid4 := "7f3c" |}.

(** The same table when the counter update fails at a clock reading that ends
    in 007 milliseconds. *)
Definition env_degraded : Env :=
  {| get_item := Returned None; put_item := Returned tt;
     update_item := RaisedClientError "ProvisionedThroughputExceededException"
                      "Rate exceeded" "An error occurred";
     time_ms := 1700000000007; uuid4 := "7f3c" |}.

(** A stored configuration whose weights sum to zero. *)
Definition env_zero_weights : Env :=
  {| get_item := Returned (Some {| cfg_servers := Some ["a"; "b"]%string;
                                   cfg_weights := Some [0; 0] |});
     put_item := Returned tt; update_item := Returned (Some 3);
     time_ms := 0; uuid4 := "u" |}.

End RouterSamples.

Module AsgActivitySamples.
Import Scaling AsgActivity.

(** The request a backend gets for a planned instance count. *)
Definition request_of (resourceName variantName : string) (server : string) (n : Z) : Call :=
  UpdateEndpoint (resourceName +:+ "-" +:+ server) variantName n.

(** The scale-down redistribution in the spec's words: walking the counts in
    list order with what remains of the deficit, the first backend whose
    count exceeds it is asked for the difference and the walk stops; a
    backend met before with a count above 0 is asked for 0 and its count is
    taken off the deficit; a backend at 0 gets no request. The plan holds,
    per backend, the requested instance count, if any. *)
Fixpoint drain_plan (deficit : Z) (counts : list Z) : list (option Z) :=
  match counts with
  | [] => []
  | count :: rest =>
      if bool_decide (deficit < count) then
        Some (count - deficit) :: replicate (length rest) None
      else if bool_decide (0 < count) then
        Some 0 :: drain_plan (deficit - count) rest
      else None :: drain_plan deficit rest
  end.

(** The requests of a plan, in list order. *)
Definition plan_calls (resourceName variantName : string) (servers : list string)
    (plan : list (option Z)) : list Call :=
  omap id (zip_with (λ server p, request_of resourceName variantName server <$> p)
             servers plan).

(** The counts once the requests of a plan have taken effect. *)
Definition planned_counts (counts : list Z) (plan : list (option Z)) : list Z :=
  zip_with (λ count p, default count p) counts plan.

(** A control plane that takes every request. *)
Definition accepts (env : Env) : Prop :=
  ∀ endpoint_name variant_name n, sagemaker env endpoint_name variant_name n = Returned tt.

Definition is_put (call : Call) : Prop :=
  match call with PutState _ => True | _ => False end.

Definition requested (call : Call) : option Z :=
  match call with UpdateEndpoint _ _ n => Some n | _ => None end.

Definition sample_state (status : Value) (desired actual lastModified : Z) : Item :=
  list_to_map [
    ("id", VStr "endpoint/pool/variant/AllTraffic");
    ("scalableTargetDimensionId", VStr "endpoint/pool/variant/AllTraffic");
    ("resourceName", VStr "pool");
    ("variantName", VStr "AllTraffic");
    ("dimensionName", VStr "custom-resource:ResourceType:Property");
    ("desiredCapacity", VNum desired);
    ("actualCapacity", VNum actual);
    ("scalingStatus", status);
    ("lastModified", VNum lastModified);
    ("version", VStr "v1")
  ]%string.

Definition sample_config (weights counts : list Z) : ConfigItem :=
  {| servers := Some ["server1"; "server2"; "server3"]%string;
     weights := Some weights;
     current_instance_count := Some counts |}.

Definition sample_env (state : Item) (config : ConfigItem) (now : Z) : Env :=
  {| get_state := Returned (Some state);
     get_config := Returned (Some config);
     put_state := Returned tt;
     sagemaker := λ _ _ _, Returned tt;
     time_ms := now |}.

Definition minutes (n : Z) : Z := n * 60 * 1000.

Definition timeout_reason : Value :=
  VStr "Scaling activity stayed in Pending or InProgress for more than 25 minutes".

(** What a capacity-declare request does to a state that is [Pending] or
    [InProgress]: it applies the [actualCapacity] and the [scalingStatus] it
    carries. *)
Definition patched (bodyData currentState : Item) : Item :=
  let currentState :=
    match bodyData !! "actualCapacity" with
    | Some v => <["actualCapacity" := v]> currentState
    | None => currentState
    end in
  match bodyData !! "scalingStatus" with
  | Some v => <["scalingStatus" := v]> currentState
  | None => currentState
  end.

(** The item [lambda_handler] writes for a state it ends with. *)
Definition stored (env : Env) (dimensionId status : Value) (currentState : Item) : Item :=
  <["lastModified" := VNum (time_ms env)]>
    (<["id" := dimensionId]>
       (if bool_decide (status ≠ Failed)
        then <["failureResaon" := VStr ""]> currentState else currentState)).

Definition GET : Event := {| httpMethod := Some "GET"%string; body := NoBody |}.

Definition PATCH (bodyData : Item) : Event :=
  {| httpMethod := Some "PATCH"%string; body := JSONBody bodyData |}.

(** 2023-11-14 22:13:20 UTC. *)
Definition now : Z := 1700000000000.

(** A pool of three backends with instances on two of them, asked to grow
    from 3 to 4. *)
Definition state_up : Item := sample_state Pending 4 3 now.
Definition config_up : ConfigItem := sample_config [1; 2; 0] [1; 2; 0].
Definition env_up : Env := sample_env state_up config_up now.

(** A pool of three backends with 3, 0 and 4 instances, asked to shrink from
    7 to 2. *)
Definition state_down : Item := sample_state Pending 2 7 now.
Definition config_down : ConfigItem := sample_config [3; 0; 4] [3; 0; 4].
Definition env_down : Env := sample_env state_down config_down now.

(** A state that has been [Pending] for 26 minutes, one instance short. *)
Definition state_stale : Item := sample_state Pending 2 1 (now - minutes 26).
Definition env_stale : Env := sample_env state_stale (sample_config [1; 0; 0] [1; 0; 0]) now.

(** A state that is [InProgress], written a minute ago, and a request that
    declares a desired capacity of 5. *)
Definition state_in_progress : Item := sample_state InProgress 2 1 (now - minutes 1).
Definition env_in_progress : Env :=
  sample_env state_in_progress (sample_config [1; 0; 0] [1; 0; 0]) now.
Definition declare_5 : Event := PATCH {[ "desiredCapacity"%string := VNum 5 ]}.

End AsgActivitySamples.

Module EndpointStateSamples.
Import Scaling EndpointState.

(** The weights in proportion to the counts: each of the first [n] counts
    divided by the greatest common divisor of all of them. *)
Definition proportional (counts : list Z) (n : nat) : list Z :=
  (λ count, count ÷ gcd counts) <$> take n counts.

(** The counts whose quotients by their greatest common divisor are within
    [2^53], where the division of the rebalancer, which goes through a
    double, is exact. *)
Definition exactly_divided (counts : list Z) : Prop :=
  Forall (λ count, Z.abs count ≤ 2 ^ 53 * gcd counts) counts.

(** A weight vector that sums to 0 gets 1 as its first weight. *)
Definition force_first (weights : list Z) : list Z :=
  if bool_decide (sum weights = 0) then <[0%nat := 1]> weights else weights.

(** The item [write_state] puts for a state. *)
Definition stored (env : Env) (currentState : Item) : Item :=
  <["lastModified" := VNum (time_ms env)]>
    (<["id" := VStr (dimensionId env)]> currentState).

Definition sample_state (status : Value) (desired actual lastModified : Z) : Item :=
  list_to_map [
    ("id", VStr "endpoint/pool/variant/AllTraffic");
    ("scalableTargetDimensionId", VStr "endpoint/pool/variant/AllTraffic");
    ("resourceName", VStr "pool");
    ("variantName", VStr "AllTraffic");
    ("dimensionName", VStr "custom-resource:ResourceType:Property");
    ("desiredCapacity", VNum desired);
    ("actualCapacity", VNum actual);
    ("scalingStatus", status);
    ("lastModified", VNum lastModified);
    ("version", VStr "v1")
  ]%string.

Definition sample_servers : list string := ["server1"; "server2"; "server3"]%string.

Definition sample_config (weights counts : list Z) : ConfigItem :=
  {| servers := Some sample_servers;
     weights := Some weights;
     current_instance_count := Some counts |}.

Definition sample_env (state : Item) (config : ConfigItem) (now : Z) : Env :=
  {| get_config := Returned (Some config);
     get_state := Returned (Some state);
     put_config := Returned tt;
     put_state := Returned tt;
     sagemaker := λ _ _ _, Returned tt;
     time_ms := now;
     dimensionId := "endpoint/pool/variant/AllTraffic" |}.

(** The event that reports [count] instances in service on [endpoint_name]. *)
Definition in_service_event (endpoint_name : string) (count : Z) : Detail :=
  {| EndpointName := Some endpoint_name;
     EndpointStatus := Some "IN_SERVICE"%string;
     ProductionVariants := Some [Some count] |}.

Definition now : Z := 1700000000000.

(** A pool that is to reach 18 instances, with 6 and 3 of them in service and
    weights 5, 3, 2, when the second backend reports its 9. *)
Definition state_converging : Item := sample_state InProgress 18 9 (now - 60000).
Definition env_converging : Env :=
  sample_env state_converging (sample_config [5; 3; 2] [6; 0; 3]) now.
Definition event_converging : Detail := in_service_event "pool-server2" 9.

(** A pool with weights 5, 3, 2 that is to reach 0 instances, when its first
    backend, the last one with an instance, reports 0. *)
Definition state_emptying : Item := sample_state InProgress 0 1 (now - 60000).
Definition env_emptying : Env :=
  sample_env state_emptying (sample_config [5; 3; 2] [1; 0; 0]) now.
Definition event_emptying : Detail := in_service_event "pool-server1" 0.

(** The table after that event: the state is [Successful] at 18 instances
    and the weights are 2, 3, 1; and the next invocation, a second later. *)
Definition state_converged : Item :=
  stored env_converging
    (<["scalingStatus" := Successful]> (<["actualCapacity" := VNum 18]> state_converging)).
Definition env_converged : Env :=
  sample_env state_converged (sample_config [2; 3; 1] [6; 9; 3]) (now + 1000).

End EndpointStateSamples.

(** ** Vocabulary and sample inputs of the further properties *)

Module RouterHandlerSamples.
Import Router RouterApi.

(** The counter value an invocation works with. *)
Definition counter_value (env : Env) : Z :=
  match update_item env with
  | Returned (Some previous) => previous
  | Returned None => 0
  | _ => time_ms env `mod` 1000
  end.

(** The configurations [update_server_config] takes. *)
Definition acceptable (servers : list string) (weights : list Z) : Prop :=
  servers ≠ [] ∧ weights ≠ [] ∧ length servers = length weights
  ∧ Forall (λ weight, 0 ≤ weight) weights.

(** A table that holds the configuration of two backends with weights 0 and
    4, and a counter at 9. *)
Definition env_updated : Env :=
  {| get_item := Returned (Some (item_of ["a"; "b"]%string [0; 4]));
     put_item := Returned tt; update_item := Returned (Some 9);
     time_ms := 0; uuid4 := "u" |}.

(** A POST for the pool with the required header, a header [EndpointName]
    of its own and a header that is not allowed. *)
Definition event_post : Event :=
  {| httpMethod := Some "POST"%string;
     pathParameters := Some {[ "EndpointName"%string := "pool"%string ]};
     headers := Some (<["InputLocation"%string := "s3://bucket/payload.csv"%string]>
                        (<["EndpointName"%string := "other"%string]>
                           {[ "X-Trace"%string := "1"%string ]}));
     json := "{}" |}.

(** A runtime that takes every invocation. *)
Definition accepting : gmap string string → Called string := λ _, Returned "ok"%string.

End RouterHandlerSamples.

Module AsgActivityHandlerSamples.
Import Scaling AsgActivity AsgActivitySamples.

(** A request to the control plane. *)
Definition is_request (call : Call) : Prop :=
  match call with UpdateEndpoint _ _ _ => True | _ => False end.

(** A call the control plane has taken. *)
Definition accepted (env : Env) (call : Call) : Prop :=
  match call with
  | UpdateEndpoint endpoint_name variant_name n =>
      sagemaker env endpoint_name variant_name n = Returned tt
  | _ => True
  end.

(** A computation that only issues requests to the control plane and, when
    it returns, has seen all of them taken. *)
Definition requests_only {A} (env : Env) (m : M A) : Prop :=
  Forall is_request (emitted m)
  ∧ ∀ a, outcome m = inr a → Forall (accepted env) (emitted m).

(** The plan of a scale-down that takes the whole pool: 0 for each backend
    that has instances. *)
Definition drain_all (counts : list Z) : list (option Z) :=
  (λ count, if bool_decide (0 < count) then Some 0 else None) <$> counts.

(** A state at rest with 3 instances of 3, and a request that declares a
    desired capacity of 4. *)
Definition state_idle : Item := sample_state Successful 3 3 now.
Definition env_idle : Env := sample_env state_idle config_up now.
Definition declare_4 : Event := PATCH {[ "desiredCapacity"%string := VNum 4 ]}.

(** The state the declaration leaves, before it is written. *)
Definition state_declared : Item :=
  <["scalingStatus" := Pending]> (<["desiredCapacity" := VNum 4]> state_idle).

(** A state at rest that has drifted: 2 instances desired, 3 counted, last
    written 26 minutes ago. *)
Definition state_drifted : Item := sample_state Successful 2 3 (now - minutes 26).
Definition env_drifted : Env := sample_env state_drifted config_up now.

(** A pool of three backends with 3, 0 and 4 instances, asked to go from 7
    to none. *)
Definition state_to_zero : Item := sample_state Pending 0 7 now.
Definition env_to_zero : Env := sample_env state_to_zero config_down now.

(** The same invocation on a table that answers [put] to the put of the
    state. *)
Definition with_put (env : Env) (put : Called unit) : Env :=
  {| get_state := get_state env; get_config := get_config env;
     put_state := put;
     sagemaker := sagemaker env; time_ms := time_ms env |}.

(** A table that takes no put of the state. *)
Definition without_put (env : Env) : Env := with_put env (RaisedOther "put_item failed").

End AsgActivityHandlerSamples.

Module Names.

(** A string without the separator. *)
Fixpoint free_of (sep : ascii) (s : string) : Prop :=
  match s with
  | EmptyString => True
  | String c rest => c ≠ sep ∧ free_of sep rest
  end.

(** [sep.join(parts)] for a separator of one character. *)
Fixpoint join (sep : ascii) (parts : list string) : string :=
  match parts with
  | [] => EmptyString
  | [part] => part
  | part :: parts' => part +:+ String sep (join sep parts')
  end.

End Names.

Module EndpointStateHandlerSamples.
Import Scaling EndpointState EndpointStateSamples.

(** A pool with 3, 0 and 4 instances that is to shrink to 2, when its first
    backend reports its 3 instances in service. *)
Definition state_shrinking : Item := sample_state InProgress 2 7 (now - 60000).
Definition env_shrinking : Env :=
  sample_env state_shrinking (sample_config [3; 0; 4] [3; 0; 4]) now.
Definition event_shrinking : Detail := in_service_event "pool-server1" 3.

(** The state that event leaves. *)
Definition state_shrunk : Item :=
  stored env_shrinking
    (<["scalingStatus" := InProgress]> (<["actualCapacity" := VNum 7]> state_shrinking)).

(** What the branch of an [IN_SERVICE] event can do, as a computation [r]:
    nothing, on an exception before the first call; or, for the backend at
    [index] that reports [count] instances, at most one request, for one
    instance less on the endpoint of the event, then the put of the
    configuration with that count and weights that are the old ones or
    rebalanced, then, when the put went through, the write of the state. *)
Definition in_service_calls (env : Env) (detail : Detail) (endpoint_name : string)
    (servers : list string) (weights0 counts0 : list Z) (currentState : Item)
    (r : M unit) : Prop :=
  (emitted r = [] ∧ ∀ a, outcome r ≠ inr a)
  ∨ ∃ index count weights' status (requests : list Call),
      (index < length counts0)%nat
      ∧ (∃ variants, ProductionVariants detail = Some variants
                     ∧ variants !! 0%nat = Some (Some count))
      ∧ (requests = []
         ∨ ∃ variantName, 0 < count
             ∧ requests = [UpdateEndpoint endpoint_name variantName (count - 1)])
      ∧ (weights' = weights0
         ∨ outcome (rebalance (<[index := count]> counts0) weights0) = inr weights')
      ∧ let counts := <[index := count]> counts0 in
        let config := {| Scaling.servers := Some servers; Scaling.weights := Some weights';
                         Scaling.current_instance_count := Some counts |} in
        let item := stored env (<["scalingStatus" := status]>
                                  (<["actualCapacity" := VNum (sum counts)]> currentState)) in
        (emitted r = requests ∧ ∀ a, outcome r ≠ inr a)
        ∨ (emitted r = requests ++ [PutConfig config] ∧ put_config env ≠ Returned tt
           ∧ ∀ a, outcome r ≠ inr a)
        ∨ (r = (requests ++ [PutConfig config; PutState item], inr tt)
           ∧ put_config env = Returned tt).

End EndpointStateHandlerSamples.

(** * Properties *)

(** ** The effect monad *)

Section EffFacts.
Context {W E : Type}.

Lemma bind_inr {A B} (m : Eff W E A) (f : A → Eff W E B) w a :
  m = (w, inr a) → m ≫= f = ((w ++ (f a).1), (f a).2).
Proof. intros ->. unfold mbind, eff_bind. by destruct (f a). Qed.

Lemma bind_inl {A B} (m : Eff W E A) (f : A → Eff W E B) w e :
  m = (w, inl e) → m ≫= f = (w, inl e).
Proof. by intros ->. Qed.

Lemma bind_ret {A B} (a : A) (f : A → Eff W E B) : mret a ≫= f = f a.
Proof. unfold mret, eff_ret, mbind, eff_bind. by destruct (f a). Qed.

Lemma bind_raise {A B} (e : E) (f : A → Eff W E B) : raise e ≫= f = raise e.
Proof. done. Qed.

Lemma bind_assoc {A B C} (m : Eff W E A) (f : A → Eff W E B) (g : B → Eff W E C) :
  (m ≫= f) ≫= g = m ≫= (λ a, f a ≫= g).
Proof.
  destruct m as [w [e|a]]; unfold mbind, eff_bind; simpl; [done|].
  destruct (f a) as [w' [e|b]]; simpl; [done|].
  destruct (g b) as [w'' r]. by rewrite app_assoc.
Qed.

Lemma tell_bind {B} (w : W) (f : unit → Eff W E B) :
  tell w ≫= f = (w :: (f tt).1, (f tt).2).
Proof. unfold tell, mbind, eff_bind. by destruct (f tt). Qed.

Lemma emitted_bind {A B} (m : Eff W E A) (f : A → Eff W E B) :
  emitted (m ≫= f)
    = emitted m ++ match outcome m with
                   | inr a => emitted (f a)
                   | inl _ => []
                   end.
Proof.
  destruct m as [w [e|a]]; unfold emitted, outcome, mbind, eff_bind; simpl.
  - by rewrite app_nil_r.
  - by destruct (f a).
Qed.
Lemma bind_ext {A B} (m : Eff W E A) (f g : A → Eff W E B) :
  (∀ a, f a = g a) → m ≫= f = m ≫= g.
Proof. intros Hfg. destruct m as [w [e|a]]; [done|]. unfold mbind, eff_bind. by rewrite Hfg. Qed.

End EffFacts.

Lemma sum_cons (x : Z) (l : list Z) : sum (x :: l) = x + sum l.
Proof. reflexivity. Qed.

Lemma sum_app (l k : list Z) : sum (l ++ k) = sum l + sum k.
Proof. unfold sum. induction l as [|x l IH]; simpl; lia. Qed.

Lemma sum_zero_iff (l : list Z) :
  Forall (λ x, 0 ≤ x) l → (sum l = 0 ↔ Forall (λ x, x = 0) l).
Proof.
  unfold sum. induction 1 as [|x l Hx Hl IH]; simpl.
  - split; [constructor | done].
  - assert (0 ≤ foldr Z.add 0 l)
      by (clear -Hl; induction Hl; simpl; lia).
    split.
    + intros Hs. constructor; [lia|]. apply IH. lia.
    + intros Hall. inversion Hall; subst. apply IH in H3. lia.
Qed.

(** ** router-lambda.py *)

Module RouterFacts.
Import Router RouterSamples.

Lemma cumulative_S weights n w :
  weights !! n = Some w → cumulative weights (S n) = cumulative weights n + w.
Proof.
  unfold cumulative. intros Hn.
  rewrite (take_S_r _ _ _ Hn), sum_app. unfold sum. simpl. lia.
Qed.

Lemma cumulative_all weights : cumulative weights (length weights) = sum weights.
Proof. unfold cumulative. by rewrite firstn_all. Qed.

(** Where the loop returns: at the first index whose cumulative weight
    reaches [position]. *)
Lemma walk_Some position cum l i j :
  walk position cum (enumerate_from i l) = Some j →
  ∃ k, j = (i + k)%nat ∧ (k < length l)%nat
       ∧ position ≤ cum + sum (take (S k) l)
       ∧ ∀ k', (k' < k)%nat → cum + sum (take (S k') l) < position.
Proof.
  revert cum i. induction l as [|w l IH]; intros cum i; simpl; [done|].
  case_bool_decide as Hle.
  - intros [= <-]. exists 0%nat. rewrite take_0. unfold sum. simpl.
    repeat split; [lia | lia | lia | intros; lia].
  - intros Hw. destruct (IH _ _ Hw) as (k & -> & Hk & Hpos & Hbefore).
    exists (S k). repeat split; [lia | lia | |].
    + change (sum (take (S (S k)) (w :: l))) with (w + sum (take (S k) l)). lia.
    + intros [|k'] Hlt.
      * rewrite take_0. unfold sum. simpl. lia.
      * change (sum (take (S (S k')) (w :: l))) with (w + sum (take (S k') l)).
        specialize (Hbefore k'). lia.
Qed.

(** The loop returns whenever [position] lies in the range the weights
    cover. *)
Lemma walk_is_Some position cum l i :
  cum < position ≤ cum + sum l →
  is_Some (walk position cum (enumerate_from i l)).
Proof.
  revert cum i. induction l as [|w l IH]; intros cum i; unfold sum; simpl.
  - lia.
  - intros Hrange. case_bool_decide; [by eexists|].
    apply IH. unfold sum. lia.
Qed.

Lemma walk_first weights position i :
  walk position 0 (enumerate weights) = Some i →
  (i < length weights)%nat
  ∧ position ≤ cumulative weights (S i)
  ∧ ∀ j, (j < i)%nat → cumulative weights (S j) < position.
Proof.
  intros Hw. apply walk_Some in Hw as (k & -> & Hk & Hpos & Hbefore).
  unfold cumulative. simpl. split; [done|]. split; [lia|].
  intros j Hj. specialize (Hbefore j Hj). lia.
Qed.

(** The counter value the selector works with is never missing: both
    failure paths of the counter carry a fallback. *)
Lemma counter_or_fallback env :
  ∃ log n, try_except (get_and_increment_counter env) (λ e,
      match details e !! "fallback_count"%string with
      | Some (DInt n) =>
          _ ← tell (LogInfo ("Using fallback counter: " +:+ pretty n));
          mret n
      | Some _ => failed_to_determine "unsupported operand type(s) for %"
      | None => raise e
      end) = (log, inr n)
    ∧ n = match update_item env with
          | Returned (Some previous) => previous
          | Returned None => 0
          | _ => time_ms env `mod` 1000
          end
    ∧ (counter_failed env →
       LogInfo ("Using fallback counter: " +:+ pretty n) ∈ log).
Proof.
  unfold get_and_increment_counter, counter_failed.
  destruct (update_item env) as [[previous|]|code msg text|text].
  - by eexists _, _.
  - by eexists _, _.
  - eexists _, _. split; [|split].
    + cbn. rewrite lookup_insert_ne by done. rewrite lookup_insert_ne by done.
      rewrite lookup_singleton_eq. cbn. reflexivity.
    + done.
    + intros _. set_solver.
  - eexists _, _. split; [|split].
    + cbn. rewrite lookup_insert_ne by done.
      rewrite lookup_singleton_eq. cbn. reflexivity.
    + done.
    + intros _. set_solver.
Qed.

Lemma get_server_config_with_counter env previous :
  get_server_config (with_counter env previous) = get_server_config env.
Proof. done. Qed.

(** [get_next_server] is [select_server] on the stored configuration and on
    the counter value, exact or fallback. *)
Lemma get_next_server_selects env log servers weights :
  get_server_config env = (log, inr (servers, weights)) →
  ∃ log' n,
    get_next_server env =
      (log ++ log' ++ (select_server servers weights n (uuid4 env)).1,
       (select_server servers weights n (uuid4 env)).2)
    ∧ n = match update_item env with
          | Returned (Some previous) => previous
          | Returned None => 0
          | _ => time_ms env `mod` 1000
          end
    ∧ (counter_failed env →
       LogInfo ("Using fallback counter: " +:+ pretty n) ∈ log').
Proof.
  intros Hcfg. destruct (counter_or_fallback env) as (log' & n & Hctr & Hn & Hlog).
  exists log', n. split; [|done].
  unfold get_next_server. rewrite (bind_inr _ _ _ _ Hcfg). cbn beta iota.
  rewrite (bind_inr _ _ _ _ Hctr). simpl. by rewrite app_assoc.
Qed.

Lemma get_next_server_config_error env log e :
  get_server_config env = (log, inl e) → get_next_server env = (log, inl e).
Proof. intros Hcfg. unfold get_next_server. by rewrite (bind_inl _ _ _ _ Hcfg). Qed.

(** C10: with a positive total weight, equally long lists and a non-negative
    counter value [c], the position [(c mod total) + 1] lies in [1, total],
    the cumulative weight of the whole list is the total, and the loop of the
    selector returns a backend: the result carries no warning and nothing is
    logged, so the trailing branch on [servers[0]] is not reached. *)
Theorem select_server_returns_in_loop servers weights c uuid :
  0 < sum weights → 0 ≤ c → length servers = length weights →
  let position := c `mod` sum weights + 1 in
  1 ≤ position ≤ sum weights
  ∧ cumulative weights (length weights) = sum weights
  ∧ ∃ i s, walk position 0 (enumerate weights) = Some i
      ∧ servers !! i = Some s
      ∧ select_server servers weights c uuid =
          ([], inr {| server := s; request_id := uuid;
                      request_count := c + 1; warning := None |}).
Proof.
  intros Htotal Hc Hlen position.
  assert (1 ≤ position ≤ sum weights) as Hpos.
  { unfold position. pose proof (Z.mod_pos_bound c (sum weights) Htotal). lia. }
  split; [done|]. split; [apply cumulative_all|].
  destruct (walk_is_Some position 0 weights 0) as [i Hi]; [lia|].
  fold (enumerate weights) in Hi.
  destruct (walk_first _ _ _ Hi) as (Hlt & _ & _).
  destruct (lookup_lt_is_Some_2 servers i) as [s Hs]; [lia|].
  exists i, s. split; [done|]. split; [done|].
  unfold select_server. rewrite bool_decide_eq_false_2 by lia.
  fold position. rewrite Hi. unfold subscript. rewrite Hs. reflexivity.
Qed.

Lemma select_server_returns_in_loop_witness :
  ∃ i s, walk (7 `mod` sum [5; 3; 2] + 1) 0 (enumerate [5; 3; 2]) = Some i
    ∧ ["a"; "b"; "c"]%string !! i = Some s
    ∧ select_server ["a"; "b"; "c"]%string [5; 3; 2] 7 "u" =
        ([], inr {| server := s; request_id := "u"%string;
                    request_count := 7 + 1; warning := None |}).
Proof.
  apply (select_server_returns_in_loop ["a"; "b"; "c"]%string [5; 3; 2] 7 "u").
  - vm_compute. reflexivity.
  - lia.
  - reflexivity.
Defined.

(** Whatever [get_next_server] returns, it returns from inside the loop. *)
Lemma get_next_server_never_warns env sel :
  outcome (get_next_server env) = inr sel → warning sel = None.
Proof.
  destruct (get_server_config env) as [log [e|[servers weights]]] eqn:Hcfg.
  { by rewrite (get_next_server_config_error _ _ _ Hcfg). }
  destruct (get_next_server_selects _ _ _ _ Hcfg) as (log' & n & -> & _ & _).
  unfold outcome. simpl.
  assert (length servers = length weights) as Hlen.
  { revert Hcfg. unfold get_server_config.
    destruct (get_item env) as [[config|]|? ? ?|?]; try done.
    - destruct (_ || _) eqn:Hvalid; [done|]. intros [= _ <- <-].
      apply orb_false_elim in Hvalid as [_ Hvalid].
      apply negb_false_iff in Hvalid. by apply bool_decide_eq_true in Hvalid.
    - destruct (put_item env); try done. by intros [= _ <- <-]. }
  unfold select_server. case_bool_decide as Htotal; [done|].
  destruct (walk_is_Some (n `mod` sum weights + 1) 0 weights 0) as [i Hi].
  { pose proof (Z.mod_pos_bound n (sum weights)). lia. }
  fold (enumerate weights) in Hi. rewrite Hi.
  destruct (walk_first _ _ _ Hi) as (Hlt & _ & _).
  destruct (lookup_lt_is_Some_2 servers i) as [s Hs]; [lia|].
  unfold subscript. rewrite Hs. simpl. by intros [= <-].
Qed.

(** C9: when the weights sum to a total that is not positive, the selector
    raises "Invalid server weights configuration" for every server list and
    every counter value, and [get_next_server] on a stored configuration with
    these weights never returns a selection: it raises that error, or rejects
    the configuration when it reads it. *)
Theorem nonpositive_total_is_invalid weights :
  sum weights ≤ 0 →
  (∀ servers c uuid,
     select_server servers weights c uuid =
       ([], inl (mkLoadBalancerError "Invalid server weights configuration" 500
                   {[ "weights"%string := DInts weights;
                      "total_weight"%string := DInt (sum weights) ]})))
  ∧ (∀ env config,
       get_item env = Returned (Some config) →
       cfg_weights config = Some weights →
       ∃ e, outcome (get_next_server env) = inl e
            ∧ status_code e = 500
            ∧ (message e = "Invalid server weights configuration"%string
               ∨ message e = "Failed to retrieve server configuration"%string)).
Proof.
  intros Htotal.
  assert (∀ servers c uuid,
     select_server servers weights c uuid =
       ([], inl (mkLoadBalancerError "Invalid server weights configuration" 500
                   {[ "weights"%string := DInts weights;
                      "total_weight"%string := DInt (sum weights) ]}))) as Hsel.
  { intros. unfold select_server. by rewrite bool_decide_eq_true_2. }
  split; [done|].
  intros env config Hget Hweights.
  destruct (get_server_config env) as [log [e|[servers weights']]] eqn:Hcfg.
  - rewrite (get_next_server_config_error _ _ _ Hcfg).
    exists e. split; [done|].
    revert Hcfg. unfold get_server_config. rewrite Hget, Hweights. simpl.
    destruct (_ || _); [|done]. intros [= _ <-]. simpl. auto.
  - destruct (get_next_server_selects _ _ _ _ Hcfg) as (log' & n & -> & _ & _).
    assert (weights' = weights) as ->.
    { revert Hcfg. unfold get_server_config. rewrite Hget, Hweights. simpl.
      destruct (_ || _); [done|]. by intros [= _ _ <-]. }
    rewrite Hsel. eexists. split; [reflexivity|]. simpl. auto.
Qed.

Lemma nonpositive_total_is_invalid_witness :
  ∃ e, outcome (get_next_server env_zero_weights) = inl e
       ∧ status_code e = 500
       ∧ (message e = "Invalid server weights configuration"%string
          ∨ message e = "Failed to retrieve server configuration"%string).
Proof.
  apply (proj2 (nonpositive_total_is_invalid [0; 0] ltac:(vm_compute; discriminate))
           env_zero_weights _ eq_refl eq_refl).
Defined.

(** C1: with the weights [5, 3, 2] and a counter value [c] in [0, 9], the
    total is 10, the position is [(c mod 10) + 1], the loop returns the first
    index whose cumulative weight reaches the position, which is backend 0
    for [c] in [0, 4], backend 1 in [5, 7] and backend 2 in [8, 9]; the
    selector returns that backend with request count [c + 1]; and over the
    ten counter values each backend is chosen as often as its weight. *)
Theorem weights_5_3_2_partition s0 s1 s2 c uuid :
  0 ≤ c ≤ 9 →
  let weights := [5; 3; 2] in
  let position := c `mod` sum weights + 1 in
  let i := if bool_decide (c ≤ 4) then 0%nat
           else if bool_decide (c ≤ 7) then 1%nat else 2%nat in
  sum weights = 10
  ∧ walk position 0 (enumerate weights) = Some i
  ∧ position ≤ cumulative weights (S i)
  ∧ (∀ j, (j < i)%nat → cumulative weights (S j) < position)
  ∧ select_server [s0; s1; s2] weights c uuid =
      ([], inr {| server := if bool_decide (c ≤ 4) then s0
                            else if bool_decide (c ≤ 7) then s1 else s2;
                  request_id := uuid; request_count := c + 1; warning := None |})
  ∧ ∀ k w, weights !! k = Some w →
      length (filter (λ c', walk (c' `mod` sum weights + 1) 0 (enumerate weights) = Some k)
                (seqZ 0 10)) = Z.to_nat w.
Proof.
  intros Hc weights position i.
  assert (walk position 0 (enumerate weights) = Some i) as Hwalk.
  { assert (c = 0 ∨ c = 1 ∨ c = 2 ∨ c = 3 ∨ c = 4 ∨ c = 5 ∨ c = 6 ∨ c = 7
            ∨ c = 8 ∨ c = 9) as Hcases by lia.
    subst position i. by repeat destruct Hcases as [-> | Hcases]; [..|subst c]. }
  split; [done|]. split; [done|].
  destruct (walk_first _ _ _ Hwalk) as (_ & Hreach & Hfirst).
  split; [done|]. split; [done|]. split.
  - unfold select_server. change (sum weights) with 10. fold weights.
    change (bool_decide (10 ≤ 0)) with false. cbv iota.
    change (c `mod` 10 + 1) with position. rewrite Hwalk. subst i.
    by repeat case_bool_decide.
  - intros [|[|[|k]]] w; simpl; intros [= <-]; by vm_compute.
Qed.

Lemma weights_5_3_2_partition_witness :
  select_server ["server1"; "server2"; "server3"]%string [5; 3; 2] 6 "u" =
    ([], inr {| server := "server2"; request_id := "u"; request_count := 7;
                warning := None |}).
Proof.
  apply (weights_5_3_2_partition "server1" "server2" "server3" 6 "u"
           ltac:(lia)).
Defined.

(** C6, as the code has it: when the counter collaborator fails, the
    selector does not fail for it but goes on with the clock's milliseconds
    modulo 1000, a value in [0, 999], and decides exactly as an invocation
    whose counter answered that value; the routing decision is that of
    [select_server] on the stored configuration, and what tells the degraded
    path apart is a line of the log, not the decision. *)
Theorem counter_failure_uses_fallback env :
  counter_failed env →
  let fallback := time_ms env `mod` 1000 in
  0 ≤ fallback < 1000
  ∧ outcome (get_next_server env) = outcome (get_next_server (with_counter env fallback))
  ∧ ∀ log servers weights,
      get_server_config env = (log, inr (servers, weights)) →
      outcome (get_next_server env)
        = outcome (select_server servers weights fallback (uuid4 env))
      ∧ LogInfo ("Using fallback counter: " +:+ pretty fallback)
          ∈ emitted (get_next_server env).
Proof.
  intros Hfailed fallback.
  split; [apply Z.mod_pos_bound; lia|].
  assert (match update_item env with
          | Returned (Some previous) => previous
          | Returned None => 0
          | _ => time_ms env `mod` 1000
          end = fallback) as Hfb.
  { unfold counter_failed in Hfailed. by destruct (update_item env) as [[?|]| |]. }
  split.
  - destruct (get_server_config env) as [log [e|[servers weights]]] eqn:Hcfg.
    + rewrite (get_next_server_config_error _ _ _ Hcfg).
      by rewrite (get_next_server_config_error (with_counter env fallback) _ _ Hcfg).
    + destruct (get_next_server_selects _ _ _ _ Hcfg) as (log' & n & -> & -> & _).
      destruct (get_next_server_selects (with_counter env fallback) _ _ _ Hcfg)
        as (log'' & n' & -> & -> & _).
      unfold outcome. simpl. by rewrite Hfb.
  - intros log servers weights Hcfg.
    destruct (get_next_server_selects _ _ _ _ Hcfg) as (log' & n & -> & Hn & Hlog).
    rewrite Hfb in Hn. subst n. split; [done|].
    unfold emitted. simpl. specialize (Hlog Hfailed). set_solver.
Qed.

Lemma counter_failure_uses_fallback_witness :
  outcome (get_next_server env_degraded)
    = outcome (get_next_server (with_counter env_degraded (time_ms env_degraded `mod` 1000))).
Proof.
  apply (counter_failure_uses_fallback env_degraded I).
Defined.

(** C6, as the spec has it, fails: an invocation whose counter failed at a
    clock reading ending in 007 and one whose counter answered 7 return the
    same routing decision, without any tag. *)
Lemma degraded_selection_not_tagged :
  counter_failed env_degraded
  ∧ ¬ counter_failed env_exact
  ∧ outcome (get_next_server env_degraded) = outcome (get_next_server env_exact)
  ∧ outcome (get_next_server env_degraded)
      = inr {| server := "server2"; request_id := "7f3c"; request_count := 8;
               warning := None |}.
Proof.
  split; [exact I|]. split; [intros []|]. split; by vm_compute.
Qed.

End RouterFacts.

(** ** What the two scaling Lambdas share *)

Module ScalingFacts.
Import Scaling.

Lemma getitem_Some (d : Item) key v : d !! key = Some v → getitem d key = mret v.
Proof. unfold getitem. by intros ->. Qed.

Lemma getitem_None (d : Item) key : d !! key = None → getitem d key = raise (KeyError key).
Proof. unfold getitem. by intros ->. Qed.

Section Cases.
Context {B : Type} (P : M B → Prop).

Lemma getitem_case (d : Item) key (f : Value → M B) :
  P (raise (KeyError key)) → (∀ v, d !! key = Some v → P (f v)) →
  P (getitem d key ≫= f).
Proof.
  intros Hraise Hret. unfold getitem. destruct (d !! key) as [v|]; [|done].
  rewrite bind_ret. by apply Hret.
Qed.

Lemma number_case v (f : Z → M B) :
  P (raise TypeError) → (∀ n, v = VNum n → P (f n)) → P (number v ≫= f).
Proof.
  intros Htype Hret. destruct v as [n|?]; [|done]. unfold number. rewrite bind_ret. by apply Hret.
Qed.

Lemma text_case v (f : string → M B) :
  P (raise TypeError) → (∀ s, v = VStr s → P (f s)) → P (text v ≫= f).
Proof.
  intros Htype Hret. destruct v as [?|s]; [done|]. unfold text. rewrite bind_ret. by apply Hret.
Qed.
End Cases.

Lemma index_from_first {A} `{EqDecision A} (l : list A) (x : A) i k :
  l !! k = Some x → (∀ j, (j < k)%nat → l !! j ≠ Some x) →
  index_from i l x = Some (i + k)%nat.
Proof.
  revert i k. induction l as [|y l IH]; intros i k Hk Hfirst; [done|].
  simpl. destruct k as [|k].
  - injection Hk as ->. rewrite bool_decide_eq_true_2 by done. f_equal. lia.
  - rewrite bool_decide_eq_false_2.
    + rewrite (IH (S i) k); [f_equal; lia | done |].
      intros j Hj. apply (Hfirst (S j)). lia.
    + intros ->. by apply (Hfirst 0%nat); [lia|].
Qed.

Lemma index_from_None {A} `{EqDecision A} (l : list A) (x : A) i :
  x ∉ l → index_from i l x = None.
Proof.
  revert i. induction l as [|y l IH]; intros i Hx; [done|]. simpl.
  rewrite bool_decide_eq_false_2 by set_solver. apply IH. set_solver.
Qed.

End ScalingFacts.

(** ** asg-activity-lambda.py *)

Module AsgActivityFacts.
Import Scaling ScalingFacts AsgActivity AsgActivitySamples.

Lemma json_dumps_case {B} (P : M B → Prop) v (r : M B) :
  P (raise TypeError) → P r → P (AsgActivity.json_dumps v ≫= λ _, r).
Proof. intros Hraise Hret. destruct v; [done|]. unfold AsgActivity.json_dumps. by rewrite bind_ret. Qed.

(** *** The plan of a scale-down *)

Lemma planned_counts_cons count counts p plan :
  planned_counts (count :: counts) (p :: plan)
    = default count p :: planned_counts counts plan.
Proof. reflexivity. Qed.

Lemma planned_counts_no_request counts :
  planned_counts counts (replicate (length counts) None) = counts.
Proof. unfold planned_counts. induction counts; simpl; by f_equal. Qed.

Lemma drain_plan_length deficit counts : length (drain_plan deficit counts) = length counts.
Proof.
  revert deficit. induction counts as [|count rest IH]; intros deficit; [done|].
  simpl. repeat case_bool_decide; simpl; by rewrite ?length_replicate, ?IH.
Qed.

Lemma drain_plan_nonneg deficit counts :
  0 ≤ deficit → Forall (λ p, ∀ n, p = Some n → 0 ≤ n) (drain_plan deficit counts).
Proof.
  revert deficit. induction counts as [|count rest IH]; intros deficit Hd; simpl.
  - constructor.
  - repeat case_bool_decide.
    + constructor; [intros n [= <-]; lia|].
      by apply Forall_replicate.
    + constructor; [intros n [= <-]; lia|]. apply IH. lia.
    + constructor; [done|]. by apply IH.
Qed.

Lemma drain_plan_absorbs deficit counts :
  0 ≤ deficit ≤ sum counts → Forall (λ count, 0 ≤ count) counts →
  sum (planned_counts counts (drain_plan deficit counts)) = sum counts - deficit.
Proof.
  revert deficit. induction counts as [|count rest IH]; intros deficit Hd Hcounts.
  - unfold sum in *. simpl in *. lia.
  - inversion Hcounts as [|? ? Hcount Hrest]; subst.
    rewrite sum_cons in *.
    cbn [drain_plan]. repeat case_bool_decide; rewrite planned_counts_cons, sum_cons.
    + rewrite planned_counts_no_request. simpl. lia.
    + rewrite IH; [simpl; lia | lia | done].
    + rewrite IH; [simpl; lia | lia | done].
Qed.

Lemma drain_plan_skips_zero deficit counts i :
  0 ≤ deficit → counts !! i = Some 0 → drain_plan deficit counts !! i = Some None.
Proof.
  revert deficit i. induction counts as [|count rest IH]; intros deficit i Hd; [done|].
  destruct i as [|i]; simpl.
  - intros [= ->]. rewrite bool_decide_eq_false_2 by lia.
    by rewrite bool_decide_eq_false_2 by lia.
  - intros Hi. repeat case_bool_decide; simpl.
    + apply lookup_replicate_2. by apply lookup_lt_Some in Hi.
    + apply IH; [lia | done].
    + by apply IH.
Qed.

(** After the partial reduction the walk has stopped: no later backend gets a
    request. *)
Lemma drain_plan_stops deficit counts i n j :
  0 ≤ deficit → drain_plan deficit counts !! i = Some (Some n) → 0 < n →
  (i < j)%nat → (j < length counts)%nat →
  drain_plan deficit counts !! j = Some None.
Proof.
  revert deficit i j. induction counts as [|count rest IH]; intros deficit i j Hd; [done|].
  simpl. repeat case_bool_decide.
  - destruct i as [|i]; simpl.
    + intros _ _ Hij Hj. destruct j as [|j]; [lia|]. simpl.
      apply lookup_replicate_2. simpl in Hj. lia.
    + intros [Hn _]%lookup_replicate. done.
  - destruct i as [|i]; simpl; [intros [= <-]; lia|].
    intros Hi Hn Hij Hj. destruct j as [|j]; [lia|]. simpl in *.
    apply (IH _ i); [lia | done | done | lia | lia].
  - destruct i as [|i]; simpl; [done|].
    intros Hi Hn Hij Hj. destruct j as [|j]; [lia|]. simpl in *.
    apply (IH _ i); [lia | done | done | lia | lia].
Qed.

Section Requests.
Context (env : Env) (currentState : Item) (currentInstanceCount : list Z).
Context (resourceName variantName : string).

Hypothesis HresourceName : currentState !! "resourceName" = Some (VStr resourceName).
Hypothesis HvariantName : currentState !! "variantName" = Some (VStr variantName).

Lemma endpoint_of_named server :
  endpoint_of currentState server
    = mret (resourceName +:+ "-" +:+ server, variantName).
Proof using HresourceName HvariantName.
  unfold endpoint_of.
  rewrite (getitem_Some _ _ _ HresourceName), (getitem_Some _ _ _ HvariantName).
  reflexivity.
Qed.

Lemma update_endpoint_accepted endpoint_name variant_name n :
  accepts env →
  update_endpoint env endpoint_name variant_name n
    = ([UpdateEndpoint endpoint_name variant_name n], inr tt).
Proof. intros Hacc. unfold update_endpoint. by rewrite Hacc. Qed.

Lemma scale_up_accepted d i l :
  accepts env → (length l ≤ length (drop i currentInstanceCount))%nat →
  scale_up env currentState currentInstanceCount d (enumerate_from i l)
    = (zip_with (λ server count, request_of resourceName variantName server (count + d))
         l (drop i currentInstanceCount), inr tt).
Proof using HresourceName HvariantName.
  intros Hacc. revert i. induction l as [|server l IH]; intros i Hlen; [done|].
  simpl in Hlen. destruct (currentInstanceCount !! i) as [count|] eqn:Hi.
  2:{ apply lookup_ge_None in Hi. rewrite length_drop in Hlen. lia. }
  rewrite (drop_S _ _ _ Hi) in Hlen |- *. simpl in Hlen. simpl.
  rewrite endpoint_of_named. unfold subscript. rewrite Hi.
  rewrite !bind_ret. rewrite update_endpoint_accepted by done.
  rewrite IH by lia. reflexivity.
Qed.

Lemma scale_down_accepted d i l :
  accepts env → (length l ≤ length (drop i currentInstanceCount))%nat →
  scale_down env currentState currentInstanceCount d (enumerate_from i l)
    = (plan_calls resourceName variantName l
         (drain_plan (- d) (drop i currentInstanceCount)), inr tt).
Proof using HresourceName HvariantName.
  intros Hacc. revert d i. induction l as [|server l IH]; intros d i Hlen; [done|].
  simpl in Hlen. destruct (currentInstanceCount !! i) as [count|] eqn:Hi.
  2:{ apply lookup_ge_None in Hi. rewrite length_drop in Hlen. lia. }
  rewrite (drop_S _ _ _ Hi) in Hlen |- *. simpl in Hlen. simpl.
  unfold subscript. rewrite Hi, bind_ret.
  repeat case_bool_decide.
  - rewrite endpoint_of_named, bind_ret.
    rewrite update_endpoint_accepted by done.
    unfold plan_calls. simpl. f_equal. f_equal.
    + unfold request_of. f_equal. lia.
    + generalize (drop (S i) currentInstanceCount). clear. intros rest.
      revert l. induction rest as [|? ? IH]; intros [|? l]; simpl; auto.
  - rewrite endpoint_of_named, bind_ret.
    rewrite update_endpoint_accepted by done.
    rewrite IH by lia. unfold plan_calls. simpl.
    by replace (- (d + count)) with (- d - count) by lia.
  - rewrite IH by lia. unfold plan_calls. by simpl.
Qed.

End Requests.

Lemma endpoint_of_silent currentState server :
  emitted (endpoint_of currentState server) = [].
Proof.
  unfold endpoint_of, getitem, text.
  destruct (currentState !! "resourceName") as [[?|?]|]; try done.
  by destruct (currentState !! "variantName") as [[?|?]|].
Qed.

Lemma update_endpoint_emits env endpoint_name variant_name n :
  emitted (update_endpoint env endpoint_name variant_name n)
    = [UpdateEndpoint endpoint_name variant_name n].
Proof. unfold update_endpoint. by destruct (sagemaker env _ _ _). Qed.

(** Whatever the control plane answers and whatever the state holds, the
    loop of a scale-down asks for no negative instance count. *)
Lemma scale_down_never_negative env currentState currentInstanceCount d l :
  d ≤ 0 →
  Forall (λ call, ∀ n, requested call = Some n → 0 ≤ n)
    (emitted (scale_down env currentState currentInstanceCount d l)).
Proof.
  revert d. induction l as [|[i server] l IH]; intros d Hd; [constructor|].
  cbn [scale_down]. unfold subscript.
  destruct (currentInstanceCount !! i) as [count|]; [|constructor].
  rewrite bind_ret. repeat case_bool_decide.
  - rewrite emitted_bind, endpoint_of_silent.
    destruct (outcome _) as [?|[endpoint_name variant_name]]; [constructor|].
    rewrite update_endpoint_emits. repeat constructor. intros n [= <-]. lia.
  - rewrite emitted_bind, endpoint_of_silent.
    destruct (outcome _) as [?|[endpoint_name variant_name]]; [constructor|].
    rewrite emitted_bind, update_endpoint_emits.
    constructor; [intros n [= <-]; lia|].
    destruct (outcome _); [constructor|]. apply IH. lia.
  - by apply IH.
Qed.

Lemma update_scaling_never_negative_down env currentState desired actual :
  currentState !! "desiredCapacity" = Some (VNum desired) →
  currentState !! "actualCapacity" = Some (VNum actual) →
  desired < actual →
  Forall (λ call, ∀ n, requested call = Some n → 0 ≤ n)
    (emitted (update_scaling env currentState)).
Proof.
  intros Hdesired Hactual Hlt. unfold update_scaling.
  destruct (get_server_config env) as [w [e|[[servers counts] weights]]] eqn:Hcfg.
  { assert (w = []) as ->.
    { revert Hcfg. unfold get_server_config.
      by destruct (get_config env) as [[?|]|? ? ?|?]; intros [= <- _]. }
    constructor. }
  assert (w = []) as ->.
  { revert Hcfg. unfold get_server_config.
    by destruct (get_config env) as [[?|]|? ? ?|?]; intros [= <- _]. }
  change (([] : list Call, inr (servers, counts, weights)))
    with (mret (M := M) (servers, counts, weights)).
  rewrite bind_ret.
  rewrite (getitem_Some _ _ _ Hdesired), (getitem_Some _ _ _ Hactual).
  rewrite !bind_ret. unfold number. rewrite !bind_ret.
  rewrite bool_decide_eq_false_2 by lia. rewrite bool_decide_eq_true_2 by lia.
  apply scale_down_never_negative. lia.
Qed.

Section Redistribution.
Context (env : Env) (currentState : Item) (config : ConfigItem).
Context (servers : list string) (currentInstanceCount weights : list Z).
Context (desired actual : Z) (resourceName variantName : string).

Hypothesis Hconfig : get_config env = Returned (Some config).
Hypothesis Hlists : config_lists config = (servers, currentInstanceCount, weights).
Hypothesis Hdesired : currentState !! "desiredCapacity" = Some (VNum desired).
Hypothesis Hactual : currentState !! "actualCapacity" = Some (VNum actual).
Hypothesis HresourceName : currentState !! "resourceName" = Some (VStr resourceName).
Hypothesis HvariantName : currentState !! "variantName" = Some (VStr variantName).
Hypothesis Hlength : length currentInstanceCount = length servers.
Hypothesis Hcounts : Forall (λ count, 0 ≤ count) currentInstanceCount.
Hypothesis Haccepts : accepts env.

Lemma update_scaling_unfold :
  update_scaling env currentState =
    let delta := desired - actual in
    if bool_decide (0 < delta) then
      if bool_decide (sum currentInstanceCount = 0) then
        i ← index weights 1;
        server ← subscript servers i;
        update_endpoint env (resourceName +:+ "-" +:+ server) variantName delta
      else
        scale_up env currentState currentInstanceCount delta (enumerate servers)
    else if bool_decide (delta < 0) then
      scale_down env currentState currentInstanceCount delta (enumerate servers)
    else mret tt.
Proof using Hconfig Hlists Hdesired Hactual HresourceName HvariantName.
  unfold update_scaling, get_server_config. rewrite Hconfig, Hlists.
  rewrite bind_ret.
  rewrite (getitem_Some _ _ _ Hdesired), (getitem_Some _ _ _ Hactual).
  rewrite !bind_ret. unfold number. rewrite !bind_ret. cbn zeta.
  repeat case_bool_decide; try done.
  rewrite (getitem_Some _ _ _ HresourceName), (getitem_Some _ _ _ HvariantName).
  rewrite !bind_ret. unfold text. rewrite !bind_ret.
  unfold index. destruct (index_from 0 weights 1) as [i|]; [|done].
  rewrite !bind_ret. unfold subscript. destruct (servers !! i); [|done].
  by rewrite !bind_ret.
Qed.



End Redistribution.

(** *** The handler *)

(** [finish] writes the state once, after all its reads, or not at all; an
    answer 200 comes after the write and reports the capacities of the state
    it was given. *)
Lemma finish_writes env previousState dimensionId currentState :
  let r := finish env previousState dimensionId currentState in
  (emitted r = [] ∧ ∀ response, outcome r ≠ inr response)
  ∨ ∃ status,
      currentState !! "scalingStatus" = Some status
      ∧ emitted r = [PutState (stored env dimensionId status currentState)]
      ∧ ∀ response, outcome r = inr response →
          ∃ json, response = Response200 json
                  ∧ currentState !! "desiredCapacity" = Some (VNum (desiredCapacity json))
                  ∧ currentState !! "actualCapacity" = Some (VNum (actualCapacity json)).
Proof.
  cbn zeta.
  destruct (currentState !! "scalingStatus") as [status|] eqn:Hstatus.
  2:{ left. unfold finish. rewrite (getitem_None _ _ Hstatus). by split. }
  set (P := λ r : M Response,
    (emitted r = [] ∧ ∀ response, outcome r ≠ inr response)
    ∨ ∃ status',
        Some status = Some status'
        ∧ emitted r = [PutState (stored env dimensionId status' currentState)]
        ∧ ∀ response, outcome r = inr response →
            ∃ json, response = Response200 json
                    ∧ currentState !! "desiredCapacity" = Some (VNum (desiredCapacity json))
                    ∧ currentState !! "actualCapacity" = Some (VNum (actualCapacity json))).
  change (P (finish env previousState dimensionId currentState)).
  assert (∀ e, P (raise e)) as Hraise by (intros e; left; by split).
  unfold finish, log_state_changes. rewrite (getitem_Some _ _ _ Hstatus), bind_ret.
  set (cur := if bool_decide (status ≠ Failed) then _ else _).
  assert (cur !! "desiredCapacity" = currentState !! "desiredCapacity") as Hd.
  { unfold cur. case_bool_decide; [by rewrite lookup_insert_ne|done]. }
  assert (cur !! "actualCapacity" = currentState !! "actualCapacity") as Ha.
  { unfold cur. case_bool_decide; [by rewrite lookup_insert_ne|done]. }
  fold (stored env dimensionId status currentState) in *.
  do 6 (rewrite ?bind_assoc; apply getitem_case; [auto | intros ? _]; cbn beta).
  rewrite bind_ret.
  apply getitem_case; [auto | intros ? HactualCapacity].
  apply number_case; [auto | intros actual ->].
  rewrite bind_assoc.
  apply getitem_case; [auto | intros ? HdesiredCapacity].
  apply number_case; [auto | intros desired ->].
  do 5 (apply getitem_case; [auto | intros ? _]).
  unfold write_state. fold cur. fold (stored env dimensionId status currentState).
  set (Q := λ r : M Response,
    emitted r = [] ∧ ∀ response, outcome r = inr response →
      ∃ json, response = Response200 json
              ∧ desiredCapacity json = desired
              ∧ actualCapacity json = actual).
  assert (∀ r, Q r → P (tell (PutState (stored env dimensionId status currentState)) ≫= λ _, r))
    as Htell.
  { intros [w [e|response]] [Hw Hr]; unfold emitted, outcome in *; simpl in *; subst w;
      right; exists status; (split; [done|]); (split; [done|]); intros response'; [done|].
    intros [= <-]. destruct (Hr _ eq_refl) as (json & -> & <- & <-).
    exists json. by rewrite <- Hd, <- Ha. }
  apply Htell. clear dependent P.
  assert (∀ e, Q (raise e)) as Hraise by (intros e; by split).
  do 5 (apply json_dumps_case; [auto|]).
  split; [done|]. intros response [= <-]. by eexists.
Qed.

(** A capacity-declare request on a state that is [Pending] or [InProgress]
    issues nothing and leaves the desired capacity alone. *)
Lemma patch_state_while_scaling env bodyData currentState status v :
  currentState !! "scalingStatus" = Some status →
  status = InProgress ∨ status = Pending →
  bodyData !! "desiredCapacity" = Some v →
  emitted (patch_state env bodyData currentState) = []
  ∧ ∀ currentState', outcome (patch_state env bodyData currentState) = inr currentState' →
      currentState' = patched bodyData currentState.
Proof.
  intros Hstatus Hscaling Hbody. unfold patch_state, patched. rewrite Hbody.
  destruct (bodyData !! "actualCapacity") as [[n|?]|]; [| by split |].
  - unfold number. rewrite !bind_ret.
    rewrite getitem_Some with (v := status) by by rewrite lookup_insert_ne.
    rewrite bind_ret, bool_decide_eq_false_2, bind_ret.
    2:{ intros Hnot. apply Hnot. destruct Hscaling as [-> | ->]; repeat constructor. }
    destruct (bodyData !! "scalingStatus"); split; try done; by intros ? [= <-].
  - rewrite !bind_ret. rewrite (getitem_Some _ _ _ Hstatus).
    rewrite bind_ret, bool_decide_eq_false_2, bind_ret.
    2:{ intros Hnot. apply Hnot. destruct Hscaling as [-> | ->]; repeat constructor. }
    destruct (bodyData !! "scalingStatus"); split; try done; by intros ? [= <-].
Qed.

Lemma lambda_handler_handle env event bodyData :
  body event = JSONBody bodyData →
  (lambda_handler env event).1
    = emitted (handle env (default "GET"%string (httpMethod event)) (Some bodyData))
  ∧ ∀ response,
      (lambda_handler env event).2 = response →
      outcome (handle env (default "GET"%string (httpMethod event)) (Some bodyData))
        = inr response
      ∨ ∃ e, response = Response500 e.
Proof.
  intros Hbody. unfold lambda_handler. rewrite Hbody.
  destruct (handle _ _ _) as [calls [e|response]]; simpl; split; try done.
  - intros ? <-. right. by eexists.
  - intros ? <-. by left.
Qed.


(** From zero the one request goes to the backend of weight 1; without such
    a backend [weights.index(1)] raises and nothing is requested. *)
Example scale_up_from_zero :
  let state := sample_state Pending 4 0 now in
  update_scaling (sample_env state (sample_config [2; 3; 1] [0; 0; 0]) now) state
    = ([request_of "pool" "AllTraffic" "server3" 4], inr tt)
  ∧ update_scaling (sample_env state (sample_config [5; 3; 2] [0; 0; 0]) now) state
    = ([], inl ValueError).
Proof. split; by vm_compute. Qed.


(** *** Staleness *)

Section Staleness.
Context (env : Env) (currentState : Item).
Context (status actual : Value) (desired lastModified : Z).

Hypothesis Hstatus : currentState !! "scalingStatus" = Some status.
Hypothesis Hscaling : status = Pending ∨ status = InProgress.
Hypothesis Hdesired : currentState !! "desiredCapacity" = Some (VNum desired).
Hypothesis Hnonneg : 0 ≤ desired.
Hypothesis Hactual : currentState !! "actualCapacity" = Some actual.
Hypothesis HlastModified : currentState !! "lastModified" = Some (VNum lastModified).

Lemma reconcile_scaling :
  reconcile env currentState =
    mret (if bool_decide (lastModified < time_ms env - minutes 25) then
            if bool_decide (VNum desired ≠ actual) then
              <["failureResaon" := timeout_reason]>
                (<["scalingStatus" := Failed]> currentState)
            else <["scalingStatus" := Successful]> currentState
          else currentState).
Proof using All.
  unfold reconcile.
  rewrite (getitem_Some _ _ _ Hdesired), bind_ret. unfold number. rewrite bind_ret.
  rewrite bool_decide_eq_true_2 by done.
  rewrite (getitem_Some _ _ _ Hstatus), !bind_ret.
  rewrite (bool_decide_eq_false_2 (status = Successful ∨ status = Failed)).
  2:{ intros [-> | ->]; by destruct Hscaling. }
  rewrite bind_ret.
  rewrite (getitem_Some _ _ _ HlastModified), !bind_ret.
  rewrite (getitem_Some _ _ _ Hstatus), !bind_ret.
  rewrite (bool_decide_eq_true_2 (status = Pending ∨ status = InProgress)) by done.
  rewrite andb_true_r. change (25 * 60 * 1000) with (minutes 25).
  case_bool_decide; [|done].
  rewrite (getitem_Some _ _ _ Hactual), bind_ret.
  by case_bool_decide.
Qed.

(** After 26 minutes a state that is [Pending] or [InProgress] becomes
    [Failed] when the capacities differ and [Successful] when they agree;
    after 24 minutes it stays as it is. The reason goes under the key
    [failureResaon]; the key [failureReason] is left as it was. *)
Lemma reconcile_26_minutes :
  lastModified = time_ms env - minutes 26 →
  ∃ currentState',
    reconcile env currentState = mret currentState'
    ∧ currentState' !! "failureReason" = currentState !! "failureReason"
    ∧ (VNum desired ≠ actual →
       currentState' !! "scalingStatus" = Some Failed
       ∧ currentState' !! "failureResaon" = Some timeout_reason)
    ∧ (VNum desired = actual →
       currentState' !! "scalingStatus" = Some Successful).
Proof using All.
  intros Hago. rewrite reconcile_scaling.
  rewrite bool_decide_eq_true_2 by (unfold minutes in *; lia).
  eexists. split; [done|]. case_bool_decide.
  - rewrite !lookup_insert_ne by done. split; [done|]. split; [|done].
    intros _. by rewrite !lookup_insert_eq.
  - rewrite !lookup_insert_ne by done. split; [done|]. split; [done|].
    intros _. by rewrite lookup_insert_eq.
Qed.

Lemma reconcile_24_minutes :
  lastModified = time_ms env - minutes 24 →
  reconcile env currentState = mret currentState.
Proof using All.
  intros Hago. rewrite reconcile_scaling.
  by rewrite bool_decide_eq_false_2 by (unfold minutes in *; lia).
Qed.

End Staleness.

(** C5 at a state that has been [Pending] for 26 minutes with a desired
    capacity of 2 and an actual capacity of 1: the poll answers 200 and writes
    the state as [Failed], with the reason under the key [failureResaon];
    the written item has no key [failureReason]. *)
Theorem stale_state_failure_reason :
  let item := <["lastModified" := VNum now]>
                (<["failureResaon" := timeout_reason]>
                   (<["scalingStatus" := Failed]> state_stale)) in
  lambda_handler env_stale GET
    = ([PutState item],
       Response200 {| actualCapacity := 1; desiredCapacity := 2;
                      dimensionName := VStr "custom-resource:ResourceType:Property";
                      resourceName := VStr "pool";
                      scalableTargetDimensionId := VStr "endpoint/pool/variant/AllTraffic";
                      scalingStatus := Failed; version := VStr "v1" |})
  ∧ item !! "scalingStatus" = Some Failed
  ∧ item !! "failureResaon" = Some timeout_reason
  ∧ item !! "failureReason" = None.
Proof.
  cbn zeta. split; [vm_compute; reflexivity|].
  split; [|split]; vm_compute; reflexivity.
Qed.

(** The other two cases of the staleness check, on the same pool. *)
Example stale_state_converged :
  let state := sample_state Pending 2 2 (now - minutes 26) in
  (lambda_handler (sample_env state (sample_config [1; 1; 0] [1; 1; 0]) now) GET).1
    = [PutState (<["lastModified" := VNum now]>
                   (<["failureResaon" := VStr ""]>
                      (<["scalingStatus" := Successful]> state)))].
Proof. vm_compute. reflexivity. Qed.

Example fresh_state_unchanged :
  let state := sample_state Pending 2 1 (now - minutes 24) in
  (lambda_handler (sample_env state (sample_config [1; 0; 0] [1; 0; 0]) now) GET).1
    = [PutState (<["lastModified" := VNum now]> (<["failureResaon" := VStr ""]> state))]
  ∧ state !! "scalingStatus" = Some Pending.
Proof. split; vm_compute; reflexivity. Qed.

(** *** The put of the state is not looked at *)

Section WithPut.
Import AsgActivityHandlerSamples.
Context (env : Env) (put : Called unit).

Lemma scale_up_with_put currentState counts delta l :
  scale_up (with_put env put) currentState counts delta l
    = scale_up env currentState counts delta l.
Proof.
  induction l as [|[i server] l IH]; [done|]. cbn [scale_up].
  apply bind_ext. intros [endpoint_name variant_name].
  apply bind_ext. intros count. apply bind_ext. by intros _.
Qed.

Lemma scale_down_with_put currentState counts l : ∀ delta,
  scale_down (with_put env put) currentState counts delta l
    = scale_down env currentState counts delta l.
Proof.
  induction l as [|[i server] l IH]; intros delta; [done|]. cbn [scale_down].
  apply bind_ext. intros count. repeat case_bool_decide; [done| |done].
  apply bind_ext. intros [endpoint_name variant_name].
  apply bind_ext. by intros _.
Qed.

Lemma update_scaling_with_put currentState :
  update_scaling (with_put env put) currentState = update_scaling env currentState.
Proof.
  unfold update_scaling.
  change (get_server_config (with_put env put)) with (get_server_config env).
  apply bind_ext. intros [[servers counts] weights].
  apply bind_ext. intros desired. apply bind_ext. intros actual.
  repeat case_bool_decide; try done.
  - apply scale_up_with_put.
  - apply scale_down_with_put.
Qed.

Lemma patch_state_with_put bodyData currentState :
  patch_state (with_put env put) bodyData currentState
    = patch_state env bodyData currentState.
Proof.
  unfold patch_state. apply bind_ext. intros state1. f_equal.
  destruct (bodyData !! "desiredCapacity"); [|done].
  apply bind_ext. intros status. case_bool_decide; [|done].
  apply bind_ext. intros n. case_bool_decide; [|done].
  by rewrite update_scaling_with_put.
Qed.

Lemma reconcile_with_put currentState :
  reconcile (with_put env put) currentState = reconcile env currentState.
Proof.
  unfold reconcile. apply bind_ext. intros desired. apply bind_ext. intros d.
  case_bool_decide; [|done]. apply bind_ext. intros status.
  change (time_ms (with_put env put)) with (time_ms env). f_equal.
  case_bool_decide; [|done]. apply bind_ext. intros actual.
  case_bool_decide; [|done]. by rewrite update_scaling_with_put.
Qed.

(** [lambda_handler] makes the same calls and gives the same answer
    whatever becomes of its put of the state. *)
Lemma lambda_handler_with_put event :
  lambda_handler (with_put env put) event = lambda_handler env event.
Proof.
  assert (∀ http_method bodyData,
    handle (with_put env put) http_method bodyData = handle env http_method bodyData)
    as Hhandle.
  { intros http_method bodyData. unfold handle.
    change (read_state (with_put env put)) with (read_state env).
    apply bind_ext. intros dimensionId.
    destruct (_ && _); [|case_bool_decide; [done|]].
    - by rewrite patch_state_with_put.
    - by rewrite reconcile_with_put. }
  unfold lambda_handler. destruct (body event); by rewrite ?Hhandle.
Qed.

End WithPut.

(** *** Declaring a capacity while a scaling is under way *)




(** The same declaration on a table that takes no put is answered 200 all
    the same, and nothing is written. *)
Example declare_while_scaling_not_written :
  let env := AsgActivityHandlerSamples.without_put env_in_progress in
  (∃ json, (lambda_handler env declare_5).2 = Response200 json)
  ∧ written env (lambda_handler env declare_5).1 = None.
Proof.
  cbn zeta. split; [|reflexivity]. eexists. vm_compute. reflexivity.
Qed.

End AsgActivityFacts.

(** ** endpoint-state-lambda.py *)

Module EndpointStateFacts.
Import Scaling ScalingFacts EndpointState EndpointStateSamples.

(** *** The greatest common divisor *)

Lemma gcd_divides counts count : count ∈ counts → (gcd counts | count).
Proof.
  induction counts as [|c counts IH]; [by intros ?%not_elem_of_nil|].
  intros [->|Hin]%elem_of_cons; simpl.
  - apply Z.gcd_divide_l.
  - etransitivity; [apply Z.gcd_divide_r | by apply IH].
Qed.

Lemma gcd_zero counts : gcd counts = 0 ↔ Forall (λ count, count = 0) counts.
Proof.
  induction counts as [|c counts IH]; simpl.
  - split; [constructor | done].
  - rewrite Z.gcd_eq_0, IH. split.
    + intros [-> ?]. by constructor.
    + by inversion 1.
Qed.

Lemma quot_exact counts count :
  gcd counts ≠ 0 → count ∈ counts → count = gcd counts * (count ÷ gcd counts).
Proof.
  intros Hg Hin. destruct (gcd_divides _ _ Hin) as [q ->].
  rewrite Z.quot_mul by done. lia.
Qed.

Lemma gcd_nonneg counts : 0 ≤ gcd counts.
Proof. destruct counts; [done|]. apply Z.gcd_nonneg. Qed.

(** *** The division through a double *)

Lemma round_half_even_exact q d : 0 < d → round_half_even (q * d) d = q.
Proof.
  intros Hd. unfold round_half_even. rewrite Z.div_mul, Z.mod_mul by lia.
  by rewrite bool_decide_eq_true_2 by lia.
Qed.

(** Up to [2^53] an integral quotient is a double, and the division
    returns it. *)
Lemma int_truediv_nonneg_exact q b :
  0 < b → 0 ≤ q ≤ 2 ^ 53 → int_truediv_nonneg (q * b) b = mret q.
Proof.
  intros Hb Hq. unfold int_truediv_nonneg.
  destruct (decide (q = 0)) as [->|Hq0].
  { rewrite Z.mul_0_l. rewrite bool_decide_eq_true_2 by done.
    by rewrite bool_decide_eq_false_2 by lia. }
  rewrite bool_decide_eq_false_2 by nia.
  rewrite Z.div_mul by lia. cbn zeta.
  destruct (decide (q = 2 ^ 53)) as [->|Hq53].
  { change (Z.log2 (2 ^ 53) - 52) with 1.
    rewrite bool_decide_eq_false_2 by lia.
    replace (2 ^ 53 * b) with (2 ^ 52 * (b * 2 ^ 1)) by lia.
    rewrite round_half_even_exact by lia.
    rewrite bool_decide_eq_false_2; [done|]. intros Hle. vm_compute in Hle. by apply Hle. }
  assert (Z.log2 q ≤ 52) as Hlog.
  { assert (Z.log2 q < 53); [|lia]. apply Z.log2_lt_pow2; lia. }
  rewrite bool_decide_eq_true_2 by lia.
  replace (q * b * 2 ^ (- (Z.log2 q - 52))) with (q * 2 ^ (- (Z.log2 q - 52)) * b) by lia.
  rewrite round_half_even_exact by done.
  rewrite Z.div_mul; [done|]. apply Z.pow_nonzero; lia.
Qed.

Lemma int_truediv_exact a b :
  b ≠ 0 → (b | a) → Z.abs a ≤ 2 ^ 53 * Z.abs b → int_truediv a b = mret (a ÷ b).
Proof.
  intros Hb [q ->] Hbound. unfold int_truediv.
  rewrite bool_decide_eq_false_2 by done.
  rewrite Z.abs_mul in Hbound |- *.
  rewrite int_truediv_nonneg_exact by nia.
  rewrite bind_ret, Z.quot_mul by done. f_equal.
  rewrite Z.sgn_mul. destruct q, b; simpl; lia.
Qed.

Lemma int_truediv_silent a b : emitted (int_truediv a b) = [].
Proof.
  unfold int_truediv, int_truediv_nonneg.
  repeat (case_bool_decide; try done).
Qed.

(** *** The rebalancer *)

Lemma rebalance_loop_range gcd_value counts n : ∀ i weights,
  gcd_value ≠ 0 →
  Forall (λ count, (gcd_value | count) ∧ Z.abs count ≤ 2 ^ 53 * Z.abs gcd_value)
    (take n (drop i counts)) →
  (i + n ≤ length weights)%nat → (i + n ≤ length counts)%nat →
  rebalance_loop gcd_value counts weights (seq i n)
    = mret (take i weights
            ++ ((λ count, count ÷ gcd_value) <$> take n (drop i counts))
            ++ drop (i + n) weights).
Proof.
  induction n as [|n IH]; intros i weights Hg Hexact Hw Hc.
  - simpl. by rewrite Nat.add_0_r, take_drop.
  - destruct (lookup_lt_is_Some_2 counts i) as [count Hi]; [lia|].
    rewrite (drop_S _ _ _ Hi) in Hexact. cbn [take] in Hexact.
    apply Forall_cons_1 in Hexact as [[Hdivides Hbound] Hexact].
    cbn [seq rebalance_loop]. unfold subscript. rewrite Hi, bind_ret.
    rewrite int_truediv_exact, bind_ret by done.
    rewrite IH by (rewrite ?length_insert; done || lia).
    rewrite (take_S_r (<[i:=count ÷ gcd_value]> weights) i (count ÷ gcd_value))
      by (apply list_lookup_insert_eq; lia).
    rewrite take_insert_ge by lia. rewrite drop_insert_lt by lia.
    rewrite (drop_S _ _ _ Hi). cbn [take fmap list_fmap].
    rewrite <- app_assoc. simpl. by replace (S (i + n)) with (i + S n)%nat by lia.
Qed.

(** The loop writes every weight it goes over: what it returns does not
    depend on the weights it starts from. *)
Lemma rebalance_loop_ext gcd_value counts n : ∀ i weights1 weights2,
  length weights1 = length weights2 → (i + n)%nat = length weights1 →
  take i weights1 = take i weights2 →
  rebalance_loop gcd_value counts weights1 (seq i n)
    = rebalance_loop gcd_value counts weights2 (seq i n).
Proof.
  induction n as [|n IH]; intros i weights1 weights2 Hlen Hn Htake.
  - simpl. f_equal. rewrite <- (take_ge weights1 i), <- (take_ge weights2 i) by lia. done.
  - cbn [seq rebalance_loop]. unfold subscript.
    destruct (counts !! i) as [count|]; [|done]. rewrite !bind_ret.
    destruct (int_truediv count gcd_value) as [w [e|weight]] eqn:Hdiv; [done|].
    pose proof (int_truediv_silent count gcd_value) as Hsilent.
    rewrite Hdiv in Hsilent. unfold emitted in Hsilent. simpl in Hsilent. subst w.
    change ((([] : list Call), inr weight) : M Z) with (mret (M := M) weight).
    rewrite !bind_ret. apply IH.
    + by rewrite !length_insert.
    + rewrite length_insert. lia.
    + rewrite (take_S_r (<[i:=weight]> weights1) i weight)
        by (apply list_lookup_insert_eq; lia).
      rewrite (take_S_r (<[i:=weight]> weights2) i weight)
        by (apply list_lookup_insert_eq; lia).
      rewrite !take_insert_ge by lia. by rewrite Htake.
Qed.

Lemma rebalance_loop_length gcd_value counts range : ∀ weights weights',
  outcome (rebalance_loop gcd_value counts weights range) = inr weights' →
  length weights' = length weights.
Proof.
  induction range as [|i range IH]; intros weights weights'; [by intros [= <-]|].
  cbn [rebalance_loop]. unfold subscript.
  destruct (counts !! i) as [count|]; [|done]. rewrite bind_ret.
  destruct (int_truediv count gcd_value) as [w [e|weight]] eqn:Hdiv; [done|].
  pose proof (int_truediv_silent count gcd_value) as Hsilent.
  rewrite Hdiv in Hsilent. unfold emitted in Hsilent. simpl in Hsilent. subst w.
  change ((([] : list Call), inr weight) : M Z) with (mret (M := M) weight).
  rewrite bind_ret. intros Hloop%IH. by rewrite length_insert in Hloop.
Qed.

Lemma force_first_length weights : length (force_first weights) = length weights.
Proof. unfold force_first. case_bool_decide; by rewrite ?length_insert. Qed.

Lemma force_first_idemp weights : force_first (force_first weights) = force_first weights.
Proof.
  unfold force_first at 2 3. destruct (decide (sum weights = 0)) as [Hsum|Hsum].
  - rewrite bool_decide_eq_true_2 by done. unfold force_first.
    case_bool_decide; [|done]. by destruct weights.
  - rewrite bool_decide_eq_false_2 by done. unfold force_first.
    by rewrite bool_decide_eq_false_2.
Qed.

Lemma proportional_length counts n :
  (n ≤ length counts)%nat → length (proportional counts n) = n.
Proof. intros Hn. unfold proportional. rewrite length_fmap, length_take. lia. Qed.

(** The weights after a rebalance over counts that are divided exactly. *)
Lemma rebalance_weights counts weights :
  weights ≠ [] → (length weights ≤ length counts)%nat → exactly_divided counts →
  rebalance counts weights
    = mret (if bool_decide (gcd counts ≠ 0)
            then force_first (proportional counts (length weights))
            else force_first weights).
Proof.
  intros Hne Hlen Hexact. unfold rebalance. case_bool_decide as Hg.
  - rewrite (rebalance_loop_range _ _ _ 0 weights); [|done| |simpl; lia|simpl; lia].
    2:{ rewrite drop_0. apply Forall_take, list.Forall_forall. intros count Hcount.
        split; [by apply gcd_divides|].
        rewrite (Z.abs_eq (gcd counts)) by apply gcd_nonneg.
        unfold exactly_divided in Hexact. rewrite list.Forall_forall in Hexact.
        by apply Hexact. }
    rewrite bind_ret. simpl. rewrite drop_0, drop_all, app_nil_r.
    fold (proportional counts (length weights)). unfold force_first.
    case_bool_decide; [|done].
    destruct (proportional counts (length weights)) eqn:Hp; [|done].
    apply (f_equal length) in Hp. rewrite proportional_length in Hp by done.
    by destruct weights.
  - rewrite bind_ret. unfold force_first. case_bool_decide; [|done].
    by destruct weights.
Qed.

Lemma rebalance_loop_silent gcd_value counts n : ∀ i weights,
  emitted (rebalance_loop gcd_value counts weights (seq i n)) = [].
Proof.
  induction n as [|n IH]; intros i weights; [done|].
  cbn [seq rebalance_loop]. unfold subscript. destruct (counts !! i) as [count|]; [|done].
  rewrite bind_ret, emitted_bind, int_truediv_silent.
  destruct (outcome _); [done|]. apply IH.
Qed.

Lemma rebalance_silent counts weights : emitted (rebalance counts weights) = [].
Proof.
  unfold rebalance.
  rewrite emitted_bind.
  case_bool_decide.
  - rewrite rebalance_loop_silent. destruct (outcome _) as [|w]; [done|].
    case_bool_decide; [|done]. by destruct w.
  - simpl. case_bool_decide; [|done]. by destruct weights.
Qed.

Lemma rebalance_length counts weights weights' :
  outcome (rebalance counts weights) = inr weights' → length weights' = length weights.
Proof.
  unfold rebalance.
  assert (∀ loop : M (list Z),
    emitted loop = [] →
    (∀ w, outcome loop = inr w → length w = length weights) →
    outcome (loop ≫= λ w,
               if bool_decide (sum w = 0) then
                 match w with
                 | [] => raise IndexError
                 | _ :: _ => mret (<[0%nat := 1]> w)
                 end
               else mret w) = inr weights' →
    length weights' = length weights) as Hforce.
  { intros [log [e|w]] Hsilent Hlen; unfold emitted in Hsilent; simpl in Hsilent;
      subst log; [done|].
    change ((([] : list Call), inr w) : M (list Z)) with (mret (M := M) w).
    rewrite bind_ret. specialize (Hlen w eq_refl).
    case_bool_decide; [|by intros [= <-]].
    destruct w; [done|]. intros [= <-]. by rewrite <- Hlen. }
  case_bool_decide.
  - apply Hforce.
    + apply rebalance_loop_silent.
    + intros w. apply rebalance_loop_length.
  - apply Hforce; [done|]. by intros w [= <-].
Qed.

(** Rebalancing again over the same counts changes nothing. *)
Lemma rebalance_idemp counts weights weights' :
  outcome (rebalance counts weights) = inr weights' →
  rebalance counts weights' = mret weights'.
Proof.
  intros Hfirst.
  destruct (decide (weights = [])) as [->|Hne].
  { revert Hfirst. unfold rebalance. simpl. by case_bool_decide. }
  pose proof (rebalance_length _ _ _ Hfirst) as Hlen.
  pose proof (rebalance_silent counts weights) as Hsilent.
  assert (rebalance counts weights = mret weights') as Hrun.
  { destruct (rebalance counts weights) as [log r]. unfold emitted, outcome in *.
    simpl in *. by subst. }
  destruct (decide (gcd counts ≠ 0)) as [Hg|Hg].
  - rewrite <- Hrun. unfold rebalance. rewrite !bool_decide_eq_true_2 by done.
    rewrite Hlen. f_equal. by apply rebalance_loop_ext.
  - clear Hrun Hsilent Hlen. revert Hfirst. unfold rebalance.
    rewrite bool_decide_eq_false_2 by done.
    rewrite !bind_ret. fold (force_first weights).
    intros Hfirst.
    assert (weights' = force_first weights) as ->.
    { revert Hfirst. unfold force_first. case_bool_decide; [|by intros [= <-]].
      destruct weights; [done|]. by intros [= <-]. }
    pose proof (force_first_idemp weights) as Hidem.
    revert Hidem. generalize (force_first weights) (force_first_length weights).
    intros w Hl Hidem. unfold force_first in Hidem.
    case_bool_decide; [|done]. destruct w; [by destruct weights|].
    by rewrite Hidem.
Qed.

(** *** The handler on an [IN_SERVICE] event *)

Section InService.
Context (env : Env) (detail : Detail) (config : ConfigItem) (state : Item).
Context (servers : list string) (counts0 weights0 : list Z).
Context (endpoint_name resourceName server : string) (index : nat).
Context (variants : list (option Z)) (count desired : Z).

Hypothesis Hconfig : get_config env = Returned (Some config).
Hypothesis Hlists : config_lists config = (servers, counts0, weights0).
Hypothesis Hstate : get_state env = Returned (Some state).
Hypothesis Hname : EndpointName detail = Some endpoint_name.
Hypothesis Hstatus : EndpointStatus detail = Some "IN_SERVICE"%string.
Hypothesis Hresource : state !! "resourceName" = Some (VStr resourceName).
Hypothesis Hcontains : contains endpoint_name resourceName = true.
Hypothesis Hserver : split "-" endpoint_name !! 1%nat = Some server.
Hypothesis Hindex : index_from 0 servers server = Some index.
Hypothesis Hvariants : ProductionVariants detail = Some variants.
Hypothesis Hreported : variants !! 0%nat = Some (Some count).
Hypothesis Hrange : (index < length counts0)%nat.
Hypothesis Hdesired : state !! "desiredCapacity" = Some (VNum desired).

Lemma handle_in_service :
  handle env detail =
    let counts := <[index := count]> counts0 in
    let actual := sum counts in
    let state' := <["actualCapacity" := VNum actual]> state in
    '(weights, currentState) ←
      (if bool_decide (desired < actual) && bool_decide (0 < count) then
         variantName ← getitem state' "variantName" ≫= text;
         _ ← update_endpoint_weights_and_capacities env endpoint_name variantName (count - 1);
         mret (weights0, <["scalingStatus" := InProgress]> state')
       else if bool_decide (desired = actual) then
         weights ← rebalance counts weights0;
         mret (weights, <["scalingStatus" := Successful]> state')
       else
         mret (weights0, <["scalingStatus" := InProgress]> state'));
    _ ← update_server_config env servers weights counts;
    write_state env currentState.
Proof using All.
  unfold handle, get_server_config, read_state.
  rewrite Hconfig, Hlists, bind_ret, Hstate, Hname, bind_ret, Hresource, bind_ret.
  rewrite Hcontains, Hstatus. rewrite bool_decide_eq_true_2 by done.
  unfold in_service, subscript, Scaling.index.
  rewrite Hserver, bind_ret, Hindex, bind_ret, Hvariants, bind_ret, Hreported, bind_ret.
  destruct (lookup_lt_is_Some_2 counts0 index Hrange) as [old ->].
  rewrite !bind_ret.
  rewrite (getitem_Some _ "desiredCapacity" (VNum desired))
    by by rewrite lookup_insert_ne.
  rewrite bind_ret. unfold number. by rewrite bind_ret.
Qed.

Hypothesis Hput : put_config env = Returned tt.
Hypothesis Hweights : weights0 ≠ [] ∧ (length weights0 ≤ length counts0)%nat.

(** C4, as the code has it: at an [IN_SERVICE] event that brings the sum of
    the counts to the desired capacity, with a weight per backend and
    counts that are divided exactly (each within [2^53] times their
    greatest common divisor, where the division through a double that the
    code makes returns the quotient), the handler computes the greatest
    common divisor [g] of the counts and, when [g] is not 0, makes each
    weight its backend's count divided by [g]; when [g] is 0, which is when
    every count is 0, it leaves the weights as they are; in both cases a
    weight vector that sums to 0 gets 1 as its first weight. It puts these
    weights and the counts into the table and the state as [Successful].
    Counts 6, 9, 3 give the weights 2, 3, 1 whatever the weights were;
    counts 0, 0, 0 keep the weights 5, 3, 2 and turn the weights 0, 0, 0
    into 1, 0, 0. *)
Theorem convergence_rebalance :
  let counts := <[index := count]> counts0 in
  let g := gcd counts in
  let weights' :=
    if bool_decide (g ≠ 0) then force_first (proportional counts (length weights0))
    else force_first weights0 in
  exactly_divided counts →
  desired = sum counts →
  handle_endpoint_status_change env detail
    = ([PutConfig {| Scaling.servers := Some servers;
                     Scaling.weights := Some weights';
                     Scaling.current_instance_count := Some counts |};
        PutState (stored env (<["scalingStatus" := Successful]>
                                (<["actualCapacity" := VNum (sum counts)]> state)))],
       Response200)
  ∧ (g ≠ 0 →
     Forall2 (λ count weight, count = g * weight)
       (take (length weights0) counts) (proportional counts (length weights0)))
  ∧ (g = 0 ↔ Forall (λ count, count = 0) counts)
  ∧ (counts = [6; 9; 3] → length weights0 = 3%nat → weights' = [2; 3; 1])
  ∧ (counts = [0; 0; 0] → weights' = force_first weights0)
  ∧ (counts = [0; 0; 0] → weights0 = [5; 3; 2] → weights' = [5; 3; 2])
  ∧ (counts = [0; 0; 0] → weights0 = [0; 0; 0] → weights' = [1; 0; 0]).
Proof using All.
  intros counts g weights' Hexact Hconverged. destruct Hweights as [Hne Hlen].
  split; [|split; [|split; [|split; [|split; [|split]]]]].
  - unfold handle_endpoint_status_change. rewrite handle_in_service. cbn zeta.
    fold counts. rewrite <- Hconverged.
    rewrite (bool_decide_eq_false_2 (desired < desired)) by lia.
    rewrite andb_false_l. rewrite bool_decide_eq_true_2 by done.
    rewrite rebalance_weights; [|done|unfold counts; by rewrite length_insert|done].
    fold g. fold weights'. rewrite !bind_ret.
    unfold update_server_config. rewrite Hput. reflexivity.
  - intros Hg. unfold proportional. fold g.
    apply Forall2_fmap_r, Forall_Forall2_diag, Forall_forall.
    intros c Hc%list_elem_of_In%elem_of_take. destruct Hc as (i & Hi & _).
    apply quot_exact; [done|]. by apply list_elem_of_lookup_2 in Hi.
  - apply gcd_zero.
  - intros Hcounts Hlen3. unfold weights', g. rewrite Hcounts, Hlen3. by vm_compute.
  - intros Hcounts. unfold weights', g. rewrite Hcounts. by vm_compute.
  - intros Hcounts ->. unfold weights', g. rewrite Hcounts. by vm_compute.
  - intros Hcounts ->. unfold weights', g. rewrite Hcounts. by vm_compute.
Qed.


End InService.

(** C4 on the pool with counts 6, 0, 3 and weights 5, 3, 2 whose second
    backend reports 9 instances, the desired capacity being 18. *)
Lemma convergence_rebalance_witness :
  config_put_of (handle_endpoint_status_change env_converging event_converging).1
    = Some (sample_config [2; 3; 1] [6; 9; 3]).
Proof.
  unshelve epose proof (convergence_rebalance env_converging event_converging
    (sample_config [5; 3; 2] [6; 0; 3]) state_converging
    sample_servers [6; 0; 3] [5; 3; 2] "pool-server2" "pool" "server2" 1
    [Some 9] 9 18 _ _ _ _ _ _ _ _ _ _ _ _ _ _ _ _ _) as [Hrun _];
    lazymatch goal with
    | |- config_put_of _ = _ => idtac
    | |- _ ∧ _ => split; [discriminate | simpl; lia]
    | |- (_ < _)%nat => simpl; lia
    | |- exactly_divided _ => repeat constructor; vm_compute; discriminate
    | |- _ => exact eq_refl
    end.
  rewrite Hrun. reflexivity.
Defined.

(** Beyond [2^53] the quotient is rounded to a double: the counts
    18014398509481986, 2, 0 have the greatest common divisor 2, and the
    first weight is 9007199254740992, one less than the quotient. A
    quotient of [2^1024] or more raises [OverflowError]. *)
Example quotient_beyond_2_53 :
  rebalance [18014398509481986; 2; 0] [5; 3; 2] = mret [9007199254740992; 1; 0]
  ∧ 18014398509481986 ÷ 2 = 9007199254740993
  ∧ int_truediv (2 ^ 1024) 1 = raise OverflowError.
Proof. split; [|split]; vm_compute; reflexivity. Qed.

(** C4, as the spec has it, fails: when the last backend with an instance
    reports 0 and the desired capacity is 0, the counts are 0, 0, 0 and the
    weights 5, 3, 2 that were in the table stay there. *)
Lemma zero_counts_keep_weights :
  config_put_of (handle_endpoint_status_change env_emptying event_emptying).1
    = Some (sample_config [5; 3; 2] [0; 0; 0])
  ∧ (handle_endpoint_status_change env_emptying event_emptying).2 = Response200
  ∧ outcome (rebalance [0; 0; 0] [5; 3; 2]) = inr [5; 3; 2]
  ∧ outcome (rebalance [0; 0; 0] [5; 3; 2]) ≠ inr [1; 0; 0].
Proof.
  split; [vm_compute; reflexivity|]. split; [vm_compute; reflexivity|].
  split; [vm_compute; reflexivity|]. vm_compute. discriminate.
Qed.

Lemma stored_lookup_ne env state key :
  key ≠ "id"%string → key ≠ "lastModified"%string →
  stored env state !! key = state !! key.
Proof. intros. unfold stored. by rewrite !lookup_insert_ne. Qed.

(** C8: when an [IN_SERVICE] event has been handled and has left the state
    [Successful] (the sum of the counts is the desired capacity), handling
    the same event again on the table the first handling left answers 200,
    puts the same configuration and puts the state with nothing changed but
    [id] and [lastModified]: the status is still [Successful] and the
    capacities are those of the first handling. *)
Theorem in_service_idempotent env1 env2 detail calls1 config1 state1 :
  EndpointStatus detail = Some "IN_SERVICE"%string →
  handle_endpoint_status_change env1 detail = (calls1, Response200) →
  config_put_of calls1 = Some config1 →
  state_put_of calls1 = Some state1 →
  state1 !! "scalingStatus" = Some Successful →
  get_config env2 = Returned (Some config1) →
  get_state env2 = Returned (Some state1) →
  put_config env2 = Returned tt →
  handle_endpoint_status_change env2 detail
    = ([PutConfig config1; PutState (stored env2 state1)], Response200)
  ∧ stored env2 state1 !! "scalingStatus" = Some Successful
  ∧ stored env2 state1 !! "desiredCapacity" = state1 !! "desiredCapacity"
  ∧ stored env2 state1 !! "actualCapacity" = state1 !! "actualCapacity".
Proof.
  intros Hstatus Hfirst Hconfig1 Hstate1 Hconverged Hget_config Hget_state Hput.
  split; [|by rewrite !stored_lookup_ne].
  assert (handle env1 detail = (calls1, inr tt)) as Hrun.
  { revert Hfirst. unfold handle_endpoint_status_change.
    destruct (handle env1 detail) as [calls [e|[]]]; [done|]. by intros [= <-]. }
  clear Hfirst. revert Hrun. unfold handle, get_server_config.
  destruct (get_config env1) as [[config|]|? ? ?|?]; try done.
  destruct (config_lists config) as [[servers counts0] weights0] eqn:Hlists.
  rewrite bind_ret.
  destruct (EndpointName detail) as [endpoint_name|] eqn:Hname; [|done].
  rewrite bind_ret.
  destruct (read_state env1 !! "resourceName") as [[?|resourceName]|] eqn:Hresource;
    try done.
  rewrite bind_ret.
  destruct (contains endpoint_name resourceName) eqn:Hcontains.
  2:{ intros [= <-]. done. }
  rewrite Hstatus, bool_decide_eq_true_2 by done.
  unfold in_service, subscript, Scaling.index.
  destruct (split "-" endpoint_name !! 1%nat) as [server|] eqn:Hserver; [|done].
  rewrite bind_ret.
  destruct (index_from 0 servers server) as [index|] eqn:Hindex; [|done].
  rewrite bind_ret.
  destruct (ProductionVariants detail) as [variants|] eqn:Hvariants; [|done].
  rewrite bind_ret.
  destruct (variants !! 0%nat) as [reported|] eqn:Hreported; [|done].
  rewrite bind_ret.
  destruct (counts0 !! index) as [old|] eqn:Hold; [|done].
  rewrite bind_ret.
  destruct reported as [count|]; [|done].
  rewrite bind_ret.
  set (counts := <[index:=count]> counts0).
  set (state' := <["actualCapacity" := VNum (sum counts)]> (read_state env1)).
  destruct (state' !! "desiredCapacity") as [[desired|?]|] eqn:Hdesired.
  2:{ by rewrite (getitem_Some _ _ _ Hdesired), bind_ret. }
  2:{ by rewrite (getitem_None _ _ Hdesired). }
  rewrite (getitem_Some _ _ _ Hdesired), bind_ret. unfold number. rewrite bind_ret.
  assert (∀ (weights : list Z) (status : Value) calls,
    status ≠ Successful →
    (calls, inr tt) = (update_server_config env1 servers weights counts
                       ≫= λ _, write_state env1 (<["scalingStatus" := status]> state')) →
    ∀ item, state_put_of calls = Some item → item !! "scalingStatus" ≠ Some Successful)
    as Hother.
  { intros weights status calls Hne. unfold update_server_config.
    destruct (put_config env1); try done. intros [= ->] item [= <-].
    unfold write_state. rewrite !lookup_insert_ne by done. rewrite lookup_insert_eq.
    congruence. }
  destruct (bool_decide (desired < sum counts) && bool_decide (0 < count)) eqn:Hdown.
  { destruct (state' !! "variantName") as [[?|variantName]|] eqn:HvariantName.
    - by rewrite (getitem_Some _ _ _ HvariantName), bind_ret.
    - rewrite (getitem_Some _ _ _ HvariantName), bind_ret. unfold text. rewrite bind_ret.
      unfold update_endpoint_weights_and_capacities.
      destruct (sagemaker env1 _ _ _); try done.
      rewrite !bind_assoc, tell_bind. cbn beta. rewrite !bind_ret.
      destruct (_ ≫= _) as [calls [e|[]]] eqn:Hrest; [done|].
      cbn [fst snd]. intros [= <-]. exfalso.
      by apply (Hother weights0 InProgress calls ltac:(done) (eq_sym Hrest) state1).
    - by rewrite (getitem_None _ _ HvariantName). }
  destruct (decide (desired = sum counts)) as [Hequal|Hequal];
    [rewrite bool_decide_eq_true_2 by done | rewrite bool_decide_eq_false_2 by done].
  2:{ rewrite bind_ret. intros Hrun. exfalso.
      by apply (Hother weights0 InProgress calls1 ltac:(done) (eq_sym Hrun) state1). }
  clear Hother.
  destruct (rebalance counts weights0) as [w [e|weights']] eqn:Hrebalance.
  { pose proof (rebalance_silent counts weights0) as Hsilent.
    rewrite Hrebalance in Hsilent. unfold emitted in Hsilent. simpl in Hsilent. by subst w. }
  pose proof (rebalance_silent counts weights0) as Hsilent.
  rewrite Hrebalance in Hsilent. unfold emitted in Hsilent. simpl in Hsilent. subst w.
  change ((([] : list Call), inr weights') : M (list Z)) with (mret (M := M) weights').
  rewrite !bind_ret. unfold update_server_config.
  destruct (put_config env1); try done.
  intros [= <-]. simpl in Hconfig1, Hstate1.
  injection Hconfig1 as <-. injection Hstate1 as <-.
  set (state1 := <["lastModified" := VNum (time_ms env1)]> _) in *.
  assert (state1 !! "resourceName" = Some (VStr resourceName)) as Hresource1.
  { unfold state1, state'. by rewrite !lookup_insert_ne. }
  assert (state1 !! "desiredCapacity" = Some (VNum desired)) as Hdesired1.
  { unfold state1. by rewrite !lookup_insert_ne. }
  assert (state1 !! "actualCapacity" = Some (VNum desired)) as Hactual1.
  { unfold state1, state'. rewrite !lookup_insert_ne by done.
    by rewrite lookup_insert_eq, Hequal. }
  assert (index < length counts)%nat as Hrange.
  { unfold counts. rewrite length_insert. by apply lookup_lt_Some in Hold. }
  unfold handle_endpoint_status_change.
  rewrite (handle_in_service env2 detail _ state1 servers counts weights'
             endpoint_name resourceName server index variants count desired
             Hget_config eq_refl Hget_state Hname Hstatus Hresource1 Hcontains
             Hserver Hindex Hvariants Hreported Hrange Hdesired1).
  assert (<[index:=count]> counts = counts) as Hsame.
  { apply list_insert_id. unfold counts. apply list_lookup_insert_eq.
    by apply lookup_lt_Some in Hold. }
  cbn zeta. rewrite !Hsame, <- Hequal.
  rewrite (bool_decide_eq_false_2 (desired < desired)) by lia.
  rewrite andb_false_l, bool_decide_eq_true_2 by done.
  rewrite (rebalance_idemp counts weights0 weights') by by rewrite Hrebalance.
  rewrite !bind_ret. unfold update_server_config. rewrite Hput.
  rewrite (insert_id state1 "actualCapacity") by done.
  rewrite (insert_id state1 "scalingStatus") by done.
  reflexivity.
Qed.

(** The first handling of the sample event. *)
Lemma converging_run :
  handle_endpoint_status_change env_converging event_converging
    = ([PutConfig (sample_config [2; 3; 1] [6; 9; 3]); PutState state_converged],
       Response200).
Proof. vm_compute. reflexivity. Qed.

Lemma in_service_idempotent_witness :
  handle_endpoint_status_change env_converged event_converging
    = ([PutConfig (sample_config [2; 3; 1] [6; 9; 3]);
        PutState (stored env_converged state_converged)], Response200)
  ∧ stored env_converged state_converged !! "scalingStatus" = Some Successful.
Proof.
  unshelve epose proof (in_service_idempotent env_converging env_converged
    event_converging _ (sample_config [2; 3; 1] [6; 9; 3]) state_converged
    _ converging_run _ _ _ _ _ _) as (Hrun & Hstatus & _);
    lazymatch goal with
    | |- _ ∧ _ => idtac
    | |- _ !! _ = _ => vm_compute; reflexivity
    | |- _ => exact eq_refl
    end.
  split; [exact Hrun | exact Hstatus].
Defined.

End EndpointStateFacts.

(** ** router-lambda.py: what the selector returns and raises *)

Module RouterSelectionFacts.
Import Router RouterSamples RouterFacts RouterHandlerSamples.

Lemma get_server_config_lists env log servers weights :
  get_server_config env = (log, inr (servers, weights)) →
  servers ≠ [] ∧ weights ≠ [] ∧ length servers = length weights.
Proof.
  unfold get_server_config.
  destruct (get_item env) as [[config|]|? ? ?|?]; try done.
  - destruct (_ || _) eqn:Hvalid; [done|]. intros [= _ <- <-].
    apply orb_false_elim in Hvalid as [Hvalid Hlen].
    apply orb_false_elim in Hvalid as [Hs Hw].
    apply bool_decide_eq_false in Hs, Hw.
    apply negb_false_iff, bool_decide_eq_true in Hlen. done.
  - destruct (put_item env); try done. by intros [= _ <- <-].
Qed.

(** The index the loop returns carries a positive weight. *)
Lemma walk_positive weights position i :
  1 ≤ position → walk position 0 (enumerate weights) = Some i →
  ∃ w, weights !! i = Some w ∧ 0 < w.
Proof.
  intros Hpos Hwalk. destruct (walk_first _ _ _ Hwalk) as (Hlt & Hreach & Hbefore).
  destruct (lookup_lt_is_Some_2 weights i Hlt) as [w Hw]. exists w. split; [done|].
  rewrite (cumulative_S _ _ _ Hw) in Hreach. destruct i as [|i].
  - unfold cumulative in Hreach. rewrite take_0 in Hreach. unfold sum in Hreach.
    simpl in Hreach. lia.
  - specialize (Hbefore i ltac:(lia)). lia.
Qed.

(** X1: whatever [get_next_server] returns is a server of the stored
    configuration, at an index whose weight is positive; it has the
    invocation's request id and no warning. *)
Theorem selected_server_has_positive_weight env log servers weights sel :
  get_server_config env = (log, inr (servers, weights)) →
  outcome (get_next_server env) = inr sel →
  ∃ i w, servers !! i = Some (server sel) ∧ weights !! i = Some w ∧ 0 < w
         ∧ request_id sel = uuid4 env ∧ warning sel = None.
Proof.
  intros Hcfg. destruct (get_server_config_lists _ _ _ _ Hcfg) as (_ & _ & Hlen).
  destruct (get_next_server_selects _ _ _ _ Hcfg) as (log' & n & -> & _ & _).
  unfold outcome. simpl. unfold select_server.
  case_bool_decide as Htotal; [done|].
  destruct (walk_is_Some (n `mod` sum weights + 1) 0 weights 0) as [i Hi].
  { pose proof (Z.mod_pos_bound n (sum weights)). lia. }
  fold (enumerate weights) in Hi. rewrite Hi.
  destruct (walk_positive weights (n `mod` sum weights + 1) i) as (w & Hw & Hpos); [|done|].
  { pose proof (Z.mod_pos_bound n (sum weights)). lia. }
  destruct (lookup_lt_is_Some_2 servers i) as [s Hs].
  { rewrite Hlen. by apply lookup_lt_Some in Hw. }
  unfold subscript. rewrite Hs. simpl. intros [= <-]. by exists i, w.
Qed.


Lemma selected_server_has_positive_weight_witness :
  ∃ i w, default_servers !! i = Some "server2"%string
         ∧ default_weights !! i = Some w ∧ 0 < w.
Proof.
  destruct (selected_server_has_positive_weight env_exact _ default_servers default_weights
              {| server := "server2"; request_id := "7f3c"; request_count := 8;
                 warning := None |} eq_refl eq_refl)
    as (i & w & Hserver & Hweight & Hpositive & _).
  by exists i, w.
Defined.

Lemma sum_nonneg (l : list Z) : Forall (λ x, 0 ≤ x) l → 0 ≤ sum l.
Proof. induction 1; [done|]. rewrite sum_cons. lia. Qed.

Lemma sum_take_drop (l : list Z) n : sum l = sum (take n l) + sum (drop n l).
Proof. by rewrite <- sum_app, take_drop. Qed.

Lemma cumulative_bounds weights n :
  Forall (λ x, 0 ≤ x) weights → 0 ≤ cumulative weights n ≤ sum weights.
Proof.
  intros Hw. unfold cumulative. rewrite (sum_take_drop weights n).
  pose proof (sum_nonneg (take n weights) (Forall_take _ _ _ Hw)).
  pose proof (sum_nonneg (drop n weights) (Forall_drop _ _ _ Hw)). lia.
Qed.

(** With weights that are not negative, the loop returns the index whose
    bucket holds the position. *)
Lemma walk_bucket position l : ∀ cum i k,
  Forall (λ x, 0 ≤ x) l → (k < length l)%nat →
  cum + sum (take k l) < position ≤ cum + sum (take (S k) l) →
  walk position cum (enumerate_from i l) = Some (i + k)%nat.
Proof.
  induction l as [|w l IH]; intros cum i k Hl Hk Hpos; [simpl in Hk; lia|].
  inversion Hl as [|? ? Hw Hl']; subst. cbn [enumerate_from walk].
  destruct k as [|k].
  - rewrite take_0 in Hpos. change (take 1 (w :: l)) with [w] in Hpos.
    unfold sum in Hpos. simpl in Hpos.
    rewrite bool_decide_eq_true_2 by lia. f_equal. lia.
  - change (take (S k) (w :: l)) with (w :: take k l) in Hpos.
    change (take (S (S k)) (w :: l)) with (w :: take (S k) l) in Hpos.
    rewrite !sum_cons in Hpos.
    pose proof (sum_nonneg (take k l) (Forall_take _ _ _ Hl')).
    rewrite bool_decide_eq_false_2 by lia.
    rewrite (IH (cum + w) (S i) k); [f_equal; lia | done | simpl in Hk; lia | lia].
Qed.

Lemma walk_bucket_iff weights position i :
  Forall (λ x, 0 ≤ x) weights → 1 ≤ position → (i < length weights)%nat →
  walk position 0 (enumerate weights) = Some i
  ↔ cumulative weights i < position ≤ cumulative weights (S i).
Proof.
  intros Hw Hpos Hi. split.
  - intros Hwalk. destruct (walk_first _ _ _ Hwalk) as (_ & Hreach & Hbefore).
    split; [|done]. destruct i as [|i].
    + unfold cumulative. rewrite take_0. unfold sum. simpl. lia.
    + apply Hbefore. lia.
  - intros Hbucket. unfold enumerate, cumulative in *.
    by rewrite (walk_bucket position weights 0 0 i).
Qed.

Lemma filter_none {A} (P : A → Prop) `{∀ x, Decision (P x)} (l : list A) :
  Forall (λ x, ¬ P x) l → filter P l = [].
Proof. induction 1; [done|]. by rewrite filter_cons_False. Qed.

Lemma filter_all {A} (P : A → Prop) `{∀ x, Decision (P x)} (l : list A) :
  Forall P l → filter P l = l.
Proof. induction 1; [done|]. rewrite filter_cons_True by done. by f_equal. Qed.

Lemma filter_fmap_length {A B} (f : A → B) (P : B → Prop) `{∀ x, Decision (P x)}
    (l : list A) :
  length (filter P (f <$> l)) = length (filter (λ x, P (f x)) l).
Proof.
  induction l as [|x l IH]; [done|]. rewrite fmap_cons, !filter_cons.
  destruct (decide (P (f x))); simpl; by rewrite IH.
Qed.

(** How many of the values [0 .. n-1] a predicate that holds on [a .. b-1]
    keeps. *)
Lemma count_window (P : Z → Prop) `{∀ x, Decision (P x)} a b n :
  0 ≤ a ≤ b → b ≤ n →
  (∀ c, 0 ≤ c < n → P c ↔ a ≤ c < b) →
  length (filter P (seqZ 0 n)) = Z.to_nat (b - a).
Proof.
  intros Hab Hbn HP.
  replace n with (a + ((b - a) + (n - b))) by lia.
  rewrite seqZ_app by lia. rewrite seqZ_app by lia.
  rewrite !list.filter_app, !length_app.
  rewrite (filter_none P (seqZ 0 a)).
  2:{ apply Forall_seqZ. intros c Hc. rewrite HP by lia. lia. }
  rewrite (filter_all P (seqZ (0 + a) (b - a))).
  2:{ apply Forall_seqZ. intros c Hc. rewrite HP by lia. lia. }
  rewrite (filter_none P (seqZ _ (n - b))).
  2:{ apply Forall_seqZ. intros c Hc. rewrite HP by lia. lia. }
  rewrite length_seqZ. simpl. lia.
Qed.

(** Over the counter values [0] to [total - 1] each backend is selected as
    many times as its weight. *)
Lemma first_cycle weights i w :
  Forall (λ x, 0 ≤ x) weights → 0 < sum weights → weights !! i = Some w →
  length (filter (λ c, walk (c `mod` sum weights + 1) 0 (enumerate weights) = Some i)
            (seqZ 0 (sum weights)))
    = Z.to_nat w.
Proof.
  intros Hweights Htotal Hi.
  rewrite (count_window _ (cumulative weights i) (cumulative weights (S i)) (sum weights)).
  - rewrite (cumulative_S _ _ _ Hi). f_equal. lia.
  - rewrite (cumulative_S _ _ _ Hi).
    pose proof (cumulative_bounds weights i Hweights).
    apply (Forall_lookup_1 _ _ _ _ Hweights) in Hi. lia.
  - apply cumulative_bounds, Hweights.
  - intros c Hc. rewrite Z.mod_small by lia.
    rewrite walk_bucket_iff; [lia | done | lia |].
    by apply lookup_lt_Some in Hi.
Qed.

(** X2: with weights that are not negative, over every full cycle of counter
    values, [k * total] to [(k + 1) * total - 1], each backend is selected
    exactly as many times as its weight. *)
Theorem full_cycle_frequency weights i w k :
  Forall (λ x, 0 ≤ x) weights → 0 < sum weights → weights !! i = Some w →
  length (filter (λ c, walk (c `mod` sum weights + 1) 0 (enumerate weights) = Some i)
            (seqZ (k * sum weights) (sum weights)))
    = Z.to_nat w.
Proof.
  intros Hweights Htotal Hi.
  rewrite <- (Z.add_0_r (k * sum weights)), <- fmap_add_seqZ.
  rewrite filter_fmap_length.
  rewrite <- (first_cycle weights i w Hweights Htotal Hi).
  f_equal. apply list_filter_iff. intros c.
  by rewrite (Z.add_comm (k * sum weights) c), Z.mod_add by lia.
Qed.

Lemma full_cycle_frequency_witness :
  length (filter (λ c, walk (c `mod` sum [2; 0; 3] + 1) 0 (enumerate [2; 0; 3]) = Some 2%nat)
            (seqZ (4 * sum [2; 0; 3]) (sum [2; 0; 3])))
    = Z.to_nat 3.
Proof.
  apply (full_cycle_frequency [2; 0; 3] 2 3 4).
  - repeat constructor; lia.
  - vm_compute. reflexivity.
  - reflexivity.
Defined.


(** With a positive total and a server per weight, the selector returns
    from inside its loop. *)
Lemma select_server_total servers weights n uuid :
  0 < sum weights → length servers = length weights →
  ∃ i s, walk (n `mod` sum weights + 1) 0 (enumerate weights) = Some i
         ∧ servers !! i = Some s
         ∧ select_server servers weights n uuid
             = ([], inr {| server := s; request_id := uuid;
                           request_count := n + 1; warning := None |}).
Proof.
  intros Htotal Hlen. unfold select_server. rewrite bool_decide_eq_false_2 by lia.
  destruct (walk_is_Some (n `mod` sum weights + 1) 0 weights 0) as [i Hi].
  { pose proof (Z.mod_pos_bound n (sum weights)). lia. }
  fold (enumerate weights) in Hi. rewrite Hi.
  destruct (walk_first _ _ _ Hi) as (Hlt & _ & _).
  destruct (lookup_lt_is_Some_2 servers i) as [s Hs]; [lia|].
  exists i, s. unfold subscript. by rewrite Hs.
Qed.

Lemma get_server_config_error_status env log e :
  get_server_config env = (log, inl e) → status_code e = 500.
Proof.
  unfold get_server_config.
  destruct (get_item env) as [[config|]|? ? ?|?].
  - destruct (_ || _); [|done]. by intros [= _ <-].
  - destruct (put_item env); try done; by intros [= _ <-].
  - by intros [= _ <-].
  - by intros [= _ <-].
Qed.

Lemma get_next_server_error_status env e :
  outcome (get_next_server env) = inl e → status_code e = 500.
Proof.
  destruct (get_server_config env) as [log [e'|[servers weights]]] eqn:Hcfg.
  - rewrite (get_next_server_config_error _ _ _ Hcfg). intros [= ->].
    by apply get_server_config_error_status in Hcfg.
  - destruct (get_next_server_selects _ _ _ _ Hcfg) as (log' & n & -> & _ & _).
    destruct (get_server_config_lists _ _ _ _ Hcfg) as (_ & _ & Hlen).
    unfold outcome. simpl. unfold select_server. case_bool_decide as Htotal.
    + by intros [= <-].
    + destruct (select_server_total servers weights n (uuid4 env)) as (i & s & _ & _ & Hsel);
        [lia | done |].
      unfold select_server in Hsel. rewrite bool_decide_eq_false_2 in Hsel by done.
      by rewrite Hsel.
Qed.

(** X3: on a stored configuration with a positive total weight,
    [get_next_server] returns a selection whatever the counter collaborator
    does: a server of the configuration, with the counter value (the previous
    count, 0 for a counter that did not exist, the fallback after a failure)
    plus one as request count. *)
Theorem routing_survives_counter_failure env log servers weights :
  get_server_config env = (log, inr (servers, weights)) →
  0 < sum weights →
  ∃ sel, outcome (get_next_server env) = inr sel
         ∧ request_count sel = counter_value env + 1
         ∧ server sel ∈ servers.
Proof.
  intros Hcfg Htotal.
  destruct (get_server_config_lists _ _ _ _ Hcfg) as (_ & _ & Hlen).
  destruct (get_next_server_selects _ _ _ _ Hcfg) as (log' & n & -> & -> & _).
  fold (counter_value env).
  destruct (select_server_total servers weights (counter_value env) (uuid4 env) Htotal Hlen)
    as (i & s & _ & Hs & ->).
  eexists. split; [done|]. split; [done|]. simpl.
  by apply list_elem_of_lookup_2 in Hs.
Qed.

Lemma routing_survives_counter_failure_witness :
  ∃ sel, outcome (get_next_server env_degraded) = inr sel
         ∧ request_count sel = counter_value env_degraded + 1
         ∧ server sel ∈ default_servers.
Proof.
  apply (routing_survives_counter_failure env_degraded [] default_servers default_weights).
  - reflexivity.
  - vm_compute. reflexivity.
Defined.

(** X4: every error of [get_next_server] has status 500 and comes from the
    configuration: the [ClientError] of its [get_item], a configuration that
    could not be read, was invalid or could not be bootstrapped, or weights
    whose total is not positive. An error of the counter never surfaces. *)
Theorem get_next_server_errors env e :
  outcome (get_next_server env) = inl e →
  status_code e = 500
  ∧ details e !! "fallback_count"%string = None
  ∧ ((∃ error_code error_message text,
         get_item env = RaisedClientError error_code error_message text
         ∧ message e = "DynamoDB error: " +:+ error_code)
     ∨ (message e = "Failed to retrieve server configuration"%string
        ∧ ∀ config, get_item env = Returned (Some config) →
            default [] (cfg_servers config) = [] ∨ default [] (cfg_weights config) = []
            ∨ length (default [] (cfg_servers config))
                ≠ length (default [] (cfg_weights config)))
     ∨ (message e = "Invalid server weights configuration"%string
        ∧ ∃ log servers weights,
            get_server_config env = (log, inr (servers, weights)) ∧ sum weights ≤ 0)).
Proof.
  destruct (get_server_config env) as [log [e'|[servers weights]]] eqn:Hcfg.
  - rewrite (get_next_server_config_error _ _ _ Hcfg). intros [= ->].
    revert Hcfg. unfold get_server_config.
    destruct (get_item env) as [[config|]|code msg text|text] eqn:Hget.
    + destruct (_ || _) eqn:Hvalid; [|done]. intros [= _ <-]. simpl.
      split; [done|]. split; [done|]. right. left. split; [done|].
      intros ? [= <-].
      apply orb_true_iff in Hvalid as [Hvalid|Hlen].
      * apply orb_true_iff in Hvalid as [Hs|Hw].
        -- left. by apply bool_decide_eq_true in Hs.
        -- right. left. by apply bool_decide_eq_true in Hw.
      * right. right. by apply negb_true_iff, bool_decide_eq_false in Hlen.
    + destruct (put_item env); try done; intros [= _ <-]; simpl;
        (split; [done|]); (split; [done|]); right; left; by split.
    + intros [= _ <-]. simpl. split; [done|]. split; [done|]. left. by eexists _, _, _.
    + intros [= _ <-]. simpl. split; [done|]. split; [done|]. right. left. by split.
  - destruct (get_next_server_selects _ _ _ _ Hcfg) as (log' & n & -> & _ & _).
    unfold outcome. simpl.
    destruct (get_server_config_lists _ _ _ _ Hcfg) as (_ & _ & Hlen).
    unfold select_server. case_bool_decide as Htotal.
    + intros [= <-]. simpl. split; [done|]. split; [done|]. right. right.
      split; [done|]. by eexists _, _, _.
    + destruct (walk_is_Some (n `mod` sum weights + 1) 0 weights 0) as [i Hi].
      { pose proof (Z.mod_pos_bound n (sum weights)). lia. }
      fold (enumerate weights) in Hi. rewrite Hi.
      destruct (walk_first _ _ _ Hi) as (Hlt & _ & _).
      destruct (lookup_lt_is_Some_2 servers i) as [s Hs]; [lia|].
      unfold subscript. by rewrite Hs.
Qed.

Lemma get_next_server_errors_witness :
  ∃ e, outcome (get_next_server env_zero_weights) = inl e
       ∧ status_code e = 500
       ∧ details e !! "fallback_count"%string = None.
Proof.
  eexists. split; [reflexivity|].
  destruct (get_next_server_errors env_zero_weights _ eq_refl) as (Hcode & Hcounter & _).
  split; [exact Hcode | exact Hcounter].
Defined.

End RouterSelectionFacts.

(** ** router-lambda.py: the configuration update and the handler *)

Module RouterApiFacts.
Import Router RouterSamples RouterFacts RouterSelectionFacts RouterApi RouterHandlerSamples.

Lemma check_weights_passes servers l :
  Forall (λ p, 0 ≤ p.2) l → check_weights servers l = mret tt.
Proof.
  induction 1 as [|[i weight] l Hw _ IH]; [done|]. simpl in *.
  by rewrite bool_decide_eq_false_2 by lia.
Qed.

Lemma check_weights_fails servers l :
  ¬ Forall (λ p, 0 ≤ p.2) l → Forall (λ p, is_Some (servers !! p.1)) l →
  ∃ e, check_weights servers l = ([], inl (Balancer e)) ∧ status_code e = 400.
Proof.
  induction l as [|[i weight] l IH]; intros Hneg Hin; [by destruct Hneg|].
  inversion Hin as [|? ? [s Hs] Hin']; subst. simpl in *.
  case_bool_decide.
  - rewrite Hs. by eexists.
  - apply IH; [|done]. intros Hl. apply Hneg. constructor; [simpl; lia|done].
Qed.

Lemma enumerate_from_weights {A} (P : A → Prop) i (l : list A) :
  Forall (λ p, P p.2) (enumerate_from i l) ↔ Forall P l.
Proof.
  revert i. induction l as [|x l IH]; intros i; simpl.
  - split; constructor.
  - split; inversion 1; subst; constructor; try done; by apply (IH (S i)).
Qed.

Lemma enumerate_from_indices {A B} i (l : list A) (k : list B) :
  (i + length l ≤ length k)%nat →
  Forall (λ p, is_Some (k !! p.1)) (enumerate_from i l).
Proof.
  revert i. induction l as [|x l IH]; intros i Hlen; simpl in *; constructor.
  - simpl. apply lookup_lt_is_Some. lia.
  - apply IH. lia.
Qed.

Lemma update_server_config_accepted put timestamp servers weights :
  acceptable servers weights →
  update_server_config put timestamp servers weights
    = tell (PutItem servers weights timestamp) ≫= λ _,
      match put with
      | Returned _ =>
          mret {| upd_servers := servers; upd_weights := weights;
                  updated_at := timestamp |}
      | RaisedClientError error_code error_message text =>
          _ ← tell (Logged (LogError ("DynamoDB error updating server config: " +:+ text)));
          raise (Balancer (mkLoadBalancerError
                   ("Failed to update configuration: " +:+ error_code) 500
                   {[ "error_code"%string := DStr error_code;
                      "error_message"%string := DStr error_message ]}))
      | RaisedOther text =>
          _ ← tell (Logged (LogError ("Unexpected error updating server config: " +:+ text)));
          raise (Balancer (mkLoadBalancerError "Failed to update server configuration" 500
                   {[ "error"%string := DStr text ]}))
      end.
Proof.
  intros (Hs & Hw & Hlen & Hpos). unfold update_server_config.
  rewrite (bool_decide_eq_false_2 (servers = [])) by done.
  rewrite (bool_decide_eq_false_2 (weights = [])) by done.
  rewrite (bool_decide_eq_true_2 (length servers = length weights)) by done. simpl.
  rewrite check_weights_passes
    by by apply (enumerate_from_weights (λ weight, 0 ≤ weight)).
  by rewrite bind_ret.
Qed.

Lemma update_server_config_rejected put timestamp servers weights :
  ¬ acceptable servers weights →
  ∃ e, update_server_config put timestamp servers weights = ([], inl (Balancer e))
       ∧ status_code e = 400.
Proof.
  unfold acceptable, update_server_config. intros Hnot.
  destruct (decide (servers = [])) as [->|Hs]; [by eexists|].
  destruct (decide (weights = [])) as [->|Hw].
  { rewrite (bool_decide_eq_false_2 (servers = [])) by done. by eexists. }
  rewrite (bool_decide_eq_false_2 (servers = [])) by done.
  rewrite (bool_decide_eq_false_2 (weights = [])) by done. simpl.
  destruct (decide (length servers = length weights)) as [Hlen|Hlen].
  2:{ rewrite bool_decide_eq_false_2 by done. by eexists. }
  rewrite bool_decide_eq_true_2 by done. simpl.
  destruct (check_weights_fails servers (enumerate weights)) as (e & -> & Hcode).
  + unfold enumerate. intros Hall.
    apply (enumerate_from_weights (λ weight, 0 ≤ weight)) in Hall. tauto.
  + apply enumerate_from_indices. simpl. lia.
  + by exists e.
Qed.

(** X5: [update_server_config] takes a configuration exactly when both lists
    are non-empty, of the same length, and no weight is negative. It then
    puts the two lists as they are and, when the store takes them, returns
    them; otherwise it raises with status 400 before anything is put. *)
Theorem update_server_config_validates put timestamp servers weights :
  (acceptable servers weights →
   emitted (update_server_config put timestamp servers weights) !! 0%nat
     = Some (PutItem servers weights timestamp)
   ∧ (put = Returned tt →
      update_server_config put timestamp servers weights
        = ([PutItem servers weights timestamp],
           inr {| upd_servers := servers; upd_weights := weights;
                  updated_at := timestamp |})))
  ∧ (¬ acceptable servers weights →
     ∃ e, update_server_config put timestamp servers weights = ([], inl (Balancer e))
          ∧ status_code e = 400).
Proof.
  split.
  - intros Hok. rewrite (update_server_config_accepted _ _ _ _ Hok), tell_bind.
    split; [done|]. by intros ->.
  - apply update_server_config_rejected.
Qed.

(** X6: a configuration that [update_server_config] has stored is read back
    as it was given; the selector then returns one of its servers when the
    total weight is positive, and raises "Invalid server weights
    configuration" for every request when all the weights are 0, which the
    update accepts. *)
Theorem updated_configuration_round_trip put timestamp servers weights u env :
  outcome (update_server_config put timestamp servers weights) = inr u →
  get_item env = Returned (Some (item_of (upd_servers u) (upd_weights u))) →
  upd_servers u = servers ∧ upd_weights u = weights
  ∧ get_server_config env = ([], inr (servers, weights))
  ∧ 0 ≤ sum weights
  ∧ (0 < sum weights →
     ∃ sel, outcome (get_next_server env) = inr sel ∧ server sel ∈ servers)
  ∧ (sum weights = 0 →
     ∃ e, outcome (get_next_server env) = inl e
          ∧ message e = "Invalid server weights configuration"%string).
Proof.
  intros Hupdate Hget.
  destruct (decide (acceptable servers weights)) as [Hok|Hbad].
  2:{ destruct (update_server_config_rejected put timestamp servers weights Hbad)
        as (e & Hraise & _). by rewrite Hraise in Hupdate. }
  assert (upd_servers u = servers ∧ upd_weights u = weights) as [Hus Huw].
  { revert Hupdate. rewrite (update_server_config_accepted _ _ _ _ Hok), tell_bind.
    destruct put; try done. by intros [= <-]. }
  rewrite Hus, Huw in Hget. destruct Hok as (Hs & Hw & Hlen & Hpos).
  split; [done|]. split; [done|].
  assert (get_server_config env = ([], inr (servers, weights))) as Hcfg.
  { unfold get_server_config. rewrite Hget. simpl.
    rewrite (bool_decide_eq_false_2 (servers = [])) by done.
    rewrite (bool_decide_eq_false_2 (weights = [])) by done.
    by rewrite (bool_decide_eq_true_2 (length servers = length weights)) by done. }
  split; [done|]. split; [by apply sum_nonneg|].
  destruct (get_next_server_selects _ _ _ _ Hcfg) as (log' & n & -> & _ & _).
  unfold outcome. simpl. split.
  - intros Htotal.
    destruct (select_server_total servers weights n (uuid4 env) Htotal Hlen)
      as (i & s & _ & Hi & ->).
    eexists. split; [done|]. simpl. by apply list_elem_of_lookup_2 in Hi.
  - intros Hzero. unfold select_server.
    rewrite bool_decide_eq_true_2 by lia. by eexists.
Qed.

Lemma updated_configuration_round_trip_witness :
  get_server_config env_updated = ([], inr (["a"; "b"]%string, [0; 4])).
Proof.
  apply (updated_configuration_round_trip (Returned tt) "1700000000.0"
           ["a"; "b"]%string [0; 4]
           {| upd_servers := ["a"; "b"]%string; upd_weights := [0; 4];
              updated_at := "1700000000.0" |} env_updated eq_refl eq_refl).
Defined.


(** *** The handler *)

Lemma copy_allowed_lookup request_headers allowed : ∀ headers k,
  copy_allowed request_headers headers allowed !! k
    = if decide (k ∈ allowed)
      then match request_headers !! k with
           | Some v => Some v
           | None => headers !! k
           end
      else headers !! k.
Proof.
  induction allowed as [|h allowed IH]; intros headers k; cbn [copy_allowed].
  - by rewrite decide_False by apply not_elem_of_nil.
  - destruct (request_headers !! h) as [v|] eqn:Hh; rewrite IH.
    + destruct (decide (k = h)) as [->|Hne].
      * rewrite (decide_True (P := h ∈ h :: allowed)) by by left.
        rewrite Hh, lookup_insert_eq. by case_decide.
      * rewrite lookup_insert_ne by done.
        destruct (decide (k ∈ allowed)).
        -- by rewrite decide_True by by right.
        -- rewrite decide_False; [done|]. by intros [?|?]%elem_of_cons.
    + destruct (decide (k = h)) as [->|Hne].
      * rewrite (decide_True (P := h ∈ h :: allowed)) by by left.
        rewrite Hh. by case_decide.
      * destruct (decide (k ∈ allowed)).
        -- by rewrite decide_True by by right.
        -- rewrite decide_False; [done|]. by intros [?|?]%elem_of_cons.
Qed.

Lemma check_required_cases event request_headers required :
  (Forall (λ h, is_Some (request_headers !! h)) required
   ∧ check_required event request_headers required = mret tt)
  ∨ (∃ h, h ∈ required ∧ request_headers !! h = None
          ∧ check_required event request_headers required
              = raise (Balancer (mkLoadBalancerError
                         ("Missing required header: " +:+ h) 400
                         {[ "event"%string := DStr (json event) ]}))).
Proof.
  induction required as [|h required IH]; simpl; [by left|].
  case_bool_decide as Hh.
  - right. exists h. split; [by left|]. by split.
  - destruct IH as [[Hall ->]|(h' & Hin & Hnone & ->)].
    + left. split; [|done]. constructor; [|done].
      destruct (request_headers !! h); [by eexists|done].
    + right. exists h'. split; [by right|]. by split.
Qed.

(** X7: whenever the handler calls [invoke_endpoint_async], the request was a
    POST with the required header [InputLocation], the selector returned a
    server, and the call is made on the endpoint named by the path parameter,
    a hyphen and that server, with exactly the allowed headers of the
    request: a header [EndpointName] of the client, or any other header, is
    not passed on. *)
Theorem handler_invocation env invoke event arguments :
  InvokeEndpointAsync arguments ∈ (handler env invoke event).1 →
  httpMethod event = Some "POST"%string
  ∧ ∃ parameters EndpointName request_headers sel,
      pathParameters event = Some parameters
      ∧ parameters !! "EndpointName" = Some EndpointName
      ∧ headers event = Some request_headers
      ∧ is_Some (request_headers !! "InputLocation")
      ∧ outcome (get_next_server env) = inr sel
      ∧ arguments !! "EndpointName" = Some (EndpointName +:+ "-" +:+ server sel)
      ∧ ∀ k, k ≠ "EndpointName"%string →
             arguments !! k
               = if decide (k ∈ allowed_headers) then request_headers !! k else None.
Proof.
  unfold handler. case_bool_decide as Hmethod; [|by intros ?%not_elem_of_nil].
  intros Hin. split; [done|].
  assert (InvokeEndpointAsync arguments ∈ emitted (route env invoke event)) as Hroute.
  { revert Hin. unfold emitted. destruct (route env invoke event) as [effects [[e|text]|[? ?]]];
      simpl; [|  |done].
    - intros [?|Hlast%list_elem_of_singleton]%elem_of_app; [done|done].
    - intros [?|Hlast%list_elem_of_singleton]%elem_of_app; [done|done]. }
  clear Hin. revert Hroute. unfold route.
  destruct (pathParameters event) as [parameters|]; [|by intros ?%not_elem_of_nil].
  rewrite bind_ret.
  destruct (parameters !! "EndpointName") as [EndpointName|] eqn:Hname;
    [|by intros ?%not_elem_of_nil].
  rewrite bind_ret.
  destruct (headers event) as [request_headers|]; [|by intros ?%not_elem_of_nil].
  rewrite bind_ret.
  destruct (check_required_cases event request_headers required_headers)
    as [[Hall ->]|(h & _ & _ & ->)]; [|by intros ?%not_elem_of_nil].
  rewrite bind_ret, tell_bind. unfold emitted. cbn [fst].
  intros [?|Hin]%elem_of_cons; [done|]. revert Hin.
  destruct (get_next_server env) as [log [e|sel]] eqn:Hnext.
  { unfold lift. simpl. intros (? & ? & ?)%list_elem_of_fmap. done. }
  unfold lift. cbn [fst snd].
  rewrite (bind_inr _ _ _ _ eq_refl). cbn [fst snd]. rewrite tell_bind. cbn [fst].
  intros [(? & ? & ?)%list_elem_of_fmap|Hin]%elem_of_app; [done|].
  assert (arguments = <["EndpointName" := EndpointName +:+ "-" +:+ server sel]>
                        (copy_allowed request_headers ∅ allowed_headers)) as ->.
  { apply elem_of_cons in Hin as [[= ->]|Hin]; [done|].
    revert Hin. by destruct (invoke _); intros ?%not_elem_of_nil. }
  exists parameters, EndpointName, request_headers, sel.
  split; [done|]. split; [done|]. split; [done|].
  split; [by inversion Hall|]. split; [done|].
  split; [by rewrite lookup_insert_eq|].
  intros k Hk. rewrite lookup_insert_ne by done. rewrite copy_allowed_lookup.
  case_decide; [|done]. by destruct (request_headers !! k).
Qed.


(** X8: the handler answers 200, 400 or 500. It answers 400 only to a POST
    whose headers lack [InputLocation], and then invokes nothing; and an
    answer that reports an invocation carries the arguments of the call that
    was made, the last effect of the handler, and what the call returned. *)
Theorem handler_status env invoke event :
  let effects := (handler env invoke event).1 in
  let response := (handler env invoke event).2 in
  (statusCode response = 200 ∨ statusCode response = 400 ∨ statusCode response = 500)
  ∧ (statusCode response = 400 →
     httpMethod event = Some "POST"%string
     ∧ (∃ request_headers, headers event = Some request_headers
                           ∧ request_headers !! "InputLocation" = None)
     ∧ ∀ arguments, InvokeEndpointAsync arguments ∉ effects)
  ∧ (∀ text arguments, body response = Invoked text arguments →
     statusCode response = 200
     ∧ invoke arguments = Returned text
     ∧ list.last effects = Some (InvokeEndpointAsync arguments)).
Proof.
  cbn zeta. unfold handler. case_bool_decide as Hmethod.
  2:{ simpl. split; [by left|]. by split. }
  unfold route.
  destruct (pathParameters event) as [parameters|].
  2:{ simpl. split; [by right; right|]. by split. }
  rewrite bind_ret.
  destruct (parameters !! "EndpointName") as [EndpointName|].
  2:{ simpl. split; [by right; right|]. by split. }
  rewrite bind_ret.
  destruct (headers event) as [request_headers|].
  2:{ simpl. split; [by right; right|]. by split. }
  rewrite bind_ret.
  destruct (check_required_cases event request_headers required_headers)
    as [[Hall ->]|(h & Hh & Hnone & ->)].
  2:{ simpl. split; [by right; left|]. split; [|done]. intros _. split; [done|].
      split.
      - apply list_elem_of_singleton in Hh as ->. by exists request_headers.
      - intros arguments [?|?%not_elem_of_nil]%elem_of_cons; done. }
  rewrite bind_ret, tell_bind.
  destruct (get_next_server env) as [log [e|sel]] eqn:Hnext.
  { unfold lift. simpl.
    assert (status_code e = 500) as ->
      by (apply (get_next_server_error_status env); by rewrite Hnext).
    split; [by right; right|]. by split. }
  unfold lift. cbn [fst snd]. rewrite (bind_inr _ _ _ _ eq_refl). cbn [fst snd].
  rewrite tell_bind. cbn [fst snd].
  destruct (invoke _) as [text|? ? ?|?] eqn:Hinvoke; simpl.
  - split; [by left|]. split; [done|]. intros ? ? [= <- <-].
    split; [done|]. split; [done|].
    by rewrite last_cons, last_app.
  - split; [by right; right|]. by split.
  - split; [by right; right|]. by split.
Qed.

Lemma handler_invocation_witness :
  ∃ sel, outcome (get_next_server env_exact) = inr sel
         ∧ "pool-server2"%string = ("pool" +:+ "-" +:+ server sel)%string.
Proof.
  destruct (handler_invocation env_exact accepting event_post
    (<["EndpointName"%string := "pool-server2"%string]>
      {[ "InputLocation"%string := "s3://bucket/payload.csv"%string ]}))
    as (_ & parameters & EndpointName & request_headers & sel
          & Hparameters & Hname & _ & _ & Hsel & Hargument & _).
  - vm_compute. right. left.
  - exists sel. split; [exact Hsel|].
    injection Hparameters as <-. rewrite lookup_singleton_eq in Hname.
    injection Hname as <-. rewrite lookup_insert_eq in Hargument.
    by apply (inj Some).
Defined.

End RouterApiFacts.

(** ** asg-activity-lambda.py: the handler and what the redistributions ask for *)

Module AsgActivityHandlerFacts.
Import Scaling ScalingFacts AsgActivity AsgActivitySamples AsgActivityFacts.
Import AsgActivityHandlerSamples.

Lemma requests_only_silent {A} env (m : M A) : emitted m = [] → requests_only env m.
Proof. intros Hm. unfold requests_only. rewrite Hm. by split. Qed.

Lemma requests_only_bind {A B} env (m : M A) (f : A → M B) :
  requests_only env m → (∀ a, outcome m = inr a → requests_only env (f a)) →
  requests_only env (m ≫= f).
Proof.
  intros [Hm Hma] Hf. unfold requests_only. rewrite emitted_bind.
  destruct m as [w [e|a]]; unfold emitted, outcome in *; simpl in *.
  - rewrite app_nil_r. split; [done|]. done.
  - destruct (Hf a eq_refl) as [Hfa Hfb]. unfold emitted, outcome, mbind, eff_bind in *.
    destruct (f a) as [w' r]. simpl in *. split.
    + by apply Forall_app.
    + intros b ->. apply Forall_app. split; [by apply (Hma a)|by apply (Hfb b)].
Qed.

Lemma requests_only_update_endpoint env endpoint_name variant_name n :
  requests_only env (update_endpoint env endpoint_name variant_name n).
Proof.
  unfold requests_only, update_endpoint, emitted, outcome.
  destruct (sagemaker env endpoint_name variant_name n) as [[]| |] eqn:Hs; simpl;
    (split; [by repeat constructor|]); try done.
  intros _ _. by repeat constructor.
Qed.

Lemma requests_only_endpoint_of env currentState server :
  requests_only env (endpoint_of currentState server).
Proof. apply requests_only_silent, endpoint_of_silent. Qed.

Lemma requests_only_subscript {A} env (l : list A) i :
  requests_only env (subscript l i).
Proof. apply requests_only_silent. unfold subscript. by destruct (l !! i). Qed.

Lemma requests_only_getitem env (d : Item) key : requests_only env (getitem d key).
Proof. apply requests_only_silent. unfold getitem. by destruct (d !! key). Qed.

Lemma requests_only_number env v : requests_only env (number v).
Proof. apply requests_only_silent. by destruct v. Qed.

Lemma requests_only_text env v : requests_only env (text v).
Proof. apply requests_only_silent. by destruct v. Qed.

Lemma requests_only_ret {A} env (a : A) : requests_only env (mret a).
Proof. by apply requests_only_silent. Qed.

Lemma requests_only_scale_up env currentState counts delta l :
  requests_only env (scale_up env currentState counts delta l).
Proof.
  induction l as [|[i server] l IH]; [apply requests_only_ret|].
  cbn [scale_up]. apply requests_only_bind; [apply requests_only_endpoint_of|].
  intros [endpoint_name variant_name] _.
  apply requests_only_bind; [apply requests_only_subscript|]. intros count _.
  apply requests_only_bind; [apply requests_only_update_endpoint|]. by intros _ _.
Qed.

Lemma requests_only_scale_down env currentState counts l : ∀ delta,
  requests_only env (scale_down env currentState counts delta l).
Proof.
  induction l as [|[i server] l IH]; intros delta; [apply requests_only_ret|].
  cbn [scale_down]. apply requests_only_bind; [apply requests_only_subscript|].
  intros count _. repeat case_bool_decide.
  - apply requests_only_bind; [apply requests_only_endpoint_of|].
    intros [endpoint_name variant_name] _. apply requests_only_update_endpoint.
  - apply requests_only_bind; [apply requests_only_endpoint_of|].
    intros [endpoint_name variant_name] _.
    apply requests_only_bind; [apply requests_only_update_endpoint|]. intros _ _. apply IH.
  - apply IH.
Qed.

Lemma requests_only_update_scaling env currentState :
  requests_only env (update_scaling env currentState).
Proof.
  unfold update_scaling. apply requests_only_bind.
  { apply requests_only_silent. unfold get_server_config.
    by destruct (get_config env) as [[?|]| |]. }
  intros [[servers counts] weights] _.
  apply requests_only_bind.
  { apply requests_only_bind; [apply requests_only_getitem|]. intros. apply requests_only_number. }
  intros desired _. apply requests_only_bind.
  { apply requests_only_bind; [apply requests_only_getitem|]. intros. apply requests_only_number. }
  intros actual _. repeat case_bool_decide.
  - apply requests_only_bind.
    { apply requests_only_bind; [apply requests_only_getitem|]. intros. apply requests_only_text. }
    intros resourceName _. apply requests_only_bind.
    { apply requests_only_silent. unfold index. by destruct (index_from _ _ _). }
    intros i _. apply requests_only_bind; [apply requests_only_subscript|].
    intros server _. apply requests_only_bind.
    { apply requests_only_bind; [apply requests_only_getitem|]. intros. apply requests_only_text. }
    intros variantName _. apply requests_only_update_endpoint.
  - apply requests_only_scale_up.
  - apply requests_only_scale_down.
  - apply requests_only_ret.
Qed.

Lemma requests_only_patch_state env bodyData currentState :
  requests_only env (patch_state env bodyData currentState).
Proof.
  unfold patch_state. apply requests_only_bind.
  { destruct (bodyData !! "actualCapacity"); [|apply requests_only_ret].
    apply requests_only_bind; [apply requests_only_number|]. intros. apply requests_only_ret. }
  intros state1 _. apply requests_only_bind.
  { destruct (bodyData !! "desiredCapacity"); [|apply requests_only_ret].
    apply requests_only_bind; [apply requests_only_getitem|]. intros status _.
    case_bool_decide; [|apply requests_only_ret].
    apply requests_only_bind; [apply requests_only_number|]. intros n _.
    case_bool_decide; [|apply requests_only_ret].
    apply requests_only_bind; [apply requests_only_update_scaling|].
    intros. apply requests_only_ret. }
  intros state2 _. destruct (bodyData !! "scalingStatus"); apply requests_only_ret.
Qed.

Lemma requests_only_reconcile env currentState :
  requests_only env (reconcile env currentState).
Proof.
  unfold reconcile. apply requests_only_bind; [apply requests_only_getitem|].
  intros desired _. apply requests_only_bind; [apply requests_only_number|].
  intros d _. case_bool_decide; [|apply requests_only_ret].
  apply requests_only_bind; [apply requests_only_getitem|]. intros status _.
  apply requests_only_bind.
  { case_bool_decide; [|apply requests_only_ret].
    apply requests_only_bind; [apply requests_only_getitem|]. intros actual _.
    case_bool_decide; [|apply requests_only_ret].
    apply requests_only_bind; [apply requests_only_update_scaling|].
    intros. apply requests_only_ret. }
  intros state1 _. apply requests_only_bind.
  { apply requests_only_bind; [apply requests_only_getitem|]. intros. apply requests_only_number. }
  intros lastModified _. apply requests_only_bind; [apply requests_only_getitem|].
  intros status' _. destruct (_ && _); [|apply requests_only_ret].
  apply requests_only_bind; [apply requests_only_getitem|]. intros actual _.
  case_bool_decide; apply requests_only_ret.
Qed.


(** A computation of requests followed by [finish]: either nothing is
    written and nothing answered, or the state the computation returned is
    written after requests that were all taken. *)
Lemma then_finish env (m : M Item) previousState dimensionId :
  requests_only env m →
  let r := m ≫= finish env previousState dimensionId in
  (Forall is_request (emitted r) ∧ ∀ response, outcome r ≠ inr response)
  ∨ ∃ currentState status,
      outcome m = inr currentState
      ∧ currentState !! "scalingStatus" = Some status
      ∧ emitted r = emitted m ++ [PutState (stored env dimensionId status currentState)]
      ∧ Forall is_request (emitted m)
      ∧ Forall (accepted env) (emitted m)
      ∧ ∀ response, outcome r = inr response →
          ∃ json, response = Response200 json
                  ∧ currentState !! "desiredCapacity" = Some (VNum (desiredCapacity json))
                  ∧ currentState !! "actualCapacity" = Some (VNum (actualCapacity json)).
Proof.
  intros [Hreq Hacc]. cbn zeta. rewrite emitted_bind.
  destruct m as [w [e|currentState]] eqn:Hm; unfold emitted, outcome in *; simpl in *.
  - left. rewrite app_nil_r. by split.
  - pose proof (finish_writes env previousState dimensionId currentState) as Hfinish.
    cbn zeta in Hfinish. unfold emitted, outcome, mbind, eff_bind in *.
    destruct (finish env previousState dimensionId currentState) as [w' r]. simpl in *.
    destruct Hfinish as [[-> Hnone] | (status & Hstatus & -> & Hjson)].
    + left. rewrite app_nil_r. split; [done|]. destruct r; [done|]. intros ? [= <-].
      by eapply Hnone.
    + right. exists currentState, status. do 4 (split; [done|]).
      split; [by eapply Hacc|].
      destruct r as [e|response]; [done|]. intros ? [= <-]. by apply Hjson.
Qed.

(** What [handle] emits and returns. *)
Lemma handle_calls env http_method bodyData :
  let r := handle env http_method bodyData in
  (Forall is_request (emitted r) ∧ ∀ json, outcome r ≠ inr (Response200 json))
  ∨ ∃ dimensionId currentState status,
      read_state env !! "scalableTargetDimensionId" = Some dimensionId
      ∧ currentState !! "scalingStatus" = Some status
      ∧ ∃ requests,
          emitted r = requests ++ [PutState (stored env dimensionId status currentState)]
          ∧ Forall is_request requests
          ∧ Forall (accepted env) requests
          ∧ ∀ response, outcome r = inr response →
              ∃ json, response = Response200 json
                      ∧ currentState !! "desiredCapacity" = Some (VNum (desiredCapacity json))
                      ∧ currentState !! "actualCapacity" = Some (VNum (actualCapacity json)).
Proof.
  cbn zeta. unfold handle.
  destruct (read_state env !! "scalableTargetDimensionId") as [dimensionId|] eqn:Hid.
  2:{ left. rewrite (getitem_None _ _ Hid). by split. }
  rewrite (getitem_Some _ _ _ Hid), bind_ret.
  assert (∀ m : M Item, requests_only env m →
    let r := m ≫= finish env (read_state env) dimensionId in
    (Forall is_request (emitted r) ∧ ∀ json, outcome r ≠ inr (Response200 json))
    ∨ ∃ dimensionId' currentState status,
        Some dimensionId = Some dimensionId'
        ∧ currentState !! "scalingStatus" = Some status
        ∧ ∃ requests,
            emitted r = requests ++ [PutState (stored env dimensionId' status currentState)]
            ∧ Forall is_request requests
            ∧ Forall (accepted env) requests
            ∧ ∀ response, outcome r = inr response →
                ∃ json, response = Response200 json
                        ∧ currentState !! "desiredCapacity" = Some (VNum (desiredCapacity json))
                        ∧ currentState !! "actualCapacity" = Some (VNum (actualCapacity json)))
    as Hfinish.
  { intros m Hm. destruct (then_finish env m (read_state env) dimensionId Hm)
      as [[Hreq Hnone] | (currentState & status & _ & Hstatus & Hcalls & Hreq & Hacc & Hjson)].
    - left. split; [done|]. intros json. apply Hnone.
    - right. exists dimensionId, currentState, status. do 2 (split; [done|]).
      by exists (emitted m). }
  destruct (_ && _).
  - apply Hfinish, requests_only_patch_state.
  - case_bool_decide.
    + left. by split.
    + apply Hfinish, requests_only_reconcile.
Qed.


Lemma stored_lookup env dimensionId status currentState :
  currentState !! "scalingStatus" = Some status →
  let item := stored env dimensionId status currentState in
  item !! "scalingStatus" = Some status
  ∧ item !! "lastModified" = Some (VNum (time_ms env))
  ∧ item !! "id" = Some dimensionId
  ∧ (status ≠ Failed → item !! "failureResaon" = Some (VStr ""))
  ∧ item !! "desiredCapacity" = currentState !! "desiredCapacity"
  ∧ item !! "actualCapacity" = currentState !! "actualCapacity".
Proof.
  intros Hstatus. cbn zeta. unfold stored.
  rewrite lookup_insert_eq. rewrite (lookup_insert_ne _ "lastModified" "id") by done.
  rewrite lookup_insert_eq. rewrite !(lookup_insert_ne _ "lastModified") by done.
  rewrite !(lookup_insert_ne _ "id") by done.
  case_bool_decide.
  - rewrite lookup_insert_eq, !lookup_insert_ne by done. by repeat split.
  - by repeat split.
Qed.

(** X10: whatever the table, the control plane and the request: if
    [lambda_handler] writes a state at all, the write is its last call and
    the only write; every call before it is a request to the control plane
    that was taken; the item written carries the time of the invocation
    under [lastModified], the [scalableTargetDimensionId] of the state read
    under [id], and, unless its status is [Failed], an empty
    [failureResaon]. *)
Theorem state_written_last env event item :
  PutState item ∈ (lambda_handler env event).1 →
  ∃ requests status,
    (lambda_handler env event).1 = requests ++ [PutState item]
    ∧ Forall is_request requests
    ∧ Forall (accepted env) requests
    ∧ item !! "scalingStatus" = Some status
    ∧ item !! "lastModified" = Some (VNum (time_ms env))
    ∧ item !! "id" = read_state env !! "scalableTargetDimensionId"
    ∧ (status ≠ Failed → item !! "failureResaon" = Some (VStr "")).
Proof.
  assert (∀ http_method bodyData,
    PutState item ∈ emitted (handle env http_method bodyData) →
    ∃ requests status,
      emitted (handle env http_method bodyData) = requests ++ [PutState item]
      ∧ Forall is_request requests
      ∧ Forall (accepted env) requests
      ∧ item !! "scalingStatus" = Some status
      ∧ item !! "lastModified" = Some (VNum (time_ms env))
      ∧ item !! "id" = read_state env !! "scalableTargetDimensionId"
      ∧ (status ≠ Failed → item !! "failureResaon" = Some (VStr ""))) as Hhandle.
  { intros http_method bodyData Hput.
    destruct (handle_calls env http_method bodyData)
      as [[Hreq _] | (dimensionId & currentState & status & Hid & Hstatus
                       & requests & Hcalls & Hreq & Hacc & _)].
    - rewrite list.Forall_forall in Hreq. destruct (Hreq _ Hput).
    - rewrite Hcalls in Hput |- *. apply elem_of_app in Hput as [Hput | Hput].
      { rewrite list.Forall_forall in Hreq. destruct (Hreq _ Hput). }
      apply list_elem_of_singleton in Hput as [= ->].
      destruct (stored_lookup env dimensionId status currentState Hstatus)
        as (? & ? & ? & ? & _).
      exists requests, status. rewrite Hid. by repeat split. }
  unfold lambda_handler. destruct (body event) as [| |bodyData].
  - specialize (Hhandle (default "GET"%string (httpMethod event)) None).
    unfold emitted in Hhandle. by destruct (handle _ _ _) as [calls [e|response]].
  - simpl. by intros ?%elem_of_nil.
  - specialize (Hhandle (default "GET"%string (httpMethod event)) (Some bodyData)).
    unfold emitted in Hhandle. by destruct (handle _ _ _) as [calls [e|response]].
Qed.

Lemma put_of_requests requests item :
  Forall is_request requests → put_of (requests ++ [PutState item]) = Some item.
Proof. induction 1 as [|[] ? ? ? IH]; done. Qed.


(** X12: the requests [lambda_handler] turns away, without a call to the
    control plane or a write: a body that is not JSON is answered 400,
    before the state is read; a state that cannot be read or has no
    [scalableTargetDimensionId] is answered 500, whatever the method; any
    method other than [GET] and [PATCH], and a [PATCH] without a body or
    with an empty object, is answered 405. *)
Theorem lambda_handler_turns_away env event :
  let http_method := default "GET"%string (httpMethod event) in
  (body event = InvalidJSON → lambda_handler env event = ([], Response400))
  ∧ (body event ≠ InvalidJSON →
     read_state env !! "scalableTargetDimensionId" = None →
     lambda_handler env event = ([], Response500 (KeyError "scalableTargetDimensionId")))
  ∧ (body event ≠ InvalidJSON →
     is_Some (read_state env !! "scalableTargetDimensionId") →
     http_method ≠ "GET"%string →
     (http_method = "PATCH"%string → body event = NoBody ∨ body event = JSONBody ∅) →
     lambda_handler env event = ([], Response405)).
Proof.
  cbn zeta. split; [|split].
  - intros Hbody. unfold lambda_handler. by rewrite Hbody.
  - intros Hbody Hid. unfold lambda_handler, handle. rewrite (getitem_None _ _ Hid).
    by destruct (body event).
  - intros Hbody [dimensionId Hid] Hget Hpatch. unfold lambda_handler, handle.
    rewrite (getitem_Some _ _ _ Hid), !bind_ret.
    rewrite (bool_decide_eq_true_2 _ Hget).
    destruct (body event) as [| |bodyData] eqn:Hb; [|done|].
    + rewrite bool_decide_eq_false_2; [done|]. by intros [[? [=]] _].
    + destruct (decide (default "GET"%string (httpMethod event) = "PATCH"%string)) as [Hp|Hp].
      * destruct (Hpatch Hp) as [[=] | [= ->]].
        rewrite bool_decide_eq_false_2; [done|]. by intros [_ ?].
      * rewrite (bool_decide_eq_false_2 _ Hp), andb_false_r. done.
Qed.


Lemma declare_4_run :
  lambda_handler env_idle declare_4
    = ([request_of "pool" "AllTraffic" "server1" 2;
        request_of "pool" "AllTraffic" "server2" 3;
        request_of "pool" "AllTraffic" "server3" 1;
        PutState (stored env_idle (VStr "endpoint/pool/variant/AllTraffic") Pending
                    state_declared)],
       Response200 {|
         actualCapacity := 3; desiredCapacity := 4;
         dimensionName := VStr "custom-resource:ResourceType:Property";
         resourceName := VStr "pool";
         scalableTargetDimensionId := VStr "endpoint/pool/variant/AllTraffic";
         scalingStatus := Pending; version := VStr "v1" |}).
Proof. vm_compute. reflexivity. Qed.

Lemma state_written_last_witness :
  ∃ requests status,
    (lambda_handler env_idle declare_4).1
      = requests ++ [PutState (stored env_idle (VStr "endpoint/pool/variant/AllTraffic")
                                 Pending state_declared)]
    ∧ Forall is_request requests
    ∧ Forall (accepted env_idle) requests
    ∧ stored env_idle (VStr "endpoint/pool/variant/AllTraffic") Pending state_declared
        !! "scalingStatus" = Some status
    ∧ stored env_idle (VStr "endpoint/pool/variant/AllTraffic") Pending state_declared
        !! "lastModified" = Some (VNum (time_ms env_idle))
    ∧ stored env_idle (VStr "endpoint/pool/variant/AllTraffic") Pending state_declared
        !! "id" = read_state env_idle !! "scalableTargetDimensionId"
    ∧ (status ≠ Failed →
       stored env_idle (VStr "endpoint/pool/variant/AllTraffic") Pending state_declared
         !! "failureResaon" = Some (VStr "")).
Proof.
  apply (state_written_last env_idle declare_4).
  rewrite declare_4_run. simpl. do 3 right. left.
Defined.


(** On a table that takes no put the same request is answered 200 all the
    same, after the same calls, and nothing is written. *)
Example answer_without_write :
  lambda_handler (without_put env_idle) declare_4 = lambda_handler env_idle declare_4
  ∧ (lambda_handler (without_put env_idle) declare_4).2
    = Response200 {|
        actualCapacity := 3; desiredCapacity := 4;
        dimensionName := VStr "custom-resource:ResourceType:Property";
        resourceName := VStr "pool";
        scalableTargetDimensionId := VStr "endpoint/pool/variant/AllTraffic";
        scalingStatus := Pending; version := VStr "v1" |}
  ∧ written (without_put env_idle) (lambda_handler (without_put env_idle) declare_4).1
    = None.
Proof.
  assert (lambda_handler (without_put env_idle) declare_4
          = lambda_handler env_idle declare_4) as Hsame
    by apply lambda_handler_with_put.
  split; [done|]. rewrite Hsame, declare_4_run. by split.
Qed.


(** X13: a [GET] on a state at rest ([Successful] or [Failed]) whose desired
    capacity is not negative and differs from the actual one: the state
    becomes [Pending] and the redistribution is requested on it; when the
    state was last written more than 25 minutes before, it is marked
    [Failed] under [failureResaon] by the same invocation, after the
    requests. *)
Theorem drift_is_redistributed env currentState status actual desired lastModified :
  currentState !! "scalingStatus" = Some status →
  status = Successful ∨ status = Failed →
  currentState !! "desiredCapacity" = Some (VNum desired) →
  0 ≤ desired →
  currentState !! "actualCapacity" = Some actual →
  VNum desired ≠ actual →
  currentState !! "lastModified" = Some (VNum lastModified) →
  let pending := <["scalingStatus" := Pending]> currentState in
  reconcile env currentState
    = update_scaling env pending ≫= λ _,
        mret (if bool_decide (lastModified < time_ms env - minutes 25)
              then <["failureResaon" := timeout_reason]>
                     (<["scalingStatus" := Failed]> pending)
              else pending).
Proof.
  intros Hstatus Hrest Hdesired Hnonneg Hactual Hdrift HlastModified pending.
  unfold reconcile.
  rewrite (getitem_Some _ _ _ Hdesired), bind_ret. unfold number. rewrite bind_ret.
  rewrite bool_decide_eq_true_2 by done.
  rewrite (getitem_Some _ _ _ Hstatus), !bind_ret.
  rewrite (bool_decide_eq_true_2 (status = Successful ∨ status = Failed)) by done.
  rewrite (getitem_Some _ _ _ Hactual), !bind_ret.
  rewrite (bool_decide_eq_true_2 _ Hdrift).
  fold pending. rewrite !bind_assoc. apply bind_ext. intros _. rewrite bind_ret.
  rewrite (getitem_Some pending "lastModified" (VNum lastModified))
    by by (unfold pending; rewrite lookup_insert_ne).
  rewrite !bind_ret.
  rewrite (getitem_Some pending "scalingStatus" Pending)
    by by (unfold pending; rewrite lookup_insert_eq).
  rewrite bind_ret.
  rewrite (bool_decide_eq_true_2 (Pending = Pending ∨ Pending = InProgress)) by by left.
  rewrite andb_true_r. change (25 * 60 * 1000) with (minutes 25).
  case_bool_decide; [|done].
  rewrite (getitem_Some pending "actualCapacity" actual)
    by by (unfold pending; rewrite lookup_insert_ne).
  rewrite bind_ret. by rewrite (bool_decide_eq_true_2 _ Hdrift).
Qed.


Lemma drift_is_redistributed_witness :
  reconcile env_drifted state_drifted
    = update_scaling env_drifted (<["scalingStatus" := Pending]> state_drifted) ≫= λ _,
        mret (if bool_decide (now - minutes 26 < time_ms env_drifted - minutes 25)
              then <["failureResaon" := timeout_reason]>
                     (<["scalingStatus" := Failed]>
                        (<["scalingStatus" := Pending]> state_drifted))
              else <["scalingStatus" := Pending]> state_drifted).
Proof.
  apply (drift_is_redistributed env_drifted state_drifted Successful (VNum 3) 2
           (now - minutes 26)).
  - reflexivity.
  - by left.
  - reflexivity.
  - lia.
  - reflexivity.
  - discriminate.
  - reflexivity.
Defined.

(** X14: a request that declares a desired capacity (and no actual one) on a
    state that is neither [InProgress] nor [Pending]. A capacity of 0 or
    less is recorded and nothing is requested; a capacity above 0 is
    recorded, the state becomes [Pending] and the redistribution is
    requested on that state, an exception of which leaves the request
    without a result. A [scalingStatus] of the body is applied last. *)
Theorem declare_when_idle env bodyData currentState status n :
  bodyData !! "actualCapacity" = None →
  bodyData !! "desiredCapacity" = Some (VNum n) →
  currentState !! "scalingStatus" = Some status →
  status ≠ InProgress → status ≠ Pending →
  let declared := <["desiredCapacity" := VNum n]> currentState in
  let pending := <["scalingStatus" := Pending]> declared in
  (n ≤ 0 → patch_state env bodyData currentState = mret (patched bodyData declared))
  ∧ (0 < n →
     patch_state env bodyData currentState
       = update_scaling env pending ≫= λ _, mret (patched bodyData pending)).
Proof.
  intros Hno Hn Hstatus Hin Hpe declared pending.
  assert (∀ st : Item,
    match bodyData !! "scalingStatus" with
    | Some v => mret (M := M) (<["scalingStatus" := v]> st)
    | None => mret st
    end = mret (patched bodyData st)) as Hlast.
  { intros st. unfold patched. rewrite Hno. by destruct (bodyData !! "scalingStatus"). }
  unfold patch_state. rewrite Hno, Hn, bind_ret.
  rewrite (getitem_Some _ _ _ Hstatus), bind_ret.
  rewrite bool_decide_eq_true_2.
  2:{ intros Hmem. apply elem_of_cons in Hmem as [-> | Hmem]; [done|].
      by apply list_elem_of_singleton in Hmem as ->. }
  unfold number. rewrite bind_ret. fold declared. split.
  - intros Hle. rewrite bool_decide_eq_false_2 by lia. by rewrite bind_ret, Hlast.
  - intros Hlt. rewrite bool_decide_eq_true_2 by done. fold pending.
    rewrite !bind_assoc. apply bind_ext. intros _. by rewrite bind_ret, Hlast.
Qed.

Lemma declare_when_idle_witness :
  (4 ≤ 0 →
   patch_state env_idle {[ "desiredCapacity" := VNum 4 ]} state_idle
     = mret (patched {[ "desiredCapacity" := VNum 4 ]}
               (<["desiredCapacity" := VNum 4]> state_idle)))
  ∧ (0 < 4 →
     patch_state env_idle {[ "desiredCapacity" := VNum 4 ]} state_idle
       = update_scaling env_idle state_declared ≫= λ _,
           mret (patched {[ "desiredCapacity" := VNum 4 ]} state_declared)).
Proof.
  apply (declare_when_idle env_idle {[ "desiredCapacity" := VNum 4 ]} state_idle
           Successful 4); [reflexivity | reflexivity | reflexivity | discriminate | discriminate].
Defined.

(** *** Redistribution: what the two loops ask for in total *)

Lemma drain_plan_all deficit counts :
  Forall (λ count, 0 ≤ count) counts → sum counts ≤ deficit →
  drain_plan deficit counts = drain_all counts.
Proof.
  intros Hcounts. revert deficit.
  induction Hcounts as [|count rest Hcount Hrest IH]; intros deficit Hsum; [done|].
  rewrite sum_cons in Hsum.
  assert (0 ≤ sum rest) as Hnonneg.
  { clear -Hrest. induction Hrest as [|? ? ? ? IH]; [done|]. rewrite sum_cons. lia. }
  cbn [drain_plan]. unfold drain_all. cbn [fmap list_fmap].
  rewrite bool_decide_eq_false_2 by lia.
  case_bool_decide.
  - f_equal. apply IH. lia.
  - f_equal. apply IH. lia.
Qed.

Lemma planned_counts_drain_all counts :
  Forall (λ count, 0 ≤ count) counts →
  Forall (λ count, count = 0) (planned_counts counts (drain_all counts)).
Proof.
  induction 1 as [|count rest Hcount Hrest IH]; [constructor|].
  unfold drain_all. cbn [fmap list_fmap]. rewrite planned_counts_cons.
  constructor; [|done]. case_bool_decide; simpl; lia.
Qed.


Lemma sum_add_all delta counts :
  sum ((λ count, count + delta) <$> counts) = sum counts + Z.of_nat (length counts) * delta.
Proof.
  induction counts as [|count rest IH]; [done|].
  rewrite fmap_cons, !sum_cons, IH, length_cons. lia.
Qed.

Lemma requested_scale_up resourceName variantName delta servers counts :
  length counts = length servers →
  omap requested
    (zip_with (λ server count, request_of resourceName variantName server (count + delta))
       servers counts)
  = (λ count, count + delta) <$> counts.
Proof.
  revert counts. induction servers as [|server servers IH]; intros [|count counts] Hlen;
    try done.
  simpl in Hlen. cbn [zip_with omap fmap list_fmap]. simpl. f_equal. apply IH. lia.
Qed.





End AsgActivityHandlerFacts.


(** ** Endpoint names and paths *)

Module NamesFacts.
Import EndpointState Names.

Lemma split_free sep s : free_of sep s → split sep s = [s].
Proof.
  induction s as [|c s IH]; [done|]. intros [Hc Hs]. cbn [split].
  rewrite bool_decide_eq_false_2 by done. by rewrite IH.
Qed.

Lemma split_app sep s t :
  free_of sep s → split sep (s +:+ String sep t) = s :: split sep t.
Proof.
  induction s as [|c s IH]; intros Hs.
  - change ("" +:+ String sep t)%string with (String sep t). cbn [split].
    by case_bool_decide.
  - destruct Hs as [Hc Hs].
    change (String c s +:+ String sep t)%string with (String c (s +:+ String sep t)).
    cbn [split]. rewrite bool_decide_eq_false_2 by done. by rewrite IH.
Qed.

Lemma split_join sep parts :
  parts ≠ [] → Forall (free_of sep) parts → split sep (join sep parts) = parts.
Proof.
  intros Hne Hparts. induction Hparts as [|part parts Hpart Hparts IH]; [done|].
  destruct parts as [|part' parts].
  - simpl. by apply split_free.
  - cbn [join]. rewrite split_app by done. f_equal. by apply IH.
Qed.

Lemma prefix_app s t : String.prefix s (s +:+ t) = true.
Proof.
  induction s as [|c s IH]; simpl; [by destruct t|].
  destruct (Ascii.ascii_dec c c); [|done]. apply IH.
Qed.

Lemma contains_app s t : contains (s +:+ t) s = true.
Proof.
  pose proof (prefix_app s t) as Hprefix.
  destruct (s +:+ t); cbn [contains]; by rewrite Hprefix.
Qed.


Lemma string_app_assoc (a b c : string) : (a +:+ b) +:+ c = a +:+ (b +:+ c).
Proof.
  induction a as [|x a IH]; [done|].
  change (String x ((a +:+ b) +:+ c) = String x (a +:+ (b +:+ c))). by rewrite IH.
Qed.

(** X22: the endpoint name the scaling Lambda requests for a backend,
    [resourceName + '-' + server], as the status Lambda reads it back: the
    name contains the resource name; when neither the resource name nor the
    server has a hyphen, [endpoint_name.split("-")[1]] is the server; when
    the resource name has a hyphen, it is the second piece of the resource
    name, whatever the server. *)
Theorem endpoint_name_round_trip resourceName server :
  contains (resourceName +:+ "-" +:+ server) resourceName = true
  ∧ (free_of "-" resourceName → free_of "-" server →
     split "-" (resourceName +:+ "-" +:+ server) !! 1%nat = Some server)
  ∧ (∀ a b, resourceName = a +:+ "-" +:+ b → free_of "-" a → free_of "-" b →
     split "-" (resourceName +:+ "-" +:+ server) !! 1%nat = Some b).
Proof.
  split; [apply contains_app|]. split.
  - intros Hresource Hserver.
    change ("-" +:+ server)%string with (String "-" server).
    rewrite split_app by done. by rewrite split_free.
  - intros a b -> Ha Hb. rewrite string_app_assoc.
    change ("-" +:+ ?s)%string with (String "-" s).
    change (String "-" b +:+ String "-" server)%string
      with (String "-" (b +:+ String "-" server)).
    rewrite !split_app by done. reflexivity.
Qed.

End NamesFacts.

(** ** asg-activity-lambda.py: the dimension of a request *)

Module AsgDimensionFacts.
Import EndpointState AsgDimension Names NamesFacts.

Lemma after_keyword_found parts before dimensionId rest : ∀ i,
  "scalableTargetDimensions"%string ∉ before →
  parts !! (i + length before + 1)%nat = Some dimensionId →
  after_keyword parts
    (enumerate_from i (before ++ "scalableTargetDimensions"%string :: rest))
    = Some dimensionId.
Proof.
  induction before as [|part before IH]; intros i Hnot Hid.
  - cbn [app enumerate_from after_keyword length] in *.
    rewrite Nat.add_0_r in Hid. rewrite bool_decide_eq_true_2 by done.
    rewrite bool_decide_eq_true_2 by by apply lookup_lt_Some in Hid. done.
  - apply not_elem_of_cons in Hnot as [Hpart Hnot].
    cbn [app enumerate_from after_keyword].
    rewrite (bool_decide_eq_false_2 (part = _)) by done. rewrite andb_false_l.
    apply IH; [done|]. rewrite <- Hid. f_equal. simpl. lia.
Qed.

Lemma after_keyword_none parts l : ∀ i,
  (∀ j, l !! j = Some "scalableTargetDimensions"%string →
        (length parts ≤ i + j + 1)%nat) →
  after_keyword parts (enumerate_from i l) = None.
Proof.
  induction l as [|part l IH]; intros i Hlast; [done|].
  cbn [enumerate_from after_keyword].
  destruct (decide (part = "scalableTargetDimensions"%string)) as [->|Hpart].
  - pose proof (Hlast 0%nat eq_refl) as Hhere.
    rewrite (bool_decide_eq_false_2 (i + 1 < _)%nat) by lia.
    rewrite andb_false_r. apply IH. intros j Hj. specialize (Hlast (S j) Hj). lia.
  - rewrite (bool_decide_eq_false_2 (part = _)) by done. rewrite andb_false_l.
    apply IH. intros j Hj. specialize (Hlast (S j) Hj). lia.
Qed.

(** X9: [get_dimensionId] on a path made of parts joined by slashes, for an
    event without a [dimensionId] path parameter: the part that follows the
    first part [scalableTargetDimensions] is the dimension; when no part
    but the last one is [scalableTargetDimensions], the dimension is
    [default-dimension-id]. *)
Theorem dimension_of_path parts parameters :
  parts ≠ [] → Forall (free_of "/") parts →
  parameters ≫= (λ p : gmap string string, p !! "dimensionId"%string) = None →
  let event := {| path := Some (join "/" parts); pathParameters := parameters |} in
  (∀ before dimensionId after,
     parts = before ++ "scalableTargetDimensions"%string :: dimensionId :: after →
     "scalableTargetDimensions"%string ∉ before →
     get_dimensionId event = dimensionId)
  ∧ (∀ before last,
       parts = before ++ [last] →
       "scalableTargetDimensions"%string ∉ before →
       get_dimensionId event = "default-dimension-id"%string).
Proof.
  intros Hne Hparts Hparameters event.
  assert (get_dimensionId event
          = default "default-dimension-id"%string (after_keyword parts (enumerate parts)))
    as ->.
  { unfold get_dimensionId, event. cbn [pathParameters path].
    rewrite Hparameters.
    change (default ""%string (Some (join "/" parts))) with (join "/" parts).
    cbn zeta. by rewrite split_join. }
  split.
  - intros before dimensionId after -> Hnot. unfold enumerate.
    rewrite (after_keyword_found _ before dimensionId (dimensionId :: after)); [done|done|].
    rewrite lookup_app_r by lia.
    by replace (0 + length before + 1 - length before)%nat with 1%nat by lia.
  - intros before last -> Hnot. unfold enumerate. rewrite after_keyword_none; [done|].
    intros j Hj. rewrite length_app. simpl.
    destruct (decide (j < length before)%nat) as [Hlt|Hge]; [|lia].
    rewrite lookup_app_l in Hj by done. by apply list_elem_of_lookup_2 in Hj.
Qed.

Lemma dimension_of_path_witness :
  get_dimensionId {| path := Some "v1/scalableTargetDimensions/pool-dimension"%string;
                     pathParameters := None |} = "pool-dimension"%string.
Proof.
  refine (proj1 (dimension_of_path ["v1"; "scalableTargetDimensions"; "pool-dimension"]%string
                   None _ _ _) ["v1"%string] "pool-dimension"%string [] _ _).
  - discriminate.
  - repeat constructor; discriminate.
  - reflexivity.
  - reflexivity.
  - intros Hin. apply list_elem_of_singleton in Hin. discriminate.
Defined.

End AsgDimensionFacts.

(** ** endpoint-state-lambda.py: the rebalanced weights and the calls of the handler *)

Module EndpointStateHandlerFacts.
Import Scaling ScalingFacts EndpointState EndpointStateSamples EndpointStateFacts.
Import EndpointStateHandlerSamples.

(** *** The weights a rebalance leaves *)

Lemma gcd_scale g weights : 0 ≤ g → gcd (Z.mul g <$> weights) = g * gcd weights.
Proof.
  intros Hg. induction weights as [|weight weights IH]; [simpl; lia|].
  rewrite fmap_cons. cbn [gcd foldr]. fold (gcd (Z.mul g <$> weights)). rewrite IH.
  fold (gcd weights). by apply Z.gcd_mul_mono_l_nonneg.
Qed.

Lemma sum_scale g weights : sum (Z.mul g <$> weights) = g * sum weights.
Proof.
  induction weights as [|weight weights IH]; [simpl; lia|].
  rewrite fmap_cons, !sum_cons, IH. lia.
Qed.

Lemma sum_positive counts :
  Forall (λ count, 0 ≤ count) counts → ¬ Forall (λ count, count = 0) counts →
  0 < sum counts.
Proof.
  induction 1 as [|count counts Hcount Hcounts IH]; intros Hnot; [by destruct Hnot|].
  rewrite sum_cons. destruct (decide (count = 0)) as [->|Hne].
  - assert (0 < sum counts); [|lia]. apply IH. intros Hzero. apply Hnot. by constructor.
  - assert (0 ≤ sum counts); [|lia].
    clear -Hcounts. induction Hcounts; [done|]. rewrite sum_cons. lia.
Qed.

Lemma Forall2_scaled g weights :
  Forall2 (λ count weight, count = g * weight) (Z.mul g <$> weights) weights.
Proof. apply Forall2_fmap_l, Forall_Forall2_diag. by apply list.Forall_forall. Qed.

Lemma scaled_nonneg g weights :
  0 < g → Forall (λ count, 0 ≤ count) (Z.mul g <$> weights) →
  Forall (λ weight, 0 ≤ weight) weights.
Proof.
  intros Hg Hcounts. rewrite list.Forall_forall in Hcounts.
  apply list.Forall_forall. intros weight Hweight.
  specialize (Hcounts (g * weight) (list_elem_of_fmap_2 _ _ _ Hweight)). nia.
Qed.

Lemma proportional_scaled counts :
  gcd counts ≠ 0 →
  counts = Z.mul (gcd counts) <$> proportional counts (length counts).
Proof.
  intros Hg. unfold proportional. rewrite take_ge by done.
  rewrite <- list_fmap_compose. rewrite <- (list_fmap_id counts) at 1.
  apply Forall_fmap_ext, list.Forall_forall. intros count Hcount.
  by apply quot_exact.
Qed.

(** X17: over counts that are not negative, not all 0 and divided exactly
    (each within [2^53] times their greatest common divisor, where the
    division through a double returns the quotient), with a weight per
    backend, the rebalancer returns weights in lowest terms: each count is
    its weight times the greatest common divisor of the counts, no weight
    is negative, the greatest common divisor of the weights is 1 and their
    total is above 0, so they are a configuration the router takes. *)
Theorem rebalanced_weights_lowest_terms counts weights :
  length weights = length counts →
  Forall (λ count, 0 ≤ count) counts →
  ¬ Forall (λ count, count = 0) counts →
  exactly_divided counts →
  ∃ weights',
    rebalance counts weights = mret weights'
    ∧ Forall2 (λ count weight, count = gcd counts * weight) counts weights'
    ∧ Forall (λ weight, 0 ≤ weight) weights'
    ∧ gcd weights' = 1
    ∧ 0 < sum weights'
    ∧ sum counts = gcd counts * sum weights'.
Proof.
  intros Hlen Hcounts Hnot Hexact.
  assert (gcd counts ≠ 0) as Hg by by rewrite gcd_zero.
  pose proof (gcd_nonneg counts) as Hnonneg.
  pose proof (sum_positive counts Hcounts Hnot) as Hsum.
  pose proof (proportional_scaled counts Hg) as Hscaled.
  set (weights' := proportional counts (length counts)) in *.
  assert (sum counts = gcd counts * sum weights') as Htotal.
  { rewrite Hscaled at 1. apply sum_scale. }
  assert (0 < sum weights') as Hpositive by nia.
  exists weights'. split; [|split; [|split; [|split; [|split]]]]; try done.
  - rewrite rebalance_weights; [|by destruct weights, counts|lia|done].
    rewrite bool_decide_eq_true_2 by done. rewrite Hlen. fold weights'.
    unfold force_first. by rewrite bool_decide_eq_false_2 by lia.
  - pose proof (Forall2_scaled (gcd counts) weights') as Hall. by rewrite <- Hscaled in Hall.
  - by apply (scaled_nonneg (gcd counts)); [lia | rewrite <- Hscaled].
  - assert (gcd counts = gcd counts * gcd weights') as Hgcd.
    { rewrite Hscaled at 1. by apply gcd_scale. }
    nia.
Qed.

Lemma rebalanced_weights_lowest_terms_witness :
  ∃ weights',
    rebalance [6; 9; 3] [5; 3; 2] = mret weights'
    ∧ Forall2 (λ count weight, count = gcd [6; 9; 3] * weight) [6; 9; 3] weights'
    ∧ Forall (λ weight, 0 ≤ weight) weights'
    ∧ gcd weights' = 1
    ∧ 0 < sum weights'
    ∧ sum [6; 9; 3] = gcd [6; 9; 3] * sum weights'.
Proof.
  apply (rebalanced_weights_lowest_terms [6; 9; 3] [5; 3; 2]).
  - reflexivity.
  - repeat constructor; lia.
  - intros Hzero. inversion Hzero. discriminate.
  - repeat constructor; vm_compute; discriminate.
Defined.

(** X18: the rebalancer and the router together. With the weights a
    rebalance leaves over counts that are not negative, not all 0 and
    divided exactly (each within [2^53] times their greatest common
    divisor), the router's loop selects each backend, over a cycle of
    counter values, for a share of the cycle that is the backend's share of
    the instances. *)
Theorem rebalanced_weights_share counts weights weights' i count :
  length weights = length counts →
  Forall (λ count, 0 ≤ count) counts →
  ¬ Forall (λ count, count = 0) counts →
  exactly_divided counts →
  outcome (rebalance counts weights) = inr weights' →
  counts !! i = Some count →
  Z.of_nat (length (filter
      (λ c, Router.walk (c `mod` sum weights' + 1) 0 (enumerate weights') = Some i)
      (seqZ 0 (sum weights')))) * sum counts
    = count * sum weights'.
Proof.
  intros Hlen Hcounts Hnot Hexact Hrebalance Hcount.
  assert (gcd counts ≠ 0) as Hg by by rewrite gcd_zero.
  pose proof (gcd_nonneg counts) as Hnonneg.
  pose proof (sum_positive counts Hcounts Hnot) as Hsum.
  pose proof (proportional_scaled counts Hg) as Hscaled.
  rewrite rebalance_weights in Hrebalance; [|by destruct weights, counts|lia|done].
  rewrite bool_decide_eq_true_2, Hlen in Hrebalance by done.
  set (proportion := proportional counts (length counts)) in *.
  assert (sum counts = gcd counts * sum proportion) as Htotal.
  { rewrite Hscaled at 1. apply sum_scale. }
  assert (0 < sum proportion) as Hpositive by nia.
  unfold force_first in Hrebalance.
  rewrite bool_decide_eq_false_2 in Hrebalance by lia. injection Hrebalance as <-.
  assert (∃ weight, proportion !! i = Some weight ∧ count = gcd counts * weight)
    as (weight & Hweight & ->).
  { rewrite Hscaled, list_lookup_fmap in Hcount.
    destruct (proportion !! i) as [weight|]; [|done]. injection Hcount as <-. by exists weight. }
  assert (Forall (λ weight, 0 ≤ weight) proportion) as Hweights
    by by apply (scaled_nonneg (gcd counts)); [lia | rewrite <- Hscaled].
  rewrite (RouterSelectionFacts.first_cycle proportion i weight Hweights Hpositive Hweight).
  apply (Forall_lookup_1 _ _ _ _ Hweights) in Hweight. rewrite Htotal. lia.
Qed.

Lemma rebalanced_weights_share_witness :
  Z.of_nat (length (filter
      (λ c, Router.walk (c `mod` sum [2; 3; 1] + 1) 0 (enumerate [2; 3; 1]) = Some 1%nat)
      (seqZ 0 (sum [2; 3; 1])))) * sum [6; 9; 3]
    = 9 * sum [2; 3; 1].
Proof.
  apply (rebalanced_weights_share [6; 9; 3] [5; 3; 2] [2; 3; 1] 1 9).
  - reflexivity.
  - repeat constructor; lia.
  - intros Hzero. inversion Hzero. discriminate.
  - repeat constructor; vm_compute; discriminate.
  - reflexivity.
  - reflexivity.
Defined.


(** *** The calls of the handler *)

(** What the end of the [IN_SERVICE] branch emits: the configuration, and
    the state when the configuration went through. *)
Lemma in_service_tail env servers weights counts currentState :
  let tail := update_server_config env servers weights counts
              ≫= λ _, write_state env currentState in
  let config := {| Scaling.servers := Some servers; Scaling.weights := Some weights;
                   Scaling.current_instance_count := Some counts |} in
  (put_config env ≠ Returned tt ∧ emitted tail = [PutConfig config]
   ∧ ∀ a, outcome tail ≠ inr a)
  ∨ (put_config env = Returned tt
     ∧ tail = ([PutConfig config; PutState (stored env currentState)], inr tt)).
Proof.
  cbn zeta. unfold update_server_config.
  destruct (put_config env) as [[]|? ? ?|?]; [by right | by left | by left].
Qed.

Lemma in_service_shape env detail endpoint_name servers weights0 counts0 currentState :
  in_service_calls env detail endpoint_name servers weights0 counts0 currentState
    (in_service env detail endpoint_name servers weights0 counts0 currentState).
Proof.
  unfold in_service_calls, in_service, subscript, Scaling.index.
  destruct (split "-" endpoint_name !! 1%nat) as [server|]; [|by left].
  rewrite bind_ret.
  destruct (index_from 0 servers server) as [index|]; [|by left].
  rewrite bind_ret.
  destruct (ProductionVariants detail) as [variants|] eqn:Hvariants; [|by left].
  rewrite bind_ret.
  destruct (variants !! 0%nat) as [reported|] eqn:Hreported; [|by left].
  rewrite bind_ret.
  destruct (counts0 !! index) as [old|] eqn:Hold; [|by left].
  rewrite bind_ret.
  destruct reported as [count|]; [|by left].
  rewrite bind_ret.
  apply lookup_lt_Some in Hold.
  set (counts := <[index:=count]> counts0).
  set (state' := <["actualCapacity" := VNum (sum counts)]> currentState).
  destruct (state' !! "desiredCapacity") as [[desired|?]|] eqn:Hdesired.
  2:{ left. by rewrite (getitem_Some _ _ _ Hdesired), bind_ret. }
  2:{ left. by rewrite (getitem_None _ _ Hdesired). }
  rewrite (getitem_Some _ _ _ Hdesired), bind_ret. unfold number. rewrite bind_ret.
  destruct (bool_decide (desired < sum counts) && bool_decide (0 < count)) eqn:Hdown.
  { apply andb_true_iff in Hdown as [_ Hcount%bool_decide_eq_true].
    destruct (state' !! "variantName") as [[?|variantName]|] eqn:HvariantName.
    - left. by rewrite (getitem_Some _ _ _ HvariantName), bind_ret.
    - rewrite (getitem_Some _ _ _ HvariantName), bind_ret. unfold text. rewrite bind_ret.
      right. exists index, count, weights0, InProgress,
        [UpdateEndpoint endpoint_name variantName (count - 1)].
      split; [done|]. split; [by exists variants|]. split; [right; by exists variantName|].
      split; [by left|]. cbn zeta. fold counts. fold state'.
      unfold update_endpoint_weights_and_capacities.
      destruct (sagemaker env _ _ _) as [[]|? ? ?|?]; [|by left|by left].
      rewrite !bind_assoc, tell_bind. cbn beta. rewrite !bind_ret.
      destruct (in_service_tail env servers weights0 counts
                  (<["scalingStatus" := InProgress]> state'))
        as [(Hput & Hcalls & Hnone) | (Hput & Htail)]; cbn zeta in *.
      + right. left. unfold emitted, outcome in *.
        destruct (_ ≫= _) as [calls [e|a]]; simpl in *; [|by destruct (Hnone a)].
        by subst calls.
      + right. right. by rewrite Htail.
    - left. by rewrite (getitem_None _ _ HvariantName). }
  clear Hdown.
  assert (∀ weights' status,
    weights' = weights0 ∨ outcome (rebalance counts weights0) = inr weights' →
    in_service_calls env detail endpoint_name servers weights0 counts0 currentState
      (update_server_config env servers weights' counts
       ≫= λ _, write_state env (<["scalingStatus" := status]> state'))) as Htail.
  { intros weights' status Hweights. right.
    exists index, count, weights', status, []. split; [done|].
    split; [by exists variants|]. split; [by left|]. split; [done|].
    destruct (in_service_tail env servers weights' counts
                (<["scalingStatus" := status]> state'))
      as [(Hput & Hcalls & Hnone) | (Hput & Htail)]; cbn zeta in *.
    - right. left. by repeat split.
    - right. right. by split. }
  unfold in_service_calls in Htail. rewrite Hvariants in Htail.
  case_bool_decide.
  - pose proof (rebalance_silent counts weights0) as Hsilent.
    destruct (rebalance counts weights0) as [w [e|weights']] eqn:Hrebalance;
      unfold emitted in Hsilent; simpl in Hsilent; subst w; [by left|].
    change ((([] : list Call), inr weights') : M (list Z)) with (mret (M := M) weights').
    rewrite !bind_ret. apply Htail. by right.
  - rewrite bind_ret. apply Htail. by left.
Qed.

Lemma handle_shape env detail :
  let r := handle env detail in
  emitted r = []
  ∨ (∃ status,
       EndpointStatus detail ≠ Some "IN_SERVICE"%string
       ∧ r = ([PutState (stored env (<["scalingStatus" := status]> (read_state env)))],
              inr tt))
  ∨ (EndpointStatus detail = Some "IN_SERVICE"%string
     ∧ ∃ endpoint_name config servers counts0 weights0,
         EndpointName detail = Some endpoint_name
         ∧ get_config env = Returned (Some config)
         ∧ config_lists config = (servers, counts0, weights0)
         ∧ r = in_service env detail endpoint_name servers weights0 counts0 (read_state env)).
Proof.
  cbn zeta. unfold handle, get_server_config.
  destruct (get_config env) as [[config|]|? ? ?|?] eqn:Hconfig; try by left.
  destruct (config_lists config) as [[servers counts0] weights0] eqn:Hlists.
  rewrite bind_ret.
  destruct (EndpointName detail) as [endpoint_name|] eqn:Hname; [|by left].
  rewrite bind_ret.
  destruct (read_state env !! "resourceName") as [[?|resourceName]|]; try by left.
  rewrite bind_ret.
  destruct (contains endpoint_name resourceName); [|by left].
  case_bool_decide as Hstatus.
  { right. right. split; [done|]. by exists endpoint_name, config, servers, counts0, weights0. }
  repeat case_bool_decide; try by left.
  all: right; left; eexists; split; [done|]; reflexivity.
Qed.

(** X19: whatever the event and the table, the status Lambda asks the
    control plane for at most one thing, as its first call: one instance
    less than the count the event reports, which is above 0, on the
    endpoint of the event, and only at an [IN_SERVICE] event. It never asks
    for a negative instance count. *)
Theorem status_change_requests env detail endpoint_name variantName n :
  UpdateEndpoint endpoint_name variantName n ∈ (handle_endpoint_status_change env detail).1 →
  EndpointStatus detail = Some "IN_SERVICE"%string
  ∧ EndpointName detail = Some endpoint_name
  ∧ 0 ≤ n
  ∧ (∃ variants, ProductionVariants detail = Some variants
                 ∧ variants !! 0%nat = Some (Some (n + 1)))
  ∧ ∃ calls, (handle_endpoint_status_change env detail).1
               = UpdateEndpoint endpoint_name variantName n :: calls
             ∧ ∀ e v m, UpdateEndpoint e v m ∉ calls.
Proof.
  assert ((handle_endpoint_status_change env detail).1 = emitted (handle env detail)) as ->.
  { unfold handle_endpoint_status_change, emitted. by destruct (handle env detail) as [? [?|?]]. }
  destruct (handle_shape env detail)
    as [-> | [(status & _ & ->) | (Hstatus & name & config & servers & counts0 & weights0
                                   & Hname & _ & _ & ->)]].
  - by intros ?%elem_of_nil.
  - unfold emitted. simpl. intros Hin.
    apply list_elem_of_singleton in Hin. discriminate.
  - destruct (in_service_shape env detail name servers weights0 counts0 (read_state env))
      as [[-> _] | (index & count & weights' & status & requests & _ & Hreported
                    & Hrequests & _ & Hcalls)]; [by intros ?%elem_of_nil|].
    cbn zeta in Hcalls. intros Hin.
    assert (requests = [UpdateEndpoint endpoint_name variantName n]
            ∧ name = endpoint_name ∧ 0 < n + 1 ∧ count = n + 1) as (-> & -> & Hn & ->).
    { destruct Hrequests as [-> | (v & Hcount & ->)].
      - exfalso. destruct Hcalls as [[Hcalls _] | [(Hcalls & _) | [Hcalls _]]];
          rewrite Hcalls in Hin; unfold emitted in Hin; simpl in Hin;
          repeat (apply elem_of_cons in Hin as [Hin | Hin]; [discriminate|]);
          by apply elem_of_nil in Hin.
      - assert (UpdateEndpoint endpoint_name variantName n
                = UpdateEndpoint name v (count - 1)) as [= -> -> ->]; [|by repeat split; lia].
        destruct Hcalls as [[Hcalls _] | [(Hcalls & _) | [Hcalls _]]];
          rewrite Hcalls in Hin; unfold emitted in Hin; simpl in Hin;
          (apply elem_of_cons in Hin as [Hin | Hin]; [done|]);
          repeat (apply elem_of_cons in Hin as [Hin | Hin]; [discriminate|]);
          by apply elem_of_nil in Hin. }
    split; [done|]. split; [done|]. split; [lia|]. split; [done|].
    destruct Hcalls as [[Hcalls _] | [(Hcalls & _) | [Hcalls _]]]; rewrite Hcalls;
      unfold emitted; simpl; eexists; (split; [reflexivity|]); intros e v m Hm;
      repeat (apply elem_of_cons in Hm as [Hm | Hm]; [discriminate|]);
      by apply elem_of_nil in Hm.
Qed.


(** X20: whatever the event and the table, if the status Lambda writes the
    state at all, the write is its last call and it answers 200; the item
    carries [DIMENSION_ID] under [id] and the time of the invocation under
    [lastModified], and differs from the state read in no key other than
    these, [scalingStatus] and [actualCapacity]. At an event other than
    [IN_SERVICE] the write is the only call and the actual capacity stays;
    at an [IN_SERVICE] event the configuration was put before, the put went
    through, and the actual capacity written is the total of the counts of
    that configuration. *)
Theorem status_change_writes env detail item :
  let calls := (handle_endpoint_status_change env detail).1 in
  PutState item ∈ calls →
  (handle_endpoint_status_change env detail).2 = Response200
  ∧ list.last calls = Some (PutState item)
  ∧ item !! "id" = Some (VStr (dimensionId env))
  ∧ item !! "lastModified" = Some (VNum (time_ms env))
  ∧ (∀ key, key ∉ ["id"; "lastModified"; "scalingStatus"; "actualCapacity"]%string →
       item !! key = read_state env !! key)
  ∧ (EndpointStatus detail ≠ Some "IN_SERVICE"%string →
     calls = [PutState item]
     ∧ item !! "actualCapacity" = read_state env !! "actualCapacity")
  ∧ (EndpointStatus detail = Some "IN_SERVICE"%string →
     put_config env = Returned tt
     ∧ ∃ config counts,
         PutConfig config ∈ calls
         ∧ current_instance_count config = Some counts
         ∧ item !! "actualCapacity" = Some (VNum (sum counts))).
Proof.
  cbn zeta. unfold handle_endpoint_status_change.
  destruct (handle_shape env detail)
    as [Hnone | [(status & Hstatus & Hrun) | (Hstatus & name & config & servers & counts0
                                            & weights0 & Hname & _ & _ & Hrun)]].
  - unfold emitted in Hnone. destruct (handle env detail) as [calls [e|a]];
      simpl in *; subst calls; by intros ?%elem_of_nil.
  - rewrite Hrun. simpl. intros Hin. apply list_elem_of_singleton in Hin as [= ->].
    split; [done|]. split; [done|].
    split; [by unfold stored; rewrite lookup_insert_ne, lookup_insert_eq|].
    split; [by unfold stored; rewrite lookup_insert_eq|].
    split; [|split; [|done]].
    + intros key Hkey. apply not_elem_of_cons in Hkey as [Hid Hkey].
      apply not_elem_of_cons in Hkey as [Hmodified Hkey].
      apply not_elem_of_cons in Hkey as [Hscaling _].
      by rewrite stored_lookup_ne, lookup_insert_ne.
    + intros _. split; [done|]. by rewrite stored_lookup_ne, lookup_insert_ne.
  - rewrite Hrun.
    destruct (in_service_shape env detail name servers weights0 counts0 (read_state env))
      as [[Hnone _] | (index & count & weights' & status & requests & _ & _
                       & Hrequests & _ & Hcalls)].
    { unfold emitted in Hnone. destruct (in_service _ _ _ _ _ _ _) as [calls [e|a]];
        simpl in *; subst calls; by intros ?%elem_of_nil. }
    cbn zeta in Hcalls.
    assert (∀ call, call ∈ requests → ∀ item', call ≠ PutState item') as Hrequest.
    { intros call Hcall item'. destruct Hrequests as [-> | (v & _ & ->)].
      - by apply elem_of_nil in Hcall.
      - apply list_elem_of_singleton in Hcall as ->. discriminate. }
    destruct Hcalls as [[Hcalls _] | [(Hcalls & _) | [Hcalls Hput]]].
    + unfold emitted in Hcalls. destruct (in_service _ _ _ _ _ _ _) as [calls [e|a]];
        simpl in *; subst calls; intros Hin; by destruct (Hrequest _ Hin item).
    + unfold emitted in Hcalls. destruct (in_service _ _ _ _ _ _ _) as [calls [e|a]];
        simpl in *; subst calls; intros Hin;
        (apply elem_of_app in Hin as [Hin | Hin]; [by destruct (Hrequest _ Hin item)|]);
        apply list_elem_of_singleton in Hin; discriminate.
    + rewrite Hcalls. simpl. intros Hin.
      apply elem_of_app in Hin as [Hin | Hin]; [by destruct (Hrequest _ Hin item)|].
      apply elem_of_cons in Hin as [Hin | Hin]; [discriminate|].
      apply list_elem_of_singleton in Hin as [= ->].
      split; [done|]. split.
      { by rewrite (last_app_cons requests), (last_cons_cons (PutConfig _)). }
      split; [by unfold stored; rewrite lookup_insert_ne, lookup_insert_eq|].
      split; [by unfold stored; rewrite lookup_insert_eq|].
      split; [|split; [done|]].
      * intros key Hkey. apply not_elem_of_cons in Hkey as [Hid Hkey].
        apply not_elem_of_cons in Hkey as [Hmodified Hkey].
        apply not_elem_of_cons in Hkey as [Hscaling Hkey].
        apply not_elem_of_cons in Hkey as [Hactual _].
        by rewrite stored_lookup_ne, !lookup_insert_ne.
      * intros _. split; [done|]. eexists _, _. split.
        { apply elem_of_app. right. left. }
        split; [done|].
        by rewrite stored_lookup_ne, lookup_insert_ne, lookup_insert_eq.
Qed.


Lemma shrinking_run :
  handle_endpoint_status_change env_shrinking event_shrinking
    = ([UpdateEndpoint "pool-server1" "AllTraffic" 2;
        PutConfig (sample_config [3; 0; 4] [3; 0; 4]);
        PutState state_shrunk], Response200).
Proof. vm_compute. reflexivity. Qed.

Lemma status_change_requests_witness :
  EndpointStatus event_shrinking = Some "IN_SERVICE"%string
  ∧ EndpointName event_shrinking = Some "pool-server1"%string
  ∧ 0 ≤ 2
  ∧ (∃ variants, ProductionVariants event_shrinking = Some variants
                 ∧ variants !! 0%nat = Some (Some (2 + 1)))
  ∧ ∃ calls, (handle_endpoint_status_change env_shrinking event_shrinking).1
               = UpdateEndpoint "pool-server1" "AllTraffic" 2 :: calls
             ∧ ∀ e v m, UpdateEndpoint e v m ∉ calls.
Proof.
  apply (status_change_requests env_shrinking event_shrinking "pool-server1" "AllTraffic" 2).
  rewrite shrinking_run. simpl. left.
Defined.

Lemma status_change_writes_witness :
  (handle_endpoint_status_change env_shrinking event_shrinking).2 = Response200
  ∧ list.last (handle_endpoint_status_change env_shrinking event_shrinking).1
    = Some (PutState state_shrunk)
  ∧ state_shrunk !! "id" = Some (VStr (dimensionId env_shrinking))
  ∧ state_shrunk !! "lastModified" = Some (VNum (time_ms env_shrinking))
  ∧ (∀ key, key ∉ ["id"; "lastModified"; "scalingStatus"; "actualCapacity"]%string →
       state_shrunk !! key = read_state env_shrinking !! key)
  ∧ (EndpointStatus event_shrinking ≠ Some "IN_SERVICE"%string →
     (handle_endpoint_status_change env_shrinking event_shrinking).1 = [PutState state_shrunk]
     ∧ state_shrunk !! "actualCapacity" = read_state env_shrinking !! "actualCapacity")
  ∧ (EndpointStatus event_shrinking = Some "IN_SERVICE"%string →
     put_config env_shrinking = Returned tt
     ∧ ∃ config counts,
         PutConfig config ∈ (handle_endpoint_status_change env_shrinking event_shrinking).1
         ∧ current_instance_count config = Some counts
         ∧ state_shrunk !! "actualCapacity" = Some (VNum (sum counts))).
Proof.
  apply (status_change_writes env_shrinking event_shrinking state_shrunk).
  rewrite shrinking_run. simpl. do 2 right. left.
Defined.

(** X21: an [IN_SERVICE] event that leaves the total of the counts away
    from the desired capacity, on a table and a control plane that take
    what they are given: the count of the reporting backend is replaced,
    the weights are put back as they were, and the state becomes
    [InProgress] with the new total. When the total is above the desired
    capacity and the reported count above 0, the Lambda first asks for one
    instance less on the reporting endpoint; otherwise it asks for
    nothing. *)
Theorem in_service_not_converged env detail config state servers counts0 weights0
    endpoint_name resourceName variantName server index variants count desired :
  get_config env = Returned (Some config) →
  config_lists config = (servers, counts0, weights0) →
  get_state env = Returned (Some state) →
  EndpointName detail = Some endpoint_name →
  EndpointStatus detail = Some "IN_SERVICE"%string →
  state !! "resourceName" = Some (VStr resourceName) →
  contains endpoint_name resourceName = true →
  split "-" endpoint_name !! 1%nat = Some server →
  index_from 0 servers server = Some index →
  ProductionVariants detail = Some variants →
  variants !! 0%nat = Some (Some count) →
  (index < length counts0)%nat →
  state !! "desiredCapacity" = Some (VNum desired) →
  state !! "variantName" = Some (VStr variantName) →
  put_config env = Returned tt →
  sagemaker env endpoint_name variantName (count - 1) = Returned tt →
  let counts := <[index := count]> counts0 in
  desired ≠ sum counts →
  handle_endpoint_status_change env detail
    = ((if bool_decide (desired < sum counts ∧ 0 < count)
        then [UpdateEndpoint endpoint_name variantName (count - 1)] else [])
       ++ [PutConfig {| Scaling.servers := Some servers;
                        Scaling.weights := Some weights0;
                        Scaling.current_instance_count := Some counts |};
           PutState (stored env (<["scalingStatus" := InProgress]>
                                   (<["actualCapacity" := VNum (sum counts)]> state)))],
       Response200).
Proof.
  intros Hconfig Hlists Hstate Hname Hstatus Hresource Hcontains Hserver Hindex
    Hvariants Hreported Hrange Hdesired HvariantName Hput Haccepted counts Hne.
  unfold handle_endpoint_status_change.
  rewrite (handle_in_service env detail config state servers counts0 weights0
             endpoint_name resourceName server index variants count desired) by done.
  cbn zeta. fold counts. unfold update_server_config. rewrite Hput.
  destruct (decide (desired < sum counts ∧ 0 < count)) as [[Hlt Hcount]|Hno].
  - rewrite (bool_decide_eq_true_2 (desired < sum counts)) by done.
    rewrite (bool_decide_eq_true_2 (0 < count)) by done.
    rewrite (bool_decide_eq_true_2 (_ ∧ _)) by done.
    rewrite (getitem_Some _ "variantName" (VStr variantName))
      by by rewrite lookup_insert_ne.
    rewrite bind_ret. unfold text. rewrite bind_ret.
    unfold update_endpoint_weights_and_capacities. rewrite Haccepted. reflexivity.
  - rewrite (bool_decide_eq_false_2 (_ ∧ _)) by done.
    assert (bool_decide (desired < sum counts) && bool_decide (0 < count) = false) as ->.
    { apply andb_false_iff. destruct (decide (desired < sum counts)).
      - right. apply bool_decide_eq_false_2. lia.
      - left. by apply bool_decide_eq_false_2. }
    rewrite (bool_decide_eq_false_2 (desired = sum counts)) by done. reflexivity.
Qed.

Lemma in_service_not_converged_witness :
  handle_endpoint_status_change env_shrinking event_shrinking
    = ((if bool_decide (2 < sum (<[0%nat := 3]> [3; 0; 4]) ∧ 0 < 3)
        then [UpdateEndpoint "pool-server1" "AllTraffic" (3 - 1)] else [])
       ++ [PutConfig {| Scaling.servers := Some sample_servers;
                        Scaling.weights := Some [3; 0; 4];
                        Scaling.current_instance_count := Some (<[0%nat := 3]> [3; 0; 4]) |};
           PutState (stored env_shrinking
                       (<["scalingStatus" := InProgress]>
                          (<["actualCapacity" := VNum (sum (<[0%nat := 3]> [3; 0; 4]))]>
                             state_shrinking)))],
       Response200).
Proof.
  apply (in_service_not_converged env_shrinking event_shrinking
           (sample_config [3; 0; 4] [3; 0; 4]) state_shrinking sample_servers
           [3; 0; 4] [3; 0; 4] "pool-server1" "pool" "AllTraffic" "server1" 0
           [Some 3] 3 2); try reflexivity.
  - simpl. lia.
  - vm_compute. discriminate.
Defined.

End EndpointStateHandlerFacts.
